(** * The paste-delivery engine of OpenWhispr (ClipboardManager)

    A shallow embedding of the [ClipboardManager] class of
    [src/helpers/modelManagerBridge.js] (second half of the file): session
    introspection, the tool-availability cache, the macOS permission probe,
    the Linux focused-window classifier, the per-platform delivery
    mechanisms and the clipboard round trip. The [ModelManager] class of
    the first half of the file (the model registry, the prompt template and
    the download of model files) is embedded in the module [ModelManager].

    The class is asynchronous JavaScript driving child processes and timers.
    It is embedded as a state-passing program over an explicit [State]
    (virtual clock, clipboard, pending restoration timers, the two caches,
    the nircmd memo and an event trace) run against a [World] that fixes
    what the operating system answers: environment variables, the file
    system, and the behaviour of every child process that is spawned. *)

From Stdlib Require Import String Ascii NArith ZArith Bool List Lia.
From stdpp Require Import base option gmap strings pretty.
Import ListNotations.

Local Open Scope N_scope.

(** ** JavaScript strings

    Strings are sequences of code units. [toLowerCase] is the ASCII case
    mapping (code units outside A-Z are left as they are), and [trim] strips
    the ASCII white space and line terminators (tab, LF, VT, FF, CR,
    space). *)

Module JsString.

Definition dq : string := String (Ascii false true false false false true false false) EmptyString.

Definition lower_ascii (c : ascii) : ascii :=
  let n := N_of_ascii c in
  if (65 <=? n) && (n <=? 90) then ascii_of_N (n + 32) else c.

Fixpoint toLowerCase (s : string) : string :=
  match s with
  | EmptyString => EmptyString
  | String c s' => String (lower_ascii c) (toLowerCase s')
  end.

Definition is_ws (c : ascii) : bool :=
  let n := N_of_ascii c in
  ((9 <=? n) && (n <=? 13)) || (n =? 32).

Fixpoint trimStart (s : string) : string :=
  match s with
  | EmptyString => EmptyString
  | String c s' => if is_ws c then trimStart s' else s
  end.

Definition is_empty (s : string) : bool :=
  match s with EmptyString => true | String _ _ => false end.

Fixpoint trimEnd (s : string) : string :=
  match s with
  | EmptyString => EmptyString
  | String c s' =>
      let r := trimEnd s' in
      if is_ws c && is_empty r then EmptyString else String c r
  end.

Definition trim (s : string) : string := trimEnd (trimStart s).

(** [startsWith s needle]: [needle] is a prefix of [s]. *)
Fixpoint startsWith (s needle : string) : bool :=
  match needle, s with
  | EmptyString, _ => true
  | String _ _, EmptyString => false
  | String a needle', String b s' => Ascii.eqb a b && startsWith s' needle'
  end.

(** [String.prototype.includes]: [needle] occurs somewhere in [s]. *)
Fixpoint includes (s needle : string) : bool :=
  startsWith s needle ||
  match s with
  | EmptyString => false
  | String _ s' => includes s' needle
  end.

(** [Array.prototype.join]. *)
Fixpoint join (sep : string) (l : list string) : string :=
  match l with
  | [] => EmptyString
  | [x] => x
  | x :: l' => x +:+ sep +:+ join sep l'
  end.

(** The truthiness of a string: the empty string is falsy. *)
Definition truthy (s : string) : bool := negb (is_empty s).

(** The truthiness of a possibly undefined string, [!!process.env.X]. *)
Definition truthy_opt (o : option string) : bool :=
  match o with
  | Some s => truthy s
  | None => false
  end.

(** [x || ""] on a possibly undefined string. *)
Definition or_empty (o : option string) : string :=
  match o with
  | Some s => s
  | None => EmptyString
  end.

(** A string of ASCII characters. On such strings the case mapping and
    the white space of this module are those of JavaScript, which beyond
    ASCII lower-cases more (the Kelvin sign becomes "k") and trims more (the
    no-break space). *)
Fixpoint ascii_only (s : string) : bool :=
  match s with
  | EmptyString => true
  | String c s' => (N_of_ascii c <? 128) && ascii_only s'
  end.

(** A needle that [trim] cannot cut: non-empty, with no white space at
    either end. *)
Fixpoint last_solid (s : string) : bool :=
  match s with
  | EmptyString => false
  | String c EmptyString => negb (is_ws c)
  | String _ s' => last_solid s'
  end.

Definition solid (s : string) : bool :=
  match s with
  | EmptyString => false
  | String c _ => negb (is_ws c) && last_solid s
  end.

End JsString.
Import JsString.

(** ** The operating system as seen by the class *)

(** [process.platform]; the class treats every value other than "darwin"
    and "win32" as Linux. *)
Inductive Platform := Darwin | Win32 | Linux.

Definition platform_name (p : Platform) : string :=
  match p with
  | Darwin => "darwin"
  | Win32 => "win32"
  | Linux => "linux"
  end.

(** The environment variables the class reads; [None] is an unset
    variable. *)
Record Env := {
  XDG_SESSION_TYPE : option string;
  WAYLAND_DISPLAY : option string;
  DISPLAY : option string;
  XDG_CURRENT_DESKTOP : option string;
  XDG_SESSION_DESKTOP : option string;
  DESKTOP_SESSION : option string;
}.

(** What a [spawnSync] call gives back after blocking for [elapsed] ms: a
    result object with its exit status ([None] is JavaScript's null, e.g.
    when the command could not be started) and captured standard output, or
    an exception. *)
Inductive SyncResult :=
| SyncReturns (elapsed : N) (status : option Z) (stdout : string)
| SyncThrows (elapsed : N).

(** What a child started with [spawn] does when left alone. It ends and
    emits 'close' with its exit code ([None] is null: ended by a signal); or
    it could not be started and emits 'error', which Node follows with
    'close' carrying the negative error number as code (child_process, event
    'close': it is always emitted after 'exit', or after 'error' if the child
    failed to spawn), so both handlers run where both are still registered;
    or it stays silent. *)
Inductive ChildBehaviour :=
| Closes (after : N) (code : option Z) (stderr : string)
| Errors (after : N) (errno : positive) (message : string)
| Hangs.

Record World := {
  platform : Platform;
  env : Env;
  (** the three locations [getNircmdPath] joins from [process.resourcesPath],
      [__dirname] and [process.cwd()], in the order they are tried *)
  possiblePaths : list string;
  existsSync : string -> bool;
  (** answers depend on the time of the call, so that the machine may change
      under the program *)
  spawnSync : N -> string -> list string -> SyncResult;
  spawn : N -> string -> list string -> ChildBehaviour;
  (** the same for a child started while the clock still reads the time at
      which [spawn] has answered for that command line: two children started
      in the same millisecond are two processes, and need not end alike *)
  spawnAgain : N -> string -> list string -> ChildBehaviour;
  (** time between SIGKILL and the 'close' event of the killed child *)
  killLatency : N;
}.

(** ** Program state *)

Inductive Event :=
| EvSpawnSync (cmd : string) (args : list string)
| EvSpawn (cmd : string) (args : list string)
| EvDialog (stuckPermission : bool)
| EvKill (cmd : string)
| EvWriteText (text : string)
| EvPasteLog (ok : bool) (platformName method : string).

(** A pending [setTimeout(() => clipboard.writeText(text), delay)]. *)
Record Timer := { due : N; restoreText : string }.

Record CacheEntry := { exists_ : bool; expiresAt : N }.

Record AccessibilityCache := { value : option bool; permExpiresAt : N }.

Record State := {
  now : N;
  clipboard : string;
  timers : list Timer;
  accessibilityCache : AccessibilityCache;
  commandAvailabilityCache : gmap string CacheEntry;
  nircmdPath : option string;
  nircmdChecked : bool;
  trace : list Event;
}.

(** The constructor of [ClipboardManager], in a process whose clock reads
    [t] and whose clipboard holds [clip]. *)
Definition newClipboardManager (t : N) (clip : string) : State :=
  {| now := t; clipboard := clip; timers := [];
     accessibilityCache := {| value := None; permExpiresAt := 0 |};
     commandAvailabilityCache := ∅;
     nircmdPath := None; nircmdChecked := false; trace := [] |}.

Definition set_now (t : N) (s : State) : State :=
  {| now := t; clipboard := clipboard s; timers := timers s;
     accessibilityCache := accessibilityCache s;
     commandAvailabilityCache := commandAvailabilityCache s;
     nircmdPath := nircmdPath s; nircmdChecked := nircmdChecked s;
     trace := trace s |}.

Definition set_clipboard (c : string) (s : State) : State :=
  {| now := now s; clipboard := c; timers := timers s;
     accessibilityCache := accessibilityCache s;
     commandAvailabilityCache := commandAvailabilityCache s;
     nircmdPath := nircmdPath s; nircmdChecked := nircmdChecked s;
     trace := trace s |}.

Definition set_timers (ts : list Timer) (s : State) : State :=
  {| now := now s; clipboard := clipboard s; timers := ts;
     accessibilityCache := accessibilityCache s;
     commandAvailabilityCache := commandAvailabilityCache s;
     nircmdPath := nircmdPath s; nircmdChecked := nircmdChecked s;
     trace := trace s |}.

Definition set_accessibilityCache (c : AccessibilityCache) (s : State) : State :=
  {| now := now s; clipboard := clipboard s; timers := timers s;
     accessibilityCache := c;
     commandAvailabilityCache := commandAvailabilityCache s;
     nircmdPath := nircmdPath s; nircmdChecked := nircmdChecked s;
     trace := trace s |}.

Definition set_commandAvailabilityCache (c : gmap string CacheEntry) (s : State) : State :=
  {| now := now s; clipboard := clipboard s; timers := timers s;
     accessibilityCache := accessibilityCache s;
     commandAvailabilityCache := c;
     nircmdPath := nircmdPath s; nircmdChecked := nircmdChecked s;
     trace := trace s |}.

Definition set_nircmd (p : option string) (checked : bool) (s : State) : State :=
  {| now := now s; clipboard := clipboard s; timers := timers s;
     accessibilityCache := accessibilityCache s;
     commandAvailabilityCache := commandAvailabilityCache s;
     nircmdPath := p; nircmdChecked := checked;
     trace := trace s |}.

Definition set_trace (tr : list Event) (s : State) : State :=
  {| now := now s; clipboard := clipboard s; timers := timers s;
     accessibilityCache := accessibilityCache s;
     commandAvailabilityCache := commandAvailabilityCache s;
     nircmdPath := nircmdPath s; nircmdChecked := nircmdChecked s;
     trace := tr |}.

(** ** A state monad for the methods of the class *)

Definition M (A : Type) : Type := State -> A * State.

Definition ret {A} (a : A) : M A := fun s => (a, s).

Definition bind {A B} (m : M A) (k : A -> M B) : M B :=
  fun s => let r := m s in k (fst r) (snd r).

Declare Scope m_scope.
Delimit Scope m_scope with M.
Notation "'let*' x := c 'in' k" := (bind c (fun x => k))
  (at level 10, x name, c at level 100, k at level 200) : m_scope.
Notation "'run' c 'then' k" := (bind c (fun _ => k))
  (at level 10, c at level 100, k at level 200) : m_scope.
Local Open Scope m_scope.

Definition emit (e : Event) : M unit :=
  fun s => (tt, set_trace (trace s ++ [e]) s).

(** [Date.now()]. *)
Definition Date_now : M N := fun s => (now s, s).

(** The program is blocked for [d] ms (a synchronous child): the clock
    moves, no timer callback runs. *)
Definition block (d : N) : M unit := fun s => (tt, set_now (now s + d) s).

(** The timers that are due at [t] run in the order of their due times;
    [timers] is kept sorted by [schedule]. *)
Fixpoint run_due (t : N) (ts : list Timer) (clip : string) (tr : list Event)
  : list Timer * string * list Event :=
  match ts with
  | [] => ([], clip, tr)
  | tm :: ts' =>
      if due tm <=? t
      then run_due t ts' (restoreText tm) (tr ++ [EvWriteText (restoreText tm)])
      else (ts, clip, tr)
  end.

(** The event loop runs until the clock reads [t]. *)
Definition advance_to (t : N) (s : State) : State :=
  let '(ts, clip, tr) := run_due t (timers s) (clipboard s) (trace s) in
  {| now := t; clipboard := clip; timers := ts;
     accessibilityCache := accessibilityCache s;
     commandAvailabilityCache := commandAvailabilityCache s;
     nircmdPath := nircmdPath s; nircmdChecked := nircmdChecked s;
     trace := tr |}.

(** The program awaits something that happens [d] ms from now. *)
Definition sleep (d : N) : M unit := fun s => (tt, advance_to (now s + d) s).

(** A new timer goes behind the pending ones that are due no later: timers
    run in the order of their due times, and timers due together in the order
    in which they were set. *)
Fixpoint schedule (tm : Timer) (ts : list Timer) : list Timer :=
  match ts with
  | [] => [tm]
  | x :: ts' => if due x <=? due tm then x :: schedule tm ts' else tm :: ts
  end.

(** [setTimeout(() => clipboard.writeText(text), delay)]. *)
Definition setTimeout_writeText (text : string) (delay : N) : M unit :=
  fun s => (tt, set_timers (schedule {| due := now s + delay; restoreText := text |} (timers s)) s).

(** [clipboard.readText()] and [clipboard.writeText(text)]. *)
Definition readText : M string := fun s => (clipboard s, s).

Definition writeText (text : string) : M unit :=
  fun s => (tt, set_trace (trace s ++ [EvWriteText text]) (set_clipboard text s)).

Section Engine.

Variable w : World.

(** [spawnSync(cmd, args)]. *)
Definition run_spawnSync (cmd : string) (args : list string) : M SyncResult :=
  run emit (EvSpawnSync cmd args) then
  let* t := Date_now in
  let r := spawnSync w t cmd args in
  run block (match r with SyncReturns d _ _ => d | SyncThrows d => d end) then
  ret r.

(** [spawn(cmd, args)]: the child is started; what it will do is decided
    by the world at the time of the call. *)
Definition run_spawn (cmd : string) (args : list string) : M ChildBehaviour :=
  run emit (EvSpawn cmd args) then
  let* t := Date_now in
  ret (spawn w t cmd args).

(** Modelled from the spec: [killProcess] of [../utils/process], which is
    not part of the sources at hand. The spec says that a timeout forcibly
    terminates the child process; the call is recorded in the trace, and a
    killed child emits 'close' [killLatency] ms later. *)
Definition killProcess (cmd : string) : M unit := emit (EvKill cmd).

(** Which of the three callbacks registered on a child runs first: the
    'close' handler, the 'error' handler, or the timeout set [timeout] ms
    after the spawn; and after how long. A child that ends exactly when the
    timer falls due loses to the timer, which the event loop serves first. *)
Inductive Raced :=
| OnClose (code : option Z) (stderr : string)
| OnError (message : string)
| OnTimeout.

Definition race (b : ChildBehaviour) (timeout : N) : N * Raced :=
  match b with
  | Closes d code err => if d <? timeout then (d, OnClose code err) else (timeout, OnTimeout)
  | Errors d _ msg => if d <? timeout then (d, OnError msg) else (timeout, OnTimeout)
  | Hangs => (timeout, OnTimeout)
  end.

Definition is_zero (code : option Z) : bool :=
  match code with
  | Some 0%Z => true
  | _ => false
  end.

(** Template-literal rendering of an exit code. *)
Definition show_code (code : option Z) : string :=
  match code with
  | Some z => pretty z
  | None => "null"
  end.

(** A JavaScript [Error]: its message and, where the code sets one, its
    [code] property. *)
Record JsError := { message : string; code : option string }.

(** How a promise ends; [Pending] is a promise that never settles. *)
Inductive Settled :=
| Resolved
| Rejected (e : JsError)
| Pending.

Definition CACHE_TTL_MS : N := 30000.

(** *** Session introspection *)

(** [.filter(Boolean)] on the environment readings. *)
Fixpoint filter_Boolean (l : list (option string)) : list string :=
  match l with
  | [] => []
  | Some x :: l' => if truthy x then x :: filter_Boolean l' else filter_Boolean l'
  | None :: l' => filter_Boolean l'
  end.

Definition getLinuxDesktopEnv : string :=
  toLowerCase
    (join ":"
       (filter_Boolean
          [XDG_CURRENT_DESKTOP (env w); XDG_SESSION_DESKTOP (env w); DESKTOP_SESSION (env w)])).

Definition isGnomeDesktop (desktopEnv : string) : bool := includes desktopEnv "gnome".

Record SessionInfo := {
  isWayland : bool;
  xwaylandAvailable : bool;
  desktopEnv : string;
  isGnome : bool;
}.

Definition getLinuxSessionInfo : SessionInfo :=
  let isWayland :=
    String.eqb (toLowerCase (or_empty (XDG_SESSION_TYPE (env w)))) "wayland"
    || truthy_opt (WAYLAND_DISPLAY (env w)) in
  let xwaylandAvailable := isWayland && truthy_opt (DISPLAY (env w)) in
  let desktopEnv := getLinuxDesktopEnv in
  let isGnome := isWayland && isGnomeDesktop desktopEnv in
  {| isWayland := isWayland; xwaylandAvailable := xwaylandAvailable;
     desktopEnv := desktopEnv; isGnome := isGnome |}.

Definition PASTE_DELAYS_darwin : N := 50.
Definition PASTE_DELAYS_win32_nircmd : N := 30.
Definition PASTE_DELAYS_win32_pwsh : N := 40.
Definition PASTE_DELAYS_linux : N := 0.

Definition RESTORE_DELAYS_darwin : N := 100.
Definition RESTORE_DELAYS_win32_nircmd : N := 80.
Definition RESTORE_DELAYS_win32_pwsh : N := 80.
Definition RESTORE_DELAYS_linux : N := 200.

Definition PASTE_DELAY_MS : N := PASTE_DELAYS_darwin.

(** *** getNircmdPath *)

Definition getNircmdPath : M (option string) := fun s =>
  if nircmdChecked s then (nircmdPath s, s)
  else
    let s1 := set_nircmd (nircmdPath s) true s in
    match platform w with
    | Win32 =>
        match List.find (existsSync w) (possiblePaths w) with
        | Some nircmdPath => (Some nircmdPath, set_nircmd (Some nircmdPath) true s1)
        | None => (None, s1)
        end
    | _ => (None, s1)
    end.

Record NircmdStatus := {
  ns_available : bool;
  ns_reason : option string;
  ns_path : option string;
}.

Definition getNircmdStatus : M NircmdStatus :=
  match platform w with
  | Win32 =>
      let* nircmdPath := getNircmdPath in
      ret {| ns_available := truthy_opt nircmdPath; ns_reason := None; ns_path := nircmdPath |}
  | _ => ret {| ns_available := false; ns_reason := Some "Not Windows"; ns_path := None |}
  end.

(** *** commandExists *)

Definition cache_set (cmd : string) (e : CacheEntry) : M unit :=
  fun s => (tt, set_commandAvailabilityCache (<[cmd := e]> (commandAvailabilityCache s)) s).

(** The [try]/[catch] of [commandExists]: the shell lookup and the cache
    write. [t] is the value of [now] read on entry. *)
Definition probeCommand (cmd : string) (t : N) : M bool :=
  let* res := run_spawnSync "sh" ["-c"; "command -v " +:+ cmd] in
  match res with
  | SyncReturns _ status _ =>
      let exists_ := is_zero status in
      run cache_set cmd {| exists_ := exists_; expiresAt := t + CACHE_TTL_MS |} then
      ret exists_
  | SyncThrows _ =>
      run cache_set cmd {| exists_ := false; expiresAt := t + CACHE_TTL_MS |} then
      ret false
  end.

Definition commandExists (cmd : string) : M bool := fun s =>
  let t := now s in
  match commandAvailabilityCache s !! cmd with
  | Some cached =>
      if t <? expiresAt cached then (exists_ cached, s) else probeCommand cmd t s
  | None => probeCommand cmd t s
  end.

(** *** The macOS permission probe *)

Definition set_permission (v : bool) : M unit := fun s =>
  (tt, set_accessibilityCache {| value := Some v; permExpiresAt := now s + CACHE_TTL_MS |} s).

(** The dialog is a child of its own whose handlers run after the method
    has returned; they touch neither the clipboard nor the caches. The
    trace records that the dialog was opened and which of the two texts it
    shows. *)
Definition showAccessibilityDialog (testError : string) : M unit :=
  let isStuckPermission :=
    includes testError "not allowed assistive access"
    || includes testError "(-1719)"
    || includes testError "(-25006)" in
  emit (EvDialog isStuckPermission).

Definition permission_script : string :=
  "tell application " +:+ dq +:+ "System Events" +:+ dq +:+ " to get name of first process".

(** The child of the probe is not raced against a timer: the promise
    stays pending while the child stays silent. When the child could not be
    started, the 'error' handler caches the denial and resolves the promise,
    and the 'close' handler that runs after it (code [-errno], nothing read
    from stderr) finds the probe not allowed, caches the denial again and
    opens the dialog; its [resolve] comes second and changes nothing. *)
Definition probePermission : M (option bool) :=
  let* testProcess := run_spawn "osascript" ["-e"; permission_script] in
  match testProcess with
  | Closes d code testError =>
      run sleep d then
      let allowed := is_zero code in
      run set_permission allowed then
      run (if allowed then ret tt else showAccessibilityDialog testError) then
      ret (Some allowed)
  | Errors d errno _ =>
      run sleep d then
      run set_permission false then
      let allowed := is_zero (Some (Z.neg errno)) in
      run set_permission allowed then
      run (if allowed then ret tt else showAccessibilityDialog "") then
      ret (Some false)
  | Hangs => ret None
  end.

Definition checkAccessibilityPermissions : M (option bool) := fun s =>
  match platform w with
  | Darwin =>
      match value (accessibilityCache s) with
      | Some v =>
          if now s <? permExpiresAt (accessibilityCache s) then (Some v, s)
          else probePermission s
      | None => probePermission s
      end
  | _ => (Some true, s)
  end.

(** *** Delivery mechanisms *)

Definition error (msg : string) : JsError := {| message := msg; code := None |}.

Definition keystroke_script : string :=
  "tell application " +:+ dq +:+ "System Events" +:+ dq +:+ " to keystroke "
  +:+ dq +:+ "v" +:+ dq +:+ " using command down".

(** Each of the three callbacks of [pasteMacOS] that rejects removes all
    listeners of the child: the 'close' that follows an 'error' finds no
    handler. *)
Definition pasteMacOS (originalClipboard : string) : M Settled :=
  run sleep PASTE_DELAY_MS then
  let* pasteProcess := run_spawn "osascript" ["-e"; keystroke_script] in
  let '(d, ev) := race pasteProcess 3000 in
  run sleep d then
  match ev with
  | OnClose code _ =>
      if is_zero code then
        run setTimeout_writeText originalClipboard 100 then
        ret Resolved
      else
        ret (Rejected (error ("Paste failed (code " +:+ show_code code
          +:+ "). Text is copied to clipboard - please paste manually with Cmd+V.")))
  | OnError msg =>
      ret (Rejected (error ("Paste command failed: " +:+ msg
        +:+ ". Text is copied to clipboard - please paste manually with Cmd+V.")))
  | OnTimeout =>
      run killProcess "osascript" then
      ret (Rejected (error
        "Paste operation timed out. Text is copied to clipboard - please paste manually with Cmd+V."))
  end.

Definition powershell_args : list string :=
  ["-NoProfile"; "-NonInteractive"; "-WindowStyle"; "Hidden"; "-ExecutionPolicy"; "Bypass";
   "-Command";
   "[void][System.Reflection.Assembly]::LoadWithPartialName('System.Windows.Forms');[System.Windows.Forms.SendKeys]::SendWait('^v')"].

(** After an 'error' the 'close' handler runs too, with a non-zero code:
    it rejects a promise that is already rejected, which changes nothing. *)
Definition pasteWithPowerShell (originalClipboard : string) : M Settled :=
  let pasteDelay := PASTE_DELAYS_win32_pwsh in
  let restoreDelay := RESTORE_DELAYS_win32_pwsh in
  run sleep pasteDelay then
  let* pasteProcess := run_spawn "powershell.exe" powershell_args in
  let '(d, ev) := race pasteProcess 5000 in
  run sleep d then
  match ev with
  | OnClose code _ =>
      if is_zero code then
        run setTimeout_writeText originalClipboard restoreDelay then
        ret Resolved
      else
        ret (Rejected (error ("Windows paste failed with code " +:+ show_code code
          +:+ ". Text is copied to clipboard - please paste manually with Ctrl+V.")))
  | OnError msg =>
      ret (Rejected (error ("Windows paste failed: " +:+ msg
        +:+ ". Text is copied to clipboard - please paste manually with Ctrl+V.")))
  | OnTimeout =>
      run killProcess "powershell.exe" then
      ret (Rejected (error
        "Paste operation timed out. Text is copied to clipboard - please paste manually with Ctrl+V."))
  end.

(** [spawn(cmd, args)] for a child whose command line has just been
    started once already. *)
Definition run_spawnAgain (cmd : string) (args : list string) : M ChildBehaviour :=
  run emit (EvSpawn cmd args) then
  let* t := Date_now in
  ret (spawnAgain w t cmd args).

(** The callback of a [pasteWithPowerShell] call that runs for the event
    [ev] of its child: the 'close' handler, the 'error' handler or the
    timeout, as in [pasteWithPowerShell]. *)
Definition powershellCallback (originalClipboard : string) (ev : Raced) : M Settled :=
  let restoreDelay := RESTORE_DELAYS_win32_pwsh in
  match ev with
  | OnClose code _ =>
      if is_zero code then
        run setTimeout_writeText originalClipboard restoreDelay then
        ret Resolved
      else
        ret (Rejected (error ("Windows paste failed with code " +:+ show_code code
          +:+ ". Text is copied to clipboard - please paste manually with Ctrl+V.")))
  | OnError msg =>
      ret (Rejected (error ("Windows paste failed: " +:+ msg
        +:+ ". Text is copied to clipboard - please paste manually with Ctrl+V.")))
  | OnTimeout =>
      run killProcess "powershell.exe" then
      ret (Rejected (error
        "Paste operation timed out. Text is copied to clipboard - please paste manually with Ctrl+V."))
  end.

(** What the same callback does for a call whose promise no longer
    counts, because the promise it was chained to has been settled [lag] ms
    earlier: its [resolve] or [reject] changes nothing, but a 'close' with
    exit code 0 still sets the restoration timer, and the timeout still kills
    the child. The world has fixed what this child does when it was started,
    so its callback is entered into the state when the other call settles:
    the timer with the due time it will have, [lag] ms plus the restoration
    delay from then, and the kill in the trace. *)
Definition powershellLaggard (originalClipboard : string) (lag : N) (ev : Raced) : M unit :=
  let restoreDelay := RESTORE_DELAYS_win32_pwsh in
  match ev with
  | OnClose code _ =>
      if is_zero code then setTimeout_writeText originalClipboard (lag + restoreDelay)
      else ret tt
  | OnError _ => ret tt
  | OnTimeout => killProcess "powershell.exe"
  end.

(** The end of two [pasteWithPowerShell] calls whose children have been
    raced: [d] ms from now the callback for [ev] settles the promise that both
    calls are chained to, and the callback of the other call, which runs
    [lag] ms after that, is a laggard. *)
Definition settleWith (originalClipboard : string) (d : N) (ev : Raced) (lag : N)
  (laggard : Raced) : M Settled :=
  run sleep d then
  let* r := powershellCallback originalClipboard ev in
  run powershellLaggard originalClipboard lag laggard then
  ret r.

(** Two [pasteWithPowerShell] calls made one after the other in the same
    turn of the event loop, both chained to one promise with
    [.then(resolve).catch(reject)]: their pre-delay timers fall due together
    and are served in the order in which they were set, so the child of the
    first call is started first and the child of the second right after it.
    The two children are two processes and each ends in its own way. The
    promise takes the settlement of the call whose child is raced first (of
    the first call when both are raced at the same moment), and the caller
    goes on from there. *)
Definition pasteWithPowerShell_twice (originalClipboard : string) : M Settled :=
  let pasteDelay := PASTE_DELAYS_win32_pwsh in
  run sleep pasteDelay then
  let* pasteProcess := run_spawn "powershell.exe" powershell_args in
  let* pasteProcess' := run_spawnAgain "powershell.exe" powershell_args in
  let '(d, ev) := race pasteProcess 5000 in
  let '(d', ev') := race pasteProcess' 5000 in
  if d <=? d' then settleWith originalClipboard d ev (d' - d) ev'
  else settleWith originalClipboard d' ev' (d - d') ev.

(** The 'error' handler of [pasteWithNircmd] starts the PowerShell
    mechanism and leaves the listeners in place, so the 'close' handler that
    runs after it (not timed out, code not 0) starts it a second time. *)
Definition pasteWithNircmd (nircmdPath originalClipboard : string) : M Settled :=
  let pasteDelay := PASTE_DELAYS_win32_nircmd in
  let restoreDelay := RESTORE_DELAYS_win32_nircmd in
  run sleep pasteDelay then
  let* pasteProcess := run_spawn nircmdPath ["sendkeypress"; "ctrl+v"] in
  let '(d, ev) := race pasteProcess 2000 in
  run sleep d then
  match ev with
  | OnClose code _ =>
      if is_zero code then
        run setTimeout_writeText originalClipboard restoreDelay then
        ret Resolved
      else pasteWithPowerShell originalClipboard
  | OnError _ => pasteWithPowerShell_twice originalClipboard
  | OnTimeout =>
      run killProcess nircmdPath then
      pasteWithPowerShell originalClipboard
  end.

Definition pasteWindows (originalClipboard : string) : M Settled :=
  let* nircmdPath := getNircmdPath in
  match nircmdPath with
  | Some nircmdPath => pasteWithNircmd nircmdPath originalClipboard
  | None => pasteWithPowerShell originalClipboard
  end.

(** *** Linux: the focused-window classifier *)

(** [getXdotoolWindowClass], a closure of [pasteLinux] over
    [xdotoolExists] and the session. *)
Definition getXdotoolWindowClass (xdotoolExists : bool) (sess : SessionInfo)
  : M (option string) :=
  if negb xdotoolExists || (isWayland sess && negb (xwaylandAvailable sess)) then ret None
  else
    let* result := run_spawnSync "xdotool" ["getactivewindow"; "getwindowclassname"] in
    match result with
    | SyncReturns _ status stdout =>
        if negb (is_zero status) then ret None
        else
          let className := trim (toLowerCase stdout) in
          ret (if truthy className then Some className else None)
    | SyncThrows _ => ret None
    end.

Definition terminalClasses : list string :=
  ["konsole"; "gnome-terminal"; "terminal"; "kitty"; "alacritty"; "terminator";
   "xterm"; "urxvt"; "rxvt"; "tilix"; "terminology"; "wezterm"; "foot"; "st"; "yakuake"].

(** [terminalClasses.some((term) => className.includes(term))]. *)
Definition isTerminalWindow (className : string) : bool :=
  existsb (fun term => includes className term) terminalClasses.

(** The [try] block of [isTerminal]: the two-step kdotool query. An
    exception anywhere in it is swallowed and the answer is [false]. *)
Definition kdotoolIsTerminal : M bool :=
  let* kdotoolExists := commandExists "kdotool" in
  if kdotoolExists then
    let* windowIdResult := run_spawnSync "kdotool" ["getactivewindow"] in
    match windowIdResult with
    | SyncReturns _ status stdout =>
        if is_zero status then
          let windowId := trim stdout in
          let* classResult := run_spawnSync "kdotool" ["getwindowclassname"; windowId] in
          match classResult with
          | SyncReturns _ status' stdout' =>
              if is_zero status' then
                let className := trim (toLowerCase stdout') in
                ret (isTerminalWindow className)
              else ret false
          | SyncThrows _ => ret false
          end
        else ret false
    | SyncThrows _ => ret false
    end
  else ret false.

(** [isTerminal], a closure of [pasteLinux] over [xdotoolWindowClass]. *)
Definition isTerminal (xdotoolWindowClass : option string) : M bool :=
  match xdotoolWindowClass with
  | Some className =>
      if truthy className then ret (isTerminalWindow className) else kdotoolIsTerminal
  | None => kdotoolIsTerminal
  end.

(** *** Linux: candidates and execution *)

Record Tool := { cmd : string; args : list string }.

Definition candidates (canUseWtype canUseXdotool inTerminal : bool) (pasteKeys : string)
  : list Tool :=
  (if canUseWtype then
     [if inTerminal
      then {| cmd := "wtype";
              args := ["-M"; "ctrl"; "-M"; "shift"; "-k"; "v"; "-m"; "shift"; "-m"; "ctrl"] |}
      else {| cmd := "wtype"; args := ["-M"; "ctrl"; "-k"; "v"; "-m"; "ctrl"] |}]
   else [])
  ++ (if canUseXdotool then [{| cmd := "xdotool"; args := ["key"; pasteKeys] |}] else []).

(** [candidates.filter((c) => this.commandExists(c.cmd))]. *)
Fixpoint filterAvailable (l : list Tool) : M (list Tool) :=
  match l with
  | [] => ret []
  | c :: l' =>
      let* keep := commandExists (cmd c) in
      let* rest := filterAvailable l' in
      ret (if keep then c :: rest else rest)
  end.

(** [pasteWith], a closure of [pasteLinux] over [originalClipboard]. The
    timeout callback only kills the child; the promise is rejected by the
    'close' handler that runs once the killed child has gone. After an
    'error' the 'close' handler rejects a promise that is already rejected. *)
Definition pasteWith (originalClipboard : string) (tool : Tool) : M Settled :=
  let* proc := run_spawn (cmd tool) (args tool) in
  let '(d, ev) := race proc 1000 in
  run sleep d then
  match ev with
  | OnClose code _ =>
      if is_zero code then
        run setTimeout_writeText originalClipboard 200 then
        ret Resolved
      else ret (Rejected (error (cmd tool +:+ " exited with code " +:+ show_code code)))
  | OnError msg => ret (Rejected (error msg))
  | OnTimeout =>
      run killProcess (cmd tool) then
      run sleep (killLatency w) then
      ret (Rejected (error ("Paste with " +:+ cmd tool +:+ " timed out after 1 second")))
  end.

(** The [for] loop of [pasteLinux]: [true] when one tool succeeded. *)
Fixpoint tryTools (originalClipboard : string) (available : list Tool) : M bool :=
  match available with
  | [] => ret false
  | tool :: rest =>
      let* r := pasteWith originalClipboard tool in
      match r with
      | Resolved => ret true
      | _ => tryTools originalClipboard rest
      end
  end.

(** The message built when every tool has failed. *)
Definition linuxErrorMsg (sess : SessionInfo) (xdotoolExists wtypeExists : bool)
  (xdotoolWindowClass : option string) : string :=
  if isWayland sess then
    if isGnome sess then
      if negb (xwaylandAvailable sess) then
        "Clipboard copied, but GNOME Wayland blocks automatic pasting. Please paste manually with Ctrl+V."
      else if negb xdotoolExists then
        "Clipboard copied, but automatic pasting on GNOME Wayland requires xdotool for XWayland apps. Please install xdotool or paste manually with Ctrl+V."
      else if negb (truthy_opt xdotoolWindowClass) then
        "Clipboard copied, but the active app isn't running under XWayland. Please paste manually with Ctrl+V."
      else
        "Clipboard copied, but paste simulation failed via XWayland. Please paste manually with Ctrl+V."
    else if negb wtypeExists then
      if negb (xwaylandAvailable sess) then
        "Clipboard copied, but automatic pasting on Wayland requires wtype. Please install wtype or paste manually with Ctrl+V."
      else if negb xdotoolExists then
        "Clipboard copied, but automatic pasting on Wayland requires wtype (Wayland apps) or xdotool (XWayland apps). Please install one or paste manually with Ctrl+V."
      else if negb (truthy_opt xdotoolWindowClass) then
        "Clipboard copied, but the active app isn't running under XWayland. Please install wtype for Wayland apps or paste manually with Ctrl+V."
      else
        "Clipboard copied, but paste simulation failed via XWayland. Please paste manually with Ctrl+V."
    else
      let xwaylandNote :=
        if xwaylandAvailable sess && xdotoolExists
        then " If this is an XWayland app, xdotool can also be used."
        else "" in
      "Clipboard copied, but paste simulation failed on Wayland. Ensure your compositor supports the virtual keyboard protocol or paste manually with Ctrl+V."
      +:+ xwaylandNote
  else
    "Clipboard copied, but paste simulation failed on X11. Please install xdotool or paste manually with Ctrl+V.".

(** What [pasteLinux] has worked out when it starts trying tools. *)
Record LinuxPlan := {
  plan_session : SessionInfo;
  plan_xdotoolExists : bool;
  plan_wtypeExists : bool;
  plan_xdotoolWindowClass : option string;
  plan_inTerminal : bool;
  plan_pasteKeys : string;
  plan_candidates : list Tool;
  plan_available : list Tool;
}.

(** [pasteLinux] up to the [for] loop. *)
Definition planLinux : M LinuxPlan :=
  let sess := getLinuxSessionInfo in
  let* xdotoolExists := commandExists "xdotool" in
  let* wtypeExists := commandExists "wtype" in
  let* xdotoolWindowClass := getXdotoolWindowClass xdotoolExists sess in
  let* inTerminal := isTerminal xdotoolWindowClass in
  let pasteKeys := if inTerminal then "ctrl+shift+v" else "ctrl+v" in
  let canUseWtype := isWayland sess && negb (isGnome sess) in
  let canUseXdotool :=
    if isWayland sess then truthy_opt xdotoolWindowClass else xdotoolExists in
  let cands := candidates canUseWtype canUseXdotool inTerminal pasteKeys in
  let* available := filterAvailable cands in
  ret {| plan_session := sess; plan_xdotoolExists := xdotoolExists;
         plan_wtypeExists := wtypeExists;
         plan_xdotoolWindowClass := xdotoolWindowClass;
         plan_inTerminal := inTerminal; plan_pasteKeys := pasteKeys;
         plan_candidates := cands; plan_available := available |}.

Definition pasteLinux (originalClipboard : string) : M Settled :=
  let* plan := planLinux in
  let* pasted := tryTools originalClipboard (plan_available plan) in
  if pasted then ret Resolved
  else
    ret (Rejected
           {| message := linuxErrorMsg (plan_session plan) (plan_xdotoolExists plan)
                           (plan_wtypeExists plan) (plan_xdotoolWindowClass plan);
              code := Some "PASTE_SIMULATION_FAILED" |}).

(** *** pasteText *)

(** The end of [pasteText]: the [safeLog] call of the success path, or of
    the [catch] that logs and rethrows ([safeLog] prints in development mode
    only; the trace records the call). [method] is the local variable of that
    name. *)
Definition finish (method : string) (r : Settled) : M Settled :=
  match r with
  | Resolved =>
      run emit (EvPasteLog true (platform_name (platform w)) method) then ret Resolved
  | Rejected e =>
      run emit (EvPasteLog false (platform_name (platform w)) method) then ret (Rejected e)
  | Pending => ret Pending
  end.

Definition pasteText (text : string) : M Settled :=
  let* originalClipboard := readText in
  run writeText text then
  match platform w with
  | Darwin =>
      let method := "applescript" in
      let* hasPermissions := checkAccessibilityPermissions in
      match hasPermissions with
      | None => ret Pending
      | Some false =>
          finish method (Rejected (error
            "Accessibility permissions required for automatic pasting. Text has been copied to clipboard - please paste manually with Cmd+V."))
      | Some true =>
          let* r := pasteMacOS originalClipboard in
          finish method r
      end
  | Win32 =>
      let* nircmdPath := getNircmdPath in
      let method := match nircmdPath with Some _ => "nircmd" | None => "powershell" end in
      let* r := pasteWindows originalClipboard in
      finish method r
  | Linux =>
      let method := "linux-tools" in
      let* r := pasteLinux originalClipboard in
      finish method r
  end.

(** *** checkPasteTools *)

Record PasteTools := {
  pt_platform : string;
  pt_available : bool;
  pt_method : option string;
  pt_requiresPermission : bool;
  pt_isWayland : option bool;
  pt_xwaylandAvailable : option bool;
  pt_tools : list string;
  pt_recommendedInstall : option string;
}.

(** The Linux answer of [checkPasteTools], once the two lookups are
    done. *)
Definition linuxPasteTools (sess : SessionInfo) (hasWtype hasXdotool : bool) : PasteTools :=
  let tools :=
    (if hasWtype then ["wtype"] else []) ++ (if hasXdotool then ["xdotool"] else []) in
  let available := negb (Nat.eqb (length tools) 0) in
  let recommendedInstall :=
    if negb available then
      if negb (isWayland sess) then Some "xdotool"
      else if isGnome sess then
        (if xwaylandAvailable sess then Some "xdotool" else None)
      else Some "wtype"
    else None in
  {| pt_platform := "linux"; pt_available := available;
     pt_method := if available then head tools else None;
     pt_requiresPermission := false;
     pt_isWayland := Some (isWayland sess);
     pt_xwaylandAvailable := Some (xwaylandAvailable sess);
     pt_tools := tools; pt_recommendedInstall := recommendedInstall |}.

Definition checkPasteTools : M PasteTools :=
  match platform w with
  | Darwin =>
      ret {| pt_platform := "darwin"; pt_available := true; pt_method := Some "applescript";
             pt_requiresPermission := true; pt_isWayland := None;
             pt_xwaylandAvailable := None; pt_tools := []; pt_recommendedInstall := None |}
  | Win32 =>
      ret {| pt_platform := "win32"; pt_available := true; pt_method := Some "powershell";
             pt_requiresPermission := false; pt_isWayland := None;
             pt_xwaylandAvailable := None; pt_tools := []; pt_recommendedInstall := None |}
  | Linux =>
      let sess := getLinuxSessionInfo in
      let canUseWtype := isWayland sess && negb (isGnome sess) in
      let canUseXdotool := negb (isWayland sess) || xwaylandAvailable sess in
      let* hasWtype := (if canUseWtype then commandExists "wtype" else ret false) in
      let* hasXdotool := (if canUseXdotool then commandExists "xdotool" else ret false) in
      ret (linuxPasteTools sess hasWtype hasXdotool)
  end.

(** The tool names that [checkPasteTools] looks up on this machine. *)
Definition consulted : list string :=
  match platform w with
  | Linux =>
      let sess := getLinuxSessionInfo in
      (if isWayland sess && negb (isGnome sess) then ["wtype"] else [])
      ++ (if negb (isWayland sess) || xwaylandAvailable sess then ["xdotool"] else [])
  | _ => []
  end.

(** The answer of the shell lookup for [cmd] at time [t]. *)
Definition lookupAnswer (cmd : string) (t : N) : bool :=
  match spawnSync w t "sh" ["-c"; "command -v " +:+ cmd] with
  | SyncReturns _ status _ => is_zero status
  | SyncThrows _ => false
  end.

End Engine.

(** ** Observations on traces and states *)

Definition is_write (e : Event) : bool :=
  match e with
  | EvWriteText _ => true
  | _ => false
  end.

(** The trace without the clipboard writes: children started and killed,
    dialogs opened, paste reports. *)
Definition effects (tr : list Event) : list Event :=
  List.filter (fun e => negb (is_write e)) tr.

(** The children started with [spawn], in order. *)
Fixpoint spawned (tr : list Event) : list (string * list string) :=
  match tr with
  | [] => []
  | EvSpawn c a :: tr' => (c, a) :: spawned tr'
  | _ :: tr' => spawned tr'
  end.

(** [calm s s']: from [s] to [s'] the clipboard kept its content, the clock
    did not go back, and the trace grew by events that are not clipboard
    writes. *)
Definition calm (s s' : State) : Prop :=
  clipboard s' = clipboard s /\ now s <= now s' /\
  exists rest, trace s' = trace s ++ rest /\ effects rest = rest.

(** [quiet s s']: calm, and no timer was set or run. *)
Definition quiet (s s' : State) : Prop := calm s s' /\ timers s' = timers s.

(** What a delivery mechanism with one child, started with no timer
    pending, leaves behind: a calm run, and one restoration timer [delay] ms
    after the end and nothing else when it resolved, no timer when it
    rejected. *)
Definition delivered (delay : N) (originalClipboard : string) (s : State)
  (r : Settled * State) : Prop :=
  calm s (snd r) /\
  match fst r with
  | Resolved =>
      timers (snd r) = [{| due := now (snd r) + delay; restoreText := originalClipboard |}]
  | Rejected _ => timers (snd r) = []
  | Pending => False
  end.

(** The restorations a laggard may have left: at most one timer, which
    writes the original content and is due no earlier than [delay] ms after
    [t]. *)
Definition laggards (delay : N) (originalClipboard : string) (t : N) (ts : list Timer) : Prop :=
  (length ts <= 1)%nat /\
  Forall (fun tm => restoreText tm = originalClipboard /\ t + delay <= due tm) ts.

(** [delivered] where a second child may still be running when the
    mechanism settles: the restoration timer of the child that settled it
    comes first when it resolved, and what a laggard may add comes after. *)
Definition delivered_lagging (delay : N) (originalClipboard : string) (s : State)
  (r : Settled * State) : Prop :=
  calm s (snd r) /\
  match fst r with
  | Resolved =>
      exists late,
        timers (snd r)
        = {| due := now (snd r) + delay; restoreText := originalClipboard |} :: late /\
        laggards delay originalClipboard (now (snd r)) late
  | Rejected _ => laggards delay originalClipboard (now (snd r)) (timers (snd r))
  | Pending => False
  end.

(** [unscheduled s s']: from [s] to [s'] the trace only grew, and every
    timer pending in [s'] was already pending in [s]: timers may have run,
    none was set. *)
Definition unscheduled (s s' : State) : Prop :=
  (exists rest, trace s' = trace s ++ rest) /\
  (exists fired, timers s = fired ++ timers s').

(** What a delivery mechanism leaves behind whatever was pending when it
    started: a restoration timer [delay] ms after the end when it resolved,
    no new timer when it rejected. *)
Definition settles (delay : N) (originalClipboard : string) (s : State)
  (r : Settled * State) : Prop :=
  match fst r with
  | Resolved =>
      In {| due := now (snd r) + delay; restoreText := originalClipboard |} (timers (snd r))
  | Rejected _ => unscheduled s (snd r)
  | Pending => False
  end.

(** [settles] without its promise about rejections, which a laggard can
    break. *)
Definition settles_lagging (delay : N) (originalClipboard : string)
  (r : Settled * State) : Prop :=
  match fst r with
  | Resolved =>
      In {| due := now (snd r) + delay; restoreText := originalClipboard |} (timers (snd r))
  | Rejected _ => True
  | Pending => False
  end.

(** The post-restore delay of the mechanisms of a platform. *)
Definition restoreDelay (p : Platform) : N :=
  match p with
  | Darwin => 100
  | Win32 => 80
  | Linux => 200
  end.

(** The state right after the clipboard write that opens [pasteText];
    the rest of the call is a delivery from there. *)
Definition afterWrite (text : string) (s : State) : State :=
  set_trace (trace s ++ [EvWriteText text]) (set_clipboard text s).

(** Where nircmd.exe is on this machine, if anywhere: the first of the
    three locations that exists, on Windows. *)
Definition resolveNircmd (w : World) : option string :=
  match platform w with
  | Win32 => List.find (existsSync w) (possiblePaths w)
  | _ => None
  end.

(** The memo of [getNircmdPath] is in step with the machine: nothing is
    stored before the first check, and what is stored after it is what the
    check found. The constructor establishes this and the methods keep it
    ([memo_ok_new], [memo_ok_getNircmdPath], [memo_ok_pasteText],
    [memo_ok_checkPasteTools]). *)
Definition memo_ok (w : World) (s : State) : Prop :=
  nircmdPath s = if nircmdChecked s then resolveNircmd w else None.

(** From [s] to [s'] the memo was left alone. *)
Definition same_memo (s s' : State) : Prop :=
  nircmdPath s' = nircmdPath s /\ nircmdChecked s' = nircmdChecked s.

(** nircmd did not do its job: the child did not close with exit code 0
    within the 2 s it is given. *)
Definition nircmd_failed (b : ChildBehaviour) : Prop :=
  match b with
  | Closes d code _ => 2000 <= d \/ is_zero code = false
  | Errors _ _ _ => True
  | Hangs => True
  end.

(** How many PowerShell calls a failing nircmd child sets off: one from
    the handler of its 'close' or from its timeout, two when it could not be
    started ('error', then 'close'). *)
Definition powershellCalls (b : ChildBehaviour) : nat :=
  match b with
  | Errors d _ _ => if d <? 2000 then 2%nat else 1%nat
  | _ => 1%nat
  end.

(** The machine as the second of two children started together finds
    it. *)
Definition again (w : World) : World :=
  {| platform := platform w; env := env w; possiblePaths := possiblePaths w;
     existsSync := existsSync w; spawnSync := spawnSync w;
     spawn := spawnAgain w; spawnAgain := spawnAgain w; killLatency := killLatency w |}.

(** The machine that decides how the PowerShell mechanism ends after a
    nircmd child that did [b]: the machine itself, unless nircmd could not be
    started and, of the two PowerShell children started at [t], the second is
    raced before the first. *)
Definition decisive (w : World) (b : ChildBehaviour) (t : N) : World :=
  if (powershellCalls b =? 2)%nat
     && (fst (race (spawnAgain w t "powershell.exe" powershell_args) 5000)
         <? fst (race (spawn w t "powershell.exe" powershell_args) 5000))
  then again w else w.

(** A [pasteText] call made from [s] makes no second PowerShell call: the
    machine is not a Windows machine, or the memo of the nircmd path is in
    step with it and either nircmd.exe is not found or the nircmd child
    started 30 ms into the call does something else than fail to start. *)
Definition started_once (w : World) (s : State) : Prop :=
  platform w = Win32 ->
  memo_ok w s /\
  forall p, resolveNircmd w = Some p ->
    powershellCalls (spawn w (now s + 30) p ["sendkeypress"; "ctrl+v"]) = 1%nat.


(** The xdotool probe of [getXdotoolWindowClass] fails: the tool is
    missing, or the query throws or does not exit with status 0. *)
Definition xdotool_probe_fails (w : World) (xdotoolExists : bool) (s : State) : Prop :=
  xdotoolExists = false \/
  match spawnSync w (now s) "xdotool" ["getactivewindow"; "getwindowclassname"] with
  | SyncReturns _ status _ => is_zero status = false
  | SyncThrows _ => True
  end.

(** The reading of the spec under which every probe failure classifies the
    focused window as not a terminal. *)
Definition probe_failure_classifies_false
  (w : World) (xdotoolExists : bool) (sess : SessionInfo) (s : State) : Prop :=
  xdotool_probe_fails w xdotoolExists s ->
  fst (isTerminal w (fst (getXdotoolWindowClass w xdotoolExists sess s))
         (snd (getXdotoolWindowClass w xdotoolExists sess s))) = false.

(** No entry of the registry occurs in the class name. *)
Definition no_terminal_entry (className : string) : bool :=
  forallb (fun term => negb (includes className term)) terminalClasses.

(** The number of remediation dialogs opened. *)
Fixpoint dialogs (tr : list Event) : nat :=
  match tr with
  | [] => 0%nat
  | EvDialog _ :: tr' => S (dialogs tr')
  | _ :: tr' => dialogs tr'
  end.

(** [checkAccessibilityPermissions] will probe: nothing is cached, or what
    is cached has expired. *)
Definition permission_stale (s : State) : Prop :=
  value (accessibilityCache s) = None \/ permExpiresAt (accessibilityCache s) <= now s.

(** *** Rejections that say what to do *)

(** The chord for pasting by hand that the messages of a platform name. *)
Definition manualChord (p : Platform) : string :=
  match p with
  | Darwin => "Cmd+V"
  | _ => "Ctrl+V"
  end.

(** A rejection that tells the user to paste by hand with [chord] and
    carries no error code. *)
Definition polite (chord : string) (r : Settled) : Prop :=
  match r with
  | Rejected e => includes (message e) ("paste manually with " +:+ chord) = true /\ code e = None
  | _ => True
  end.

(** *** Linux tools *)



(** The cache says that [name] is installed. *)
Definition cached_found (s : State) (name : string) : Prop :=
  exists e, commandAvailabilityCache s !! name = Some e /\ exists_ e = true.

(** *** The caches over time *)

(** [ages s s']: from [s] to [s'] the clock did not go back and the two
    caches were left alone. *)
Definition ages (s s' : State) : Prop :=
  now s <= now s' /\
  commandAvailabilityCache s' = commandAvailabilityCache s /\
  accessibilityCache s' = accessibilityCache s.

(** A step that only lets time pass as far as the caches are concerned. *)
Definition steady {A} (m : M A) : Prop := forall s, ages s (snd (m s)).

(** A step that keeps an invariant of the state. *)
Definition preserves {A} (I : State -> Prop) (m : M A) : Prop :=
  forall s, I s -> I (snd (m s)).

(** No cached answer is good for longer than the time to live: every
    entry of the tool cache, and the permission entry, expires at most 30 s
    after the present moment. *)
Definition caches_fresh (s : State) : Prop :=
  (forall name e, commandAvailabilityCache s !! name = Some e ->
     expiresAt e <= now s + CACHE_TTL_MS) /\
  permExpiresAt (accessibilityCache s) <= now s + CACHE_TTL_MS.

(** A machine on which the set of installed commands does not change. *)
Definition stable (w : World) (installed : string -> bool) : Prop :=
  forall t name, lookupAnswer w name t = installed name.

(** Every cached answer is the answer of the machine. *)
Definition cache_sound (installed : string -> bool) (s : State) : Prop :=
  forall name e, commandAvailabilityCache s !! name = Some e -> exists_ e = installed name.

(** *** Separators *)

(** The character [c] does not occur in [s]. *)
Fixpoint lacks (c : ascii) (s : string) : bool :=
  match s with
  | EmptyString => true
  | String x s' => negb (Ascii.eqb x c) && lacks c s'
  end.

(** ** Machines to run the class on *)

Module Scenario.

Definition noEnv : Env :=
  {| XDG_SESSION_TYPE := None; WAYLAND_DISPLAY := None; DISPLAY := None;
     XDG_CURRENT_DESKTOP := None; XDG_SESSION_DESKTOP := None; DESKTOP_SESSION := None |}.

(** The shell lookup of [commandExists] on a machine where exactly the
    commands of [installed] are on the path. *)
Definition lookup (installed : list string) (args : list string) : SyncResult :=
  match args with
  | [_; script] =>
      if existsb (fun c => String.eqb script ("command -v " +:+ c)) installed
      then SyncReturns 4 (Some 0%Z) ""
      else SyncReturns 4 (Some 1%Z) ""
  | _ => SyncReturns 4 (Some 2%Z) ""
  end.

(** An X11 desktop with xdotool installed; the focused window has class
    [windowClass] and xdotool's key injection ends as [key]. *)
Definition linuxX11 (windowClass : string) (key : ChildBehaviour) : World :=
  {| platform := Linux;
     env := {| XDG_SESSION_TYPE := Some "x11"; WAYLAND_DISPLAY := None; DISPLAY := Some ":0";
               XDG_CURRENT_DESKTOP := Some "KDE"; XDG_SESSION_DESKTOP := None;
               DESKTOP_SESSION := None |};
     possiblePaths := [];
     existsSync := fun _ => false;
     spawnSync := fun _ c a =>
       if String.eqb c "sh" then lookup ["xdotool"] a
       else if String.eqb c "xdotool" then SyncReturns 7 (Some 0%Z) windowClass
       else SyncReturns 1 None "";
     spawn := fun _ c _ => if String.eqb c "xdotool" then key else Errors 1 2 "spawn ENOENT";
     spawnAgain := fun _ c _ => if String.eqb c "xdotool" then key else Errors 1 2 "spawn ENOENT";
     killLatency := 3 |}.

(** A GNOME Wayland session without a bridge display; wtype is installed,
    xdotool is not. *)
Definition gnomeWayland : World :=
  {| platform := Linux;
     env := {| XDG_SESSION_TYPE := Some "wayland"; WAYLAND_DISPLAY := Some "wayland-0";
               DISPLAY := None; XDG_CURRENT_DESKTOP := Some "ubuntu:GNOME";
               XDG_SESSION_DESKTOP := Some "ubuntu"; DESKTOP_SESSION := Some "ubuntu" |};
     possiblePaths := [];
     existsSync := fun _ => false;
     spawnSync := fun _ c a =>
       if String.eqb c "sh" then lookup ["wtype"] a else SyncReturns 1 None "";
     spawn := fun _ c _ =>
       if String.eqb c "wtype" then Closes 10 (Some 0%Z) "" else Errors 1 2 "spawn ENOENT";
     spawnAgain := fun _ c _ =>
       if String.eqb c "wtype" then Closes 10 (Some 0%Z) "" else Errors 1 2 "spawn ENOENT";
     killLatency := 3 |}.

(** A KDE Wayland session without a bridge display where kdotool is
    installed and reports the class [windowClass]; wtype ends as [key]. *)
Definition kdeWayland (windowClass : string) (key : ChildBehaviour) : World :=
  {| platform := Linux;
     env := {| XDG_SESSION_TYPE := Some "wayland"; WAYLAND_DISPLAY := Some "wayland-0";
               DISPLAY := None; XDG_CURRENT_DESKTOP := Some "KDE";
               XDG_SESSION_DESKTOP := None; DESKTOP_SESSION := None |};
     possiblePaths := [];
     existsSync := fun _ => false;
     spawnSync := fun _ c a =>
       if String.eqb c "sh" then lookup ["wtype"; "kdotool"] a
       else if String.eqb c "kdotool" then
         match a with
         | [_] => SyncReturns 6 (Some 0%Z) "{7f3a}"
         | _ => SyncReturns 6 (Some 0%Z) windowClass
         end
       else SyncReturns 1 None "";
     spawn := fun _ c _ => if String.eqb c "wtype" then key else Errors 1 2 "spawn ENOENT";
     spawnAgain := fun _ c _ => if String.eqb c "wtype" then key else Errors 1 2 "spawn ENOENT";
     killLatency := 3 |}.

(** A KDE Wayland session with a bridge display where the focused window
    is a native Wayland window: xdotool is installed but finds no active X11
    window and exits with status 1; kdotool reports the class
    [windowClass]. *)
Definition kdeXwayland (windowClass : string) : World :=
  {| platform := Linux;
     env := {| XDG_SESSION_TYPE := Some "wayland"; WAYLAND_DISPLAY := Some "wayland-0";
               DISPLAY := Some ":1"; XDG_CURRENT_DESKTOP := Some "KDE";
               XDG_SESSION_DESKTOP := None; DESKTOP_SESSION := None |};
     possiblePaths := [];
     existsSync := fun _ => false;
     spawnSync := fun _ c a =>
       if String.eqb c "sh" then lookup ["xdotool"; "wtype"; "kdotool"] a
       else if String.eqb c "xdotool" then SyncReturns 7 (Some 1%Z) ""
       else if String.eqb c "kdotool" then
         match a with
         | [_] => SyncReturns 6 (Some 0%Z) "{7f3a}"
         | _ => SyncReturns 6 (Some 0%Z) windowClass
         end
       else SyncReturns 1 None "";
     spawn := fun _ c _ =>
       if String.eqb c "wtype" then Closes 10 (Some 0%Z) "" else Errors 1 2 "spawn ENOENT";
     spawnAgain := fun _ c _ =>
       if String.eqb c "wtype" then Closes 10 (Some 0%Z) "" else Errors 1 2 "spawn ENOENT";
     killLatency := 3 |}.

(** A Windows machine; nircmd.exe is in the resources directory or not,
    and the two mechanisms end as given. *)
Definition windows (nircmdOnDisk : bool) (nircmd powershell : ChildBehaviour) : World :=
  {| platform := Win32;
     env := noEnv;
     possiblePaths := ["C:/app/resources/bin/nircmd.exe"; "C:/src/resources/bin/nircmd.exe";
                       "C:/cwd/resources/bin/nircmd.exe"];
     existsSync := fun p => nircmdOnDisk && String.eqb p "C:/app/resources/bin/nircmd.exe";
     spawnSync := fun _ _ _ => SyncReturns 1 None "";
     spawn := fun _ c _ => if String.eqb c "powershell.exe" then powershell else nircmd;
     spawnAgain := fun _ c _ => if String.eqb c "powershell.exe" then powershell else nircmd;
     killLatency := 3 |}.

(** A Windows machine where nircmd.exe is in the resources directory but
    cannot be started, and the two PowerShell children that are then started
    end as given, each in its own way. *)
Definition windowsUnstartable (first second : ChildBehaviour) : World :=
  {| platform := Win32;
     env := noEnv;
     possiblePaths := ["C:/app/resources/bin/nircmd.exe"; "C:/src/resources/bin/nircmd.exe";
                       "C:/cwd/resources/bin/nircmd.exe"];
     existsSync := fun p => String.eqb p "C:/app/resources/bin/nircmd.exe";
     spawnSync := fun _ _ _ => SyncReturns 1 None "";
     spawn := fun _ c _ =>
       if String.eqb c "powershell.exe" then first else Errors 2 13 "spawn EACCES";
     spawnAgain := fun _ c _ =>
       if String.eqb c "powershell.exe" then second else Errors 2 13 "spawn EACCES";
     killLatency := 3 |}.

(** A Mac; the permission probe and the keystroke script end as given. *)
Definition mac (probe keystroke : ChildBehaviour) : World :=
  {| platform := Darwin;
     env := noEnv;
     possiblePaths := [];
     existsSync := fun _ => false;
     spawnSync := fun _ _ _ => SyncReturns 1 None "";
     spawn := fun _ _ a =>
       match a with
       | [_; script] => if String.eqb script permission_script then probe else keystroke
       | _ => Errors 1 2 "spawn ENOENT"
       end;
     spawnAgain := fun _ _ a =>
       match a with
       | [_; script] => if String.eqb script permission_script then probe else keystroke
       | _ => Errors 1 2 "spawn ENOENT"
       end;
     killLatency := 3 |}.

(** A fresh manager at time 1000 whose clipboard holds the user's own
    text. *)
Definition fresh : State := newClipboardManager 1000 "user data".

End Scenario.

(** ** The model manager

    The [ModelManager] class of the first half of
    [src/helpers/modelManagerBridge.js]: the registry of local models, the
    prompt template, and the download and removal of model files. The file
    system is a map from paths to file sizes, the only thing the class asks
    of a file. Methods are run one at a time; what goes on while a transfer
    is in flight (progress reports, a cancellation) is part of what
    [downloadFile] does to the state. *)

Module ModelManager.

Definition MIN_FILE_SIZE : N := 1000000.

(** An entry of a provider's [models] in modelRegistryData.json, with the
    fields that the class reads. *)
Record Model := {
  id : string;
  fileName : string;
  hfRepo : string;
  contextLength : N;
}.

(** An entry of [localProviders]; [None] is a field that is not there. *)
Record Provider := {
  provider_id : string;
  name : string;
  baseUrl : option string;
  promptTemplate : option string;
  models : list Model;
}.

(** [new ModelError(message, code)] *)
Definition ModelError (message code : string) : JsError :=
  {| message := message; code := Some code |}.

Definition ModelNotFoundError (modelId : string) : JsError :=
  ModelError ("Model " +:+ modelId +:+ " not found") "MODEL_NOT_FOUND".

(** *** String.prototype.replace with a string pattern *)

Fixpoint drop (n : nat) (s : string) : string :=
  match n, s with
  | O, _ => s
  | S n', String _ s' => drop n' s'
  | S _, EmptyString => EmptyString
  end.

(** What is before and after the first occurrence of [pattern] in [s]. *)
Fixpoint splitFirst (s pattern : string) : option (string * string) :=
  if startsWith s pattern then Some (EmptyString, drop (String.length pattern) s)
  else
    match s with
    | EmptyString => None
    | String c s' =>
        match splitFirst s' pattern with
        | Some (before, after) => Some (String c before, after)
        | None => None
        end
    end.

(** GetSubstitution for a match without captures: [$$] is a dollar sign,
    [$&] the matched text, [$`] what is before the match and [$'] what is
    after it; any other dollar sign stands for itself. *)
Fixpoint expand (replacement matched before after : string) : string :=
  match replacement with
  | EmptyString => EmptyString
  | String c rest =>
      if Ascii.eqb c "$" then
        match rest with
        | String x rest' =>
            if Ascii.eqb x "$" then String "$" (expand rest' matched before after)
            else if Ascii.eqb x "&" then matched +:+ expand rest' matched before after
            else if Ascii.eqb x "`" then before +:+ expand rest' matched before after
            else if Ascii.eqb x "'" then after +:+ expand rest' matched before after
            else String c (expand rest matched before after)
        | EmptyString => String c EmptyString
        end
      else String c (expand rest matched before after)
  end.

Definition replace (s pattern replacement : string) : string :=
  match splitFirst s pattern with
  | Some (before, after) => before +:+ expand replacement pattern before after +:+ after
  | None => s
  end.

Definition formatPrompt (provider : Provider) (text systemPrompt : string) : string :=
  match promptTemplate provider with
  | Some template =>
      if truthy template
      then replace (replace template "{system}" systemPrompt) "{user}" text
      else systemPrompt +:+ "
" +:+ "
" +:+ text
  | None => systemPrompt +:+ "
" +:+ "
" +:+ text
  end.

Definition getDownloadUrl (provider : Provider) (model : Model) : string :=
  let baseUrl :=
    match baseUrl provider with
    | Some u => if truthy u then u else "https://huggingface.co"
    | None => "https://huggingface.co"
    end in
  baseUrl +:+ "/" +:+ hfRepo model +:+ "/resolve/main/" +:+ fileName model.

(** The state of the manager: the sizes of the files on disk, and the
    three maps of the class ([downloadProgress] with the two sizes of an
    entry, from which its percentage is computed). *)
Record Manager := {
  files : gmap string N;
  activeDownloads : gset string;
  activeRequests : gmap string string;
  downloadProgress : gmap string (N * N);
}.

Definition set_files (f : gmap string N) (m : Manager) : Manager :=
  {| files := f; activeDownloads := activeDownloads m;
     activeRequests := activeRequests m; downloadProgress := downloadProgress m |}.

Definition set_activeDownloads (a : gset string) (m : Manager) : Manager :=
  {| files := files m; activeDownloads := a;
     activeRequests := activeRequests m; downloadProgress := downloadProgress m |}.

Definition set_downloadProgress (p : gmap string (N * N)) (m : Manager) : Manager :=
  {| files := files m; activeDownloads := activeDownloads m;
     activeRequests := activeRequests m; downloadProgress := p |}.

(** How an [async] method ends. *)
Inductive Outcome (A : Type) :=
| Returns (a : A)
| Throws (e : JsError)
| NeverSettles.

Arguments Returns {A} a.
Arguments Throws {A} e.
Arguments NeverSettles {A}.

Section Registry.

(** [modelRegistryData.localProviders || []]: the registry file is not
    part of the sources at hand. *)
Variable localProviders : list Provider.

(** [this.modelsDir], and [path.join]. *)
Variable modelsDir : string.
Variable path_join : string -> string -> string.

(** [downloadFile(url, destPath, onProgress, modelId)], the HTTPS transfer,
    with the progress callback that [downloadModel] hands to it: whatever it
    does to the files and the maps. *)
Variable downloadFile : string -> string -> string -> Manager -> Outcome string * Manager.

Definition findModelById (modelId : string) : option (Model * Provider) :=
  (fix providers (l : list Provider) :=
     match l with
     | [] => None
     | provider :: l' =>
         match List.find (fun m => String.eqb (id m) modelId) (models provider) with
         | Some model => Some (model, provider)
         | None => providers l'
         end
     end) localProviders.

(** [fsPromises.stat] throws for a path that is not there. *)
Definition checkModelValid (filePath : string) (m : Manager) : bool :=
  match files m !! filePath with
  | Some size => MIN_FILE_SIZE <? size
  | None => false
  end.

Definition checkFileExists (filePath : string) (m : Manager) : bool :=
  match files m !! filePath with
  | Some _ => true
  | None => false
  end.

Definition modelPathOf (model : Model) : string := path_join modelsDir (fileName model).

Definition isModelDownloaded (modelId : string) (m : Manager) : bool :=
  match findModelById modelId with
  | None => false
  | Some (model, _) => checkModelValid (modelPathOf model) m
  end.

(** An entry of the list that [getAllModels] returns. *)
Record ModelStatus := {
  status_model : Model;
  providerId : string;
  providerName : string;
  isDownloaded : bool;
  path : option string;
}.

Definition getAllModels (m : Manager) : list ModelStatus :=
  flat_map
    (fun provider =>
       map (fun model =>
              let modelPath := modelPathOf model in
              let isDownloaded := checkModelValid modelPath m in
              {| status_model := model; providerId := provider_id provider;
                 providerName := name provider; isDownloaded := isDownloaded;
                 path := if isDownloaded then Some modelPath else None |})
           (models provider))
    localProviders.

(** [fsPromises.unlink(tempPath).catch(() => {})] *)
Definition unlink (filePath : string) (m : Manager) : Manager :=
  set_files (delete filePath (files m)) m.

(** [fsPromises.rename], or the copy and unlink that stand in for it
    across devices. *)
Definition rename (from to : string) (size : N) (m : Manager) : Manager :=
  set_files (<[to := size]> (delete from (files m))) m.

(** The [finally] block of [downloadModel]. *)
Definition finally_ (modelId : string) (m : Manager) : Manager :=
  set_downloadProgress (delete modelId (downloadProgress m))
    (set_activeDownloads (activeDownloads m ∖ {[modelId]}) m).

(** [downloadModel]. The file system carries out what it is asked ([stat]
    fails on a missing file only, [rename] or its copy-and-unlink stand-in
    succeed); a transfer that never settles leaves the call pending in its
    [try] block, before [catch] and [finally]. *)
Definition downloadModel (modelId : string) (m : Manager) : Outcome string * Manager :=
  match findModelById modelId with
  | None => (Throws (ModelNotFoundError modelId), m)
  | Some (model, provider) =>
      let modelPath := modelPathOf model in
      let tempPath := modelPath +:+ ".tmp" in
      if checkModelValid modelPath m then (Returns modelPath, m)
      else if bool_decide (modelId ∈ activeDownloads m) then
        (Throws (ModelError "Model is already being downloaded" "DOWNLOAD_IN_PROGRESS"), m)
      else
        let m1 := set_activeDownloads ({[modelId]} ∪ activeDownloads m) m in
        let downloadUrl := getDownloadUrl provider model in
        let '(r, m2) := downloadFile downloadUrl tempPath modelId m1 in
        match r with
        | NeverSettles => (NeverSettles, m2)
        | Throws e => (Throws e, finally_ modelId (unlink tempPath m2))
        | Returns _ =>
            match files m2 !! tempPath with
            | None =>
                (Throws {| message := "ENOENT: no such file or directory, stat '"
                                        +:+ tempPath +:+ "'";
                           code := Some "ENOENT" |},
                 finally_ modelId (unlink tempPath m2))
            | Some size =>
                if size <? MIN_FILE_SIZE then
                  (Throws (ModelError "Downloaded file appears to be corrupted or incomplete"
                             "DOWNLOAD_CORRUPTED"),
                   finally_ modelId (unlink tempPath m2))
                else (Returns modelPath, finally_ modelId (rename tempPath modelPath size m2))
            end
        end
  end.

Definition deleteModel (modelId : string) (m : Manager) : Outcome unit * Manager :=
  match findModelById modelId with
  | None => (Throws (ModelNotFoundError modelId), m)
  | Some (model, _) =>
      let modelPath := modelPathOf model in
      if checkFileExists modelPath m then (Returns tt, unlink modelPath m)
      else (Returns tt, m)
  end.

End Registry.

End ModelManager.

(** A registry, a models directory and a transfer to run the manager on. *)
Module Catalog.

Import ModelManager.

Definition qwen : Model :=
  {| id := "qwen2.5-0.5b"; fileName := "qwen2.5-0.5b-instruct-q4_k_m.gguf";
     hfRepo := "Qwen/Qwen2.5-0.5B-Instruct-GGUF"; contextLength := 32768 |}.

Definition provider : Provider :=
  {| provider_id := "qwen"; name := "Qwen"; baseUrl := None;
     promptTemplate := Some "<|system|>{system}<|user|>{user}<|assistant|>";
     models := [qwen] |}.

Definition localProviders : list Provider := [provider].

Definition modelsDir : string := "/home/user/.cache/openwhispr/models".

(** [path.join] of a directory and a file name, on POSIX. *)
Definition path_join (dir file : string) : string := dir +:+ "/" +:+ file.

(** A transfer that reports its progress and leaves [size] bytes at the
    destination. *)
Definition transfer (size : N) (url destPath modelId : string) (m : Manager)
  : Outcome string * Manager :=
  (Returns destPath,
   set_downloadProgress (<[modelId := (size, size)]> (downloadProgress m))
     (set_files (<[destPath := size]> (files m)) m)).

Definition idle : Manager :=
  {| files := ∅; activeDownloads := ∅; activeRequests := ∅; downloadProgress := ∅ |}.

End Catalog.

(** Unfolds the primitive steps of the monad. *)
Ltac mstep :=
  unfold bind, ret, emit, Date_now, block, sleep, readText, writeText,
    setTimeout_writeText, cache_set, set_permission, killProcess,
    run_spawnSync, run_spawn, run_spawnAgain, showAccessibilityDialog; simpl.

(** * Properties *)

(** ** Strings *)

Section StringFacts.

Lemma startsWith_nil s : startsWith s EmptyString = true.
Proof. destruct s; reflexivity. Qed.

Lemma includes_here s needle : startsWith s needle = true -> includes s needle = true.
Proof. intros H. destruct s; simpl in *; rewrite H; reflexivity. Qed.

Lemma includes_later c s needle : includes s needle = true -> includes (String c s) needle = true.
Proof. intros H. simpl. rewrite H. apply orb_true_r. Qed.

Lemma includes_cons c s needle :
  includes (String c s) needle = startsWith (String c s) needle || includes s needle.
Proof. reflexivity. Qed.

Lemma startsWith_lower s needle :
  startsWith s needle = true -> startsWith (toLowerCase s) (toLowerCase needle) = true.
Proof.
  revert s. induction needle as [|a needle IH]; intros s H.
  - apply startsWith_nil.
  - destruct s as [|b s]; simpl in *; [discriminate|].
    apply andb_true_iff in H as [Hab Hs].
    apply Ascii.eqb_eq in Hab. subst b.
    rewrite Ascii.eqb_refl. simpl. auto.
Qed.

Lemma includes_lower s needle :
  includes s needle = true -> includes (toLowerCase s) (toLowerCase needle) = true.
Proof.
  induction s as [|c s IH]; intros H.
  - apply includes_here, startsWith_lower. simpl in H. rewrite orb_false_r in H. exact H.
  - rewrite includes_cons in H. apply orb_true_iff in H as [H|H].
    + apply includes_here. apply (startsWith_lower (String c s)). exact H.
    + simpl toLowerCase. apply includes_later. auto.
Qed.

Lemma includes_nonempty s needle :
  includes s needle = true -> is_empty needle = false -> is_empty s = false.
Proof. destruct s, needle; simpl; intros; congruence. Qed.

Lemma includes_trimStart s needle :
  solid needle = true -> includes s needle = true -> includes (trimStart s) needle = true.
Proof.
  intros Hsolid. induction s as [|c s IH]; intros H; [exact H|].
  simpl trimStart. destruct (is_ws c) eqn:Hws; [|exact H].
  rewrite includes_cons in H. apply orb_true_iff in H as [H|H]; [|auto].
  exfalso. destruct needle as [|a needle]; [discriminate|].
  simpl in H, Hsolid. apply andb_true_iff in H as [Hac _].
  apply Ascii.eqb_eq in Hac. subst a. rewrite Hws in Hsolid. discriminate.
Qed.

Lemma startsWith_trimEnd s needle :
  last_solid needle = true -> startsWith s needle = true ->
  startsWith (trimEnd s) needle = true.
Proof.
  revert s. induction needle as [|a needle IH]; intros s Hlast H; [discriminate|].
  destruct s as [|b s]; [discriminate|].
  simpl in H. apply andb_true_iff in H as [Hab Hs].
  apply Ascii.eqb_eq in Hab. subst b.
  destruct needle as [|a' needle].
  - simpl in Hlast. simpl trimEnd.
    apply negb_true_iff in Hlast. rewrite Hlast. simpl.
    rewrite Ascii.eqb_refl. simpl. apply startsWith_nil.
  - assert (Hrec : startsWith (trimEnd s) (String a' needle) = true) by (apply IH; assumption).
    simpl trimEnd. destruct (trimEnd s) as [|x r] eqn:Hr; [discriminate|].
    rewrite andb_false_r. simpl. rewrite Ascii.eqb_refl. exact Hrec.
Qed.

Lemma includes_trimEnd s needle :
  solid needle = true -> includes s needle = true -> includes (trimEnd s) needle = true.
Proof.
  intros Hsolid.
  assert (Hlast : last_solid needle = true).
  { destruct needle; [discriminate|]. simpl in Hsolid. apply andb_true_iff in Hsolid as [_ H]. exact H. }
  assert (Hne : is_empty needle = false) by (destruct needle; [discriminate|reflexivity]).
  induction s as [|c s IH]; intros H; [exact H|].
  rewrite includes_cons in H. apply orb_true_iff in H as [H|H].
  - apply includes_here. apply startsWith_trimEnd; assumption.
  - specialize (IH H). pose proof (includes_nonempty _ _ IH Hne) as Hr.
    simpl trimEnd. rewrite Hr, andb_false_r. apply includes_later. exact IH.
Qed.

Lemma includes_trim s needle :
  solid needle = true -> includes s needle = true -> includes (trim s) needle = true.
Proof. intros Hs H. unfold trim. apply includes_trimEnd, includes_trimStart; assumption. Qed.

(** A class name survives the normalisation of the probe output. *)
Lemma includes_normalised stdout needle :
  solid needle = true -> toLowerCase needle = needle ->
  includes stdout needle = true ->
  includes (trim (toLowerCase stdout)) needle = true.
Proof.
  intros Hs Hl H. apply includes_trim; [exact Hs|].
  rewrite <- Hl. apply includes_lower. exact H.
Qed.

Lemma includes_truthy s needle :
  solid needle = true -> includes s needle = true -> truthy s = true.
Proof.
  intros Hs H. unfold truthy. erewrite includes_nonempty; eauto.
  destruct needle; [discriminate|reflexivity].
Qed.

Lemma terminalClasses_solid :
  forallb (fun term => solid term && String.eqb (toLowerCase term) term) terminalClasses = true.
Proof. vm_compute. reflexivity. Qed.

Lemma isTerminalWindow_intro className term :
  In term terminalClasses -> includes className term = true ->
  isTerminalWindow className = true.
Proof.
  intros Hin H. unfold isTerminalWindow. apply existsb_exists. exists term. split; assumption.
Qed.

End StringFacts.

(** ** Frames: what a step of the program leaves alone *)

Lemma calm_refl s : calm s s.
Proof.
  repeat split; [lia|]. exists []. rewrite app_nil_r. split; reflexivity.
Qed.

Lemma effects_app a b : effects (a ++ b) = effects a ++ effects b.
Proof. unfold effects. apply List.filter_app. Qed.

Lemma calm_trans s1 s2 s3 : calm s1 s2 -> calm s2 s3 -> calm s1 s3.
Proof.
  intros (Hc1 & Hn1 & r1 & Ht1 & He1) (Hc2 & Hn2 & r2 & Ht2 & He2).
  repeat split; [congruence|lia|].
  exists (r1 ++ r2). rewrite Ht2, Ht1, <- app_assoc, effects_app, He1, He2. auto.
Qed.

Lemma advance_to_idle t s : timers s = [] -> advance_to t s = set_now t s.
Proof. intros H. unfold advance_to, set_now. rewrite H. reflexivity. Qed.

Lemma run_due_effects t ts clip tr :
  effects (snd (run_due t ts clip tr)) = effects tr.
Proof.
  revert clip tr. induction ts as [|tm ts IH]; intros clip tr; [reflexivity|].
  simpl. destruct (due tm <=? t); [|reflexivity].
  rewrite IH, effects_app. simpl. apply app_nil_r.
Qed.

Lemma run_due_spawned t ts clip tr :
  spawned (snd (run_due t ts clip tr)) = spawned tr.
Proof.
  revert clip tr. induction ts as [|tm ts IH]; intros clip tr; [reflexivity|].
  simpl. destruct (due tm <=? t); [|reflexivity].
  rewrite IH. clear. induction tr as [|e tr IH]; [reflexivity|].
  destruct e; simpl; rewrite IH; reflexivity.
Qed.

Lemma advance_to_now t s : now (advance_to t s) = t.
Proof. unfold advance_to. destruct (run_due _ _ _ _) as [[? ?] ?]. reflexivity. Qed.

Lemma advance_to_effects t s : effects (trace (advance_to t s)) = effects (trace s).
Proof.
  unfold advance_to. pose proof (run_due_effects t (timers s) (clipboard s) (trace s)) as H.
  destruct (run_due _ _ _ _) as [[? ?] ?]. exact H.
Qed.

Lemma advance_to_spawned t s : spawned (trace (advance_to t s)) = spawned (trace s).
Proof.
  unfold advance_to. pose proof (run_due_spawned t (timers s) (clipboard s) (trace s)) as H.
  destruct (run_due _ _ _ _) as [[? ?] ?]. exact H.
Qed.

Lemma advance_to_caches t s :
  commandAvailabilityCache (advance_to t s) = commandAvailabilityCache s
  /\ accessibilityCache (advance_to t s) = accessibilityCache s
  /\ nircmdPath (advance_to t s) = nircmdPath s
  /\ nircmdChecked (advance_to t s) = nircmdChecked s.
Proof. unfold advance_to. destruct (run_due _ _ _ _) as [[? ?] ?]. auto. Qed.

Lemma spawned_app a b : spawned (a ++ b) = spawned a ++ spawned b.
Proof.
  induction a as [|e a IH]; [reflexivity|].
  destruct e; simpl; rewrite IH; reflexivity.
Qed.

Lemma schedule_In tm ts : In tm (schedule tm ts).
Proof.
  induction ts as [|x ts IH]; simpl; [auto|].
  destruct (due x <=? due tm); simpl; auto.
Qed.

Lemma calm_emit e s : is_write e = false -> calm s (snd (emit e s)).
Proof.
  intros H. repeat split; simpl; [lia|]. exists [e]. split; [reflexivity|].
  unfold effects. simpl. rewrite H. reflexivity.
Qed.

Lemma calm_set_now d s : calm s (set_now (now s + d) s).
Proof.
  repeat split; simpl; [lia|]. exists []. rewrite app_nil_r. auto.
Qed.

Lemma calm_sleep d s : timers s = [] -> calm s (snd (sleep d s)).
Proof. intros H. unfold sleep. simpl. rewrite advance_to_idle by exact H. apply calm_set_now. Qed.

Lemma sleep_timers d s : timers s = [] -> timers (snd (sleep d s)) = [].
Proof. intros H. unfold sleep. simpl. rewrite advance_to_idle by exact H. exact H. Qed.

Lemma quiet_refl s : quiet s s.
Proof. split; [apply calm_refl|reflexivity]. Qed.

Lemma quiet_trans s1 s2 s3 : quiet s1 s2 -> quiet s2 s3 -> quiet s1 s3.
Proof. intros [H1 T1] [H2 T2]. split; [eapply calm_trans; eauto|congruence]. Qed.

Lemma quiet_emit e s : is_write e = false -> quiet s (snd (emit e s)).
Proof. intros H. split; [apply calm_emit; exact H|reflexivity]. Qed.

Lemma quiet_sleep d s : timers s = [] -> quiet s (snd (sleep d s)).
Proof.
  intros H. split; [apply calm_sleep; exact H|]. rewrite sleep_timers by exact H. auto.
Qed.

Section SyncFrames.

Variable w : World.

Lemma run_spawnSync_quiet c a s : quiet s (snd (run_spawnSync w c a s)).
Proof.
  unfold run_spawnSync. mstep.
  eapply quiet_trans; [apply (quiet_emit (EvSpawnSync c a)); reflexivity|].
  split; [|reflexivity]. simpl. apply (calm_set_now _ (set_trace _ s)).
Qed.

Lemma quiet_cache_set c e s : quiet s (snd (cache_set c e s)).
Proof.
  repeat split; simpl; [lia|]. exists []. rewrite app_nil_r. auto.
Qed.

Lemma probeCommand_quiet c t s : quiet s (snd (probeCommand w c t s)).
Proof.
  unfold probeCommand, bind.
  eapply quiet_trans; [apply (run_spawnSync_quiet "sh")|].
  destruct (fst (run_spawnSync w _ _ s)); apply quiet_cache_set.
Qed.

Lemma commandExists_quiet c s : quiet s (snd (commandExists w c s)).
Proof.
  unfold commandExists.
  destruct (commandAvailabilityCache s !! c) as [e|]; [|apply probeCommand_quiet].
  destruct (now s <? expiresAt e); [apply quiet_refl|apply probeCommand_quiet].
Qed.

Lemma filterAvailable_quiet l s : quiet s (snd (filterAvailable w l s)).
Proof.
  revert s. induction l as [|c l IH]; intros s; [apply quiet_refl|].
  simpl. unfold bind. simpl.
  eapply quiet_trans; [apply commandExists_quiet|apply IH].
Qed.

Lemma getXdotoolWindowClass_quiet xe sess s :
  quiet s (snd (getXdotoolWindowClass w xe sess s)).
Proof.
  unfold getXdotoolWindowClass.
  destruct (negb xe || _); [apply quiet_refl|].
  unfold bind.
  eapply quiet_trans; [apply (run_spawnSync_quiet "xdotool")|].
  destruct (fst (run_spawnSync w _ _ s)) as [d st out|d]; [|apply quiet_refl].
  destruct (negb (is_zero st)); apply quiet_refl.
Qed.

Lemma kdotoolIsTerminal_quiet s : quiet s (snd (kdotoolIsTerminal w s)).
Proof.
  unfold kdotoolIsTerminal, bind.
  eapply quiet_trans; [apply (commandExists_quiet "kdotool")|].
  destruct (fst (commandExists w "kdotool" s)); [|apply quiet_refl].
  eapply quiet_trans; [apply (run_spawnSync_quiet "kdotool")|].
  destruct (fst (run_spawnSync w "kdotool" ["getactivewindow"] _)) as [d st out|d];
    [|apply quiet_refl].
  destruct (is_zero st); [|apply quiet_refl].
  eapply quiet_trans; [apply (run_spawnSync_quiet "kdotool")|].
  destruct (fst (run_spawnSync w "kdotool" _ _)) as [d' st' out'|d']; [|apply quiet_refl].
  destruct (is_zero st'); apply quiet_refl.
Qed.

Lemma isTerminal_quiet c s : quiet s (snd (isTerminal w c s)).
Proof.
  unfold isTerminal. destruct c as [cls|]; [|apply kdotoolIsTerminal_quiet].
  destruct (truthy cls); [apply quiet_refl|apply kdotoolIsTerminal_quiet].
Qed.

Lemma planLinux_quiet s : quiet s (snd (planLinux w s)).
Proof.
  unfold planLinux, bind.
  eapply quiet_trans; [apply (commandExists_quiet "xdotool")|].
  eapply quiet_trans; [apply (commandExists_quiet "wtype")|].
  eapply quiet_trans; [apply getXdotoolWindowClass_quiet|].
  eapply quiet_trans; [apply isTerminal_quiet|].
  eapply quiet_trans; [apply filterAvailable_quiet|].
  apply quiet_refl.
Qed.

Lemma getNircmdPath_quiet s : quiet s (snd (getNircmdPath w s)).
Proof.
  unfold getNircmdPath.
  assert (Hq : forall p b, quiet s (set_nircmd p b s)).
  { intros. repeat split; simpl; [lia|]. exists []. rewrite app_nil_r. auto. }
  destruct (nircmdChecked s); [apply quiet_refl|].
  destruct (platform w); try apply Hq.
  destruct (List.find _ _); [|apply Hq].
  eapply quiet_trans; [apply Hq|].
  repeat split; simpl; [lia|]. exists []. rewrite app_nil_r. auto.
Qed.

End SyncFrames.

(** ** Delivery mechanisms, one at a time *)

Section Mechanisms.

Variable w : World.

Lemma calm_intro s s' rest :
  clipboard s' = clipboard s -> now s <= now s' ->
  trace s' = trace s ++ rest -> effects rest = rest -> calm s s'.
Proof. intros. repeat split; eauto. Qed.

Ltac idle H :=
  repeat (rewrite !advance_to_idle by (simpl; exact H); simpl).

Ltac calm_by rest :=
  apply (calm_intro _ _ rest); simpl; [reflexivity | lia | rewrite <- ?app_assoc; reflexivity | reflexivity].

Lemma pasteMacOS_delivered orig s :
  timers s = [] -> delivered 100 orig s (pasteMacOS w orig s).
Proof.
  intros H. unfold pasteMacOS, delivered. mstep. idle H.
  destruct (race _ 3000) as [d ev]. mstep. idle H.
  destruct ev as [c err|msg|]; [destruct (is_zero c)| |]; simpl; idle H; rewrite ?H; simpl;
    (split; [|try (exists 0%nat); reflexivity]).
  - calm_by [EvSpawn "osascript" ["-e"; keystroke_script]].
  - calm_by [EvSpawn "osascript" ["-e"; keystroke_script]].
  - calm_by [EvSpawn "osascript" ["-e"; keystroke_script]].
  - calm_by [EvSpawn "osascript" ["-e"; keystroke_script]; EvKill "osascript"].
Qed.

Lemma pasteWithPowerShell_delivered orig s :
  timers s = [] -> delivered 80 orig s (pasteWithPowerShell w orig s).
Proof.
  intros H. unfold pasteWithPowerShell, delivered. mstep. idle H.
  destruct (race _ 5000) as [d ev]. mstep. idle H.
  destruct ev as [c err|msg|]; [destruct (is_zero c)| |]; simpl; idle H; rewrite ?H; simpl;
    (split; [|try (exists 0%nat); reflexivity]).
  - calm_by [EvSpawn "powershell.exe" powershell_args].
  - calm_by [EvSpawn "powershell.exe" powershell_args].
  - calm_by [EvSpawn "powershell.exe" powershell_args].
  - calm_by [EvSpawn "powershell.exe" powershell_args; EvKill "powershell.exe"].
Qed.

Lemma delivered_lagging_intro delay orig s r :
  delivered delay orig s r -> delivered_lagging delay orig s r.
Proof.
  intros [Hc Ht]. split; [exact Hc|].
  destruct (fst r).
  - exists []. split; [exact Ht|]. split; [simpl; lia|constructor].
  - rewrite Ht. split; [simpl; lia|constructor].
  - exact Ht.
Qed.

Lemma delivered_lagging_after delay orig s s1 r :
  calm s s1 -> delivered_lagging delay orig s1 r -> delivered_lagging delay orig s r.
Proof. intros Hc [Hc' Ht]. split; [eapply calm_trans; eauto|exact Ht]. Qed.

Lemma powershellCallback_delivered orig ev s :
  timers s = [] -> delivered 80 orig s (powershellCallback orig ev s).
Proof.
  intros H. unfold powershellCallback, delivered.
  destruct ev as [c err|msg|]; [destruct (is_zero c)| |]; mstep; rewrite ?H; simpl;
    (split; [|reflexivity]).
  - repeat split; simpl; [lia|]. exists []. rewrite app_nil_r. auto.
  - repeat split; simpl; [lia|]. exists []. rewrite app_nil_r. auto.
  - repeat split; simpl; [lia|]. exists []. rewrite app_nil_r. auto.
  - calm_by [EvKill "powershell.exe"].
Qed.

Lemma powershellCallback_now orig ev s : now (snd (powershellCallback orig ev s)) = now s.
Proof.
  unfold powershellCallback.
  destruct ev as [c err|msg|]; [destruct (is_zero c)| |]; reflexivity.
Qed.

(** A laggard leaves the clipboard and the clock alone, and adds at most
    the restoration that its child will set. *)
Lemma powershellLaggard_spec orig lag ev s :
  calm s (snd (powershellLaggard orig lag ev s)) /\
  now (snd (powershellLaggard orig lag ev s)) = now s /\
  (timers (snd (powershellLaggard orig lag ev s)) = timers s \/
   timers (snd (powershellLaggard orig lag ev s))
   = schedule {| due := now s + (lag + 80); restoreText := orig |} (timers s)).
Proof.
  unfold powershellLaggard.
  destruct ev as [c err|msg|]; [destruct (is_zero c)| |]; mstep;
    (split; [|split; [reflexivity|auto]]).
  - repeat split; simpl; [lia|]. exists []. rewrite app_nil_r. auto.
  - repeat split; simpl; [lia|]. exists []. rewrite app_nil_r. auto.
  - repeat split; simpl; [lia|]. exists []. rewrite app_nil_r. auto.
  - calm_by [EvKill "powershell.exe"].
Qed.

Lemma settleWith_delivered orig d ev lag ev' s :
  timers s = [] -> delivered_lagging 80 orig s (settleWith orig d ev lag ev' s).
Proof.
  intros H. unfold settleWith, bind. cbn [fst snd ret].
  set (s1 := snd (sleep d s)).
  assert (Hc1 : calm s s1) by (apply calm_sleep; exact H).
  assert (Ht1 : timers s1 = []) by (apply sleep_timers; exact H).
  destruct (powershellCallback_delivered orig ev s1 Ht1) as [Hc2 Ht2].
  pose proof (powershellCallback_now orig ev s1) as Hn2.
  set (r := powershellCallback orig ev s1) in *.
  destruct (powershellLaggard_spec orig lag ev' (snd r)) as (Hc3 & Hn3 & Ht3).
  split; [eapply calm_trans; [exact Hc1|eapply calm_trans; eauto]|].
  unfold ret. cbn [fst snd]. rewrite Hn3.
  destruct (fst r).
  - rewrite Ht2 in Ht3. destruct Ht3 as [Ht3|Ht3]; rewrite Ht3.
    + exists []. split; [reflexivity|]. split; [simpl; lia|constructor].
    + exists [{| due := now (snd r) + (lag + 80); restoreText := orig |}].
      simpl. replace (now (snd r) + 80 <=? now (snd r) + (lag + 80)) with true
        by (symmetry; apply N.leb_le; lia).
      split; [reflexivity|]. split; [simpl; lia|].
      constructor; [|constructor]. simpl. split; [reflexivity|lia].
  - rewrite Ht2 in Ht3. destruct Ht3 as [Ht3|Ht3]; rewrite Ht3.
    + split; [simpl; lia|constructor].
    + split; [simpl; lia|].
      constructor; [|constructor]. simpl. split; [reflexivity|lia].
  - exact Ht2.
Qed.

Lemma pasteWithPowerShell_twice_delivered orig s :
  timers s = [] -> delivered_lagging 80 orig s (pasteWithPowerShell_twice w orig s).
Proof.
  intros H. unfold pasteWithPowerShell_twice. mstep. idle H.
  destruct (race _ 5000) as [d ev]. destruct (race _ 5000) as [d' ev'].
  destruct (d <=? d');
    (eapply delivered_lagging_after; [|apply settleWith_delivered; exact H]);
    calm_by [EvSpawn "powershell.exe" powershell_args; EvSpawn "powershell.exe" powershell_args].
Qed.

Lemma delivered_after delay orig s s1 r :
  calm s s1 -> delivered delay orig s1 r -> delivered delay orig s r.
Proof. intros Hc [Hc' Ht]. split; [eapply calm_trans; eauto|exact Ht]. Qed.

Lemma pasteWithNircmd_delivered p orig s :
  timers s = [] -> delivered_lagging 80 orig s (pasteWithNircmd w p orig s).
Proof.
  intros H. unfold pasteWithNircmd. mstep. idle H.
  destruct (race _ 2000) as [d ev]. mstep. idle H.
  destruct ev as [c err|msg|]; [destruct (is_zero c)| |]; simpl; idle H.
  - apply delivered_lagging_intro. unfold delivered. simpl. rewrite H. split; [|reflexivity].
    calm_by [EvSpawn p ["sendkeypress"; "ctrl+v"]].
  - apply delivered_lagging_intro.
    eapply delivered_after; [|apply pasteWithPowerShell_delivered; exact H].
    calm_by [EvSpawn p ["sendkeypress"; "ctrl+v"]].
  - eapply delivered_lagging_after; [|apply pasteWithPowerShell_twice_delivered; exact H].
    calm_by [EvSpawn p ["sendkeypress"; "ctrl+v"]].
  - apply delivered_lagging_intro.
    eapply delivered_after; [|apply pasteWithPowerShell_delivered; exact H].
    calm_by [EvSpawn p ["sendkeypress"; "ctrl+v"]; EvKill p].
Qed.

Lemma pasteWithNircmd_delivered_once p orig s :
  timers s = [] ->
  powershellCalls (spawn w (now s + 30) p ["sendkeypress"; "ctrl+v"]) = 1%nat ->
  delivered 80 orig s (pasteWithNircmd w p orig s).
Proof.
  intros H Hone. unfold pasteWithNircmd. mstep. idle H.
  unfold PASTE_DELAYS_win32_nircmd at 1.
  destruct (spawn w (now s + 30) p _) as [d c err|d errno msg|]; simpl in *.
  - destruct (d <? 2000); simpl; idle H.
    + destruct (is_zero c); simpl; idle H.
      * unfold delivered. simpl. rewrite H. split; [|reflexivity].
        calm_by [EvSpawn p ["sendkeypress"; "ctrl+v"]].
      * eapply delivered_after; [|apply pasteWithPowerShell_delivered; exact H].
        calm_by [EvSpawn p ["sendkeypress"; "ctrl+v"]].
    + eapply delivered_after; [|apply pasteWithPowerShell_delivered; exact H].
      calm_by [EvSpawn p ["sendkeypress"; "ctrl+v"]; EvKill p].
  - destruct (d <? 2000); [discriminate|]. simpl; idle H.
    eapply delivered_after; [|apply pasteWithPowerShell_delivered; exact H].
    calm_by [EvSpawn p ["sendkeypress"; "ctrl+v"]; EvKill p].
  - idle H. eapply delivered_after; [|apply pasteWithPowerShell_delivered; exact H].
    calm_by [EvSpawn p ["sendkeypress"; "ctrl+v"]; EvKill p].
Qed.

Lemma pasteWindows_delivered orig s :
  timers s = [] -> delivered_lagging 80 orig s (pasteWindows w orig s).
Proof.
  intros H. unfold pasteWindows, bind.
  destruct (getNircmdPath_quiet w s) as [Hc Ht].
  destruct (fst (getNircmdPath w s)) as [p|];
    (eapply delivered_lagging_after; [exact Hc|]);
    [apply pasteWithNircmd_delivered
    |apply delivered_lagging_intro, pasteWithPowerShell_delivered]; congruence.
Qed.

Lemma pasteWith_delivered orig tool s :
  timers s = [] -> delivered 200 orig s (pasteWith w orig tool s).
Proof.
  intros H. unfold pasteWith, delivered. mstep.
  destruct (race _ 1000) as [d ev]. mstep. idle H.
  destruct ev as [c err|msg|]; [destruct (is_zero c)| |]; simpl; idle H; rewrite ?H; simpl;
    (split; [|try (exists 0%nat); reflexivity]).
  - calm_by [EvSpawn (cmd tool) (args tool)].
  - calm_by [EvSpawn (cmd tool) (args tool)].
  - calm_by [EvSpawn (cmd tool) (args tool)].
  - calm_by [EvSpawn (cmd tool) (args tool); EvKill (cmd tool)].
Qed.

Lemma tryTools_delivered orig available s :
  timers s = [] ->
  calm s (snd (tryTools w orig available s)) /\
  if fst (tryTools w orig available s)
  then timers (snd (tryTools w orig available s))
       = [{| due := now (snd (tryTools w orig available s)) + 200; restoreText := orig |}]
  else timers (snd (tryTools w orig available s)) = [].
Proof.
  revert s. induction available as [|tool rest IH]; intros s H.
  - simpl. split; [apply calm_refl|exact H].
  - simpl. unfold bind.
    destruct (pasteWith_delivered orig tool s H) as [Hc Ht].
    destruct (fst (pasteWith w orig tool s)); simpl.
    + split; assumption.
    + destruct (IH _ Ht) as [Hc' Ht']. split; [eapply calm_trans; eauto|exact Ht'].
    + contradiction.
Qed.

Lemma pasteLinux_delivered orig s :
  timers s = [] -> delivered 200 orig s (pasteLinux w orig s).
Proof.
  intros H. unfold pasteLinux, bind.
  destruct (planLinux_quiet w s) as [Hc Ht].
  assert (H1 : timers (snd (planLinux w s)) = []) by congruence.
  destruct (tryTools_delivered orig (plan_available (fst (planLinux w s))) _ H1) as [Hc' Ht'].
  destruct (fst (tryTools w orig _ _)); unfold delivered; simpl;
    (split; [eapply calm_trans; eauto|exact Ht']).
Qed.

End Mechanisms.

(** ** The same mechanisms with timers pending *)

Lemma unscheduled_refl s : unscheduled s s.
Proof. split; [exists []; rewrite app_nil_r|exists []]; reflexivity. Qed.

Lemma unscheduled_trans s1 s2 s3 : unscheduled s1 s2 -> unscheduled s2 s3 -> unscheduled s1 s3.
Proof.
  intros [[r1 H1] [f1 F1]] [[r2 H2] [f2 F2]]. split.
  - exists (r1 ++ r2). rewrite H2, H1, app_assoc. reflexivity.
  - exists (f1 ++ f2). rewrite F1, F2, app_assoc. reflexivity.
Qed.

Lemma quiet_unscheduled s s' : quiet s s' -> unscheduled s s'.
Proof.
  intros [(_ & _ & r & Hr & _) Ht]. split; [exists r; exact Hr|].
  exists []. rewrite Ht. reflexivity.
Qed.

Lemma run_due_unscheduled t ts clip tr :
  (exists rest, snd (run_due t ts clip tr) = tr ++ rest) /\
  (exists fired, ts = fired ++ fst (fst (run_due t ts clip tr))).
Proof.
  revert clip tr. induction ts as [|tm ts IH]; intros clip tr.
  - simpl. split; [exists []; rewrite app_nil_r|exists []]; reflexivity.
  - simpl. destruct (due tm <=? t).
    + destruct (IH (restoreText tm) (tr ++ [EvWriteText (restoreText tm)])) as [[r Hr] [f Hf]].
      split.
      * exists ([EvWriteText (restoreText tm)] ++ r). rewrite Hr, <- app_assoc. reflexivity.
      * exists (tm :: f). simpl. rewrite <- Hf. reflexivity.
    + simpl. split; [exists []; rewrite app_nil_r|exists []]; reflexivity.
Qed.

Lemma advance_to_unscheduled t s : unscheduled s (advance_to t s).
Proof.
  unfold advance_to, unscheduled.
  pose proof (run_due_unscheduled t (timers s) (clipboard s) (trace s)) as H.
  destruct (run_due _ _ _ _) as [[ts clip] tr]. exact H.
Qed.

Lemma unscheduled_emit e s : unscheduled s (snd (emit e s)).
Proof. split; [exists [e]|exists []]; reflexivity. Qed.

Section MechanismsPending.

Variable w : World.

Lemma settles_after delay orig s s1 r :
  unscheduled s s1 -> settles delay orig s1 r -> settles delay orig s r.
Proof.
  unfold settles. intros Hu H. destruct (fst r); auto. eapply unscheduled_trans; eauto.
Qed.

Lemma pasteMacOS_settles orig s : settles 100 orig s (pasteMacOS w orig s).
Proof.
  unfold pasteMacOS, settles. mstep.
  destruct (race _ 3000) as [d ev]. mstep.
  destruct ev as [c err|msg|]; [destruct (is_zero c)| |]; simpl.
  - apply schedule_In.
  - eapply unscheduled_trans; [apply advance_to_unscheduled|].
    eapply unscheduled_trans; [apply unscheduled_emit|]. apply advance_to_unscheduled.
  - eapply unscheduled_trans; [apply advance_to_unscheduled|].
    eapply unscheduled_trans; [apply unscheduled_emit|]. apply advance_to_unscheduled.
  - eapply unscheduled_trans; [apply advance_to_unscheduled|].
    eapply unscheduled_trans; [apply unscheduled_emit|].
    eapply unscheduled_trans; [apply advance_to_unscheduled|]. apply unscheduled_emit.
Qed.

Lemma pasteWithPowerShell_settles orig s : settles 80 orig s (pasteWithPowerShell w orig s).
Proof.
  unfold pasteWithPowerShell, settles. mstep.
  destruct (race _ 5000) as [d ev]. mstep.
  destruct ev as [c err|msg|]; [destruct (is_zero c)| |]; simpl.
  - apply schedule_In.
  - eapply unscheduled_trans; [apply advance_to_unscheduled|].
    eapply unscheduled_trans; [apply unscheduled_emit|]. apply advance_to_unscheduled.
  - eapply unscheduled_trans; [apply advance_to_unscheduled|].
    eapply unscheduled_trans; [apply unscheduled_emit|]. apply advance_to_unscheduled.
  - eapply unscheduled_trans; [apply advance_to_unscheduled|].
    eapply unscheduled_trans; [apply unscheduled_emit|].
    eapply unscheduled_trans; [apply advance_to_unscheduled|]. apply unscheduled_emit.
Qed.

Lemma schedule_keeps x tm ts : In x ts -> In x (schedule tm ts).
Proof.
  induction ts as [|y ts IH]; simpl; [tauto|].
  destruct (due y <=? due tm); simpl; tauto.
Qed.

Lemma settles_lagging_intro delay orig s r :
  settles delay orig s r -> settles_lagging delay orig r.
Proof. unfold settles, settles_lagging. destruct (fst r); auto. Qed.

Lemma settleWith_settles orig d ev lag ev' s :
  settles_lagging 80 orig (settleWith orig d ev lag ev' s).
Proof.
  unfold settleWith, settles_lagging, bind, ret. cbn [fst snd].
  set (s1 := snd (sleep d s)).
  pose proof (powershellCallback_now orig ev s1) as Hn2.
  assert (Ht2 : match fst (powershellCallback orig ev s1) with
                | Resolved =>
                    In {| due := now s1 + 80; restoreText := orig |}
                       (timers (snd (powershellCallback orig ev s1)))
                | Rejected _ => True
                | Pending => False
                end).
  { unfold powershellCallback.
    destruct ev as [c err|msg|]; [destruct (is_zero c)| |]; mstep; auto.
    apply schedule_In. }
  set (r := powershellCallback orig ev s1) in *.
  destruct (powershellLaggard_spec orig lag ev' (snd r)) as (_ & Hn3 & Ht3).
  rewrite Hn3, Hn2.
  destruct (fst r); auto.
  destruct Ht3 as [Ht3|Ht3]; rewrite Ht3; [exact Ht2|apply schedule_keeps; exact Ht2].
Qed.

Lemma pasteWithPowerShell_twice_settles orig s :
  settles_lagging 80 orig (pasteWithPowerShell_twice w orig s).
Proof.
  unfold pasteWithPowerShell_twice. mstep.
  destruct (race _ 5000) as [d ev]. destruct (race _ 5000) as [d' ev'].
  destruct (d <=? d'); apply settleWith_settles.
Qed.

(** With timers pending, [pasteWithNircmd] keeps the promise of [settles]
    about rejections as long as it makes one PowerShell call at most. *)
Lemma pasteWithNircmd_settles p orig s :
  powershellCalls (spawn w (now s + 30) p ["sendkeypress"; "ctrl+v"]) = 1%nat ->
  settles 80 orig s (pasteWithNircmd w p orig s).
Proof.
  intros Hone. unfold pasteWithNircmd. mstep. rewrite advance_to_now.
  unfold PASTE_DELAYS_win32_nircmd at 1.
  assert (Hpre : forall d', unscheduled s
            (advance_to d' (set_trace
               (trace (advance_to (now s + PASTE_DELAYS_win32_nircmd) s) ++
                  [EvSpawn p ["sendkeypress"; "ctrl+v"]])
               (advance_to (now s + PASTE_DELAYS_win32_nircmd) s)))).
  { intros d'. eapply unscheduled_trans; [apply advance_to_unscheduled|].
    eapply unscheduled_trans; [apply unscheduled_emit|]. apply advance_to_unscheduled. }
  destruct (spawn w (now s + 30) p _) as [d c err|d errno msg|]; simpl in *.
  - destruct (d <? 2000); simpl.
    + destruct (is_zero c); simpl.
      * unfold settles. simpl. apply schedule_In.
      * eapply settles_after; [apply Hpre|apply pasteWithPowerShell_settles].
    + eapply settles_after; [|apply pasteWithPowerShell_settles].
      eapply unscheduled_trans; [apply Hpre|apply unscheduled_emit].
  - destruct (d <? 2000); [discriminate|]. simpl.
    eapply settles_after; [|apply pasteWithPowerShell_settles].
    eapply unscheduled_trans; [apply Hpre|apply unscheduled_emit].
  - eapply settles_after; [|apply pasteWithPowerShell_settles].
    eapply unscheduled_trans; [apply Hpre|apply unscheduled_emit].
Qed.

Lemma pasteWithNircmd_settles_lagging p orig s :
  settles_lagging 80 orig (pasteWithNircmd w p orig s).
Proof.
  unfold pasteWithNircmd. mstep.
  destruct (race _ 2000) as [d ev]. mstep.
  destruct ev as [c err|msg|]; [destruct (is_zero c)| |]; simpl.
  - unfold settles_lagging. simpl. apply schedule_In.
  - eapply settles_lagging_intro, pasteWithPowerShell_settles.
  - apply pasteWithPowerShell_twice_settles.
  - eapply settles_lagging_intro, pasteWithPowerShell_settles.
Qed.

Lemma pasteWindows_settles_lagging orig s :
  settles_lagging 80 orig (pasteWindows w orig s).
Proof.
  unfold pasteWindows, bind.
  destruct (fst (getNircmdPath w s)) as [p|];
    [apply pasteWithNircmd_settles_lagging
    |eapply settles_lagging_intro, pasteWithPowerShell_settles].
Qed.

Lemma pasteWith_settles orig tool s : settles 200 orig s (pasteWith w orig tool s).
Proof.
  unfold pasteWith, settles. mstep.
  destruct (race _ 1000) as [d ev]. mstep.
  destruct ev as [c err|msg|]; [destruct (is_zero c)| |]; simpl.
  - apply schedule_In.
  - eapply unscheduled_trans; [apply unscheduled_emit|]. apply advance_to_unscheduled.
  - eapply unscheduled_trans; [apply unscheduled_emit|]. apply advance_to_unscheduled.
  - eapply unscheduled_trans; [apply unscheduled_emit|].
    eapply unscheduled_trans; [apply advance_to_unscheduled|].
    eapply unscheduled_trans; [apply unscheduled_emit|]. apply advance_to_unscheduled.
Qed.

Lemma tryTools_settles orig available s :
  if fst (tryTools w orig available s)
  then In {| due := now (snd (tryTools w orig available s)) + 200; restoreText := orig |}
          (timers (snd (tryTools w orig available s)))
  else unscheduled s (snd (tryTools w orig available s)).
Proof.
  revert s. induction available as [|tool rest IH]; intros s.
  - simpl. apply unscheduled_refl.
  - simpl. unfold bind.
    pose proof (pasteWith_settles orig tool s) as Hs. unfold settles in Hs.
    destruct (fst (pasteWith w orig tool s)); simpl.
    + exact Hs.
    + specialize (IH (snd (pasteWith w orig tool s))).
      destruct (fst (tryTools w orig rest _)); [exact IH|].
      eapply unscheduled_trans; eauto.
    + contradiction.
Qed.

Lemma pasteLinux_settles orig s : settles 200 orig s (pasteLinux w orig s).
Proof.
  unfold pasteLinux, settles, bind.
  pose proof (quiet_unscheduled _ _ (planLinux_quiet w s)) as Hq.
  pose proof (tryTools_settles orig (plan_available (fst (planLinux w s))) (snd (planLinux w s))) as Ht.
  destruct (fst (tryTools w orig _ _)); simpl; [exact Ht|].
  eapply unscheduled_trans; eauto.
Qed.

End MechanismsPending.

(** ** pasteText as a whole *)

Section PasteText.

Variable w : World.

Lemma probePermission_quiet s : timers s = [] -> quiet s (snd (probePermission w s)).
Proof.
  intros H. unfold probePermission. mstep.
  destruct (spawn w (now s) _ _) as [d c err|d msg|]; simpl.
  - rewrite !advance_to_idle by (simpl; exact H).
    destruct (is_zero c); simpl; (split; [|simpl; auto]).
    + apply (calm_intro _ _ [EvSpawn "osascript" ["-e"; permission_script]]); simpl;
        [reflexivity|lia|reflexivity|reflexivity].
    + apply (calm_intro _ _ [EvSpawn "osascript" ["-e"; permission_script];
               EvDialog (includes err "not allowed assistive access"
                         || includes err "(-1719)" || includes err "(-25006)")]); simpl;
        [reflexivity|lia|rewrite <- app_assoc; reflexivity|reflexivity].
  - rewrite !advance_to_idle by (simpl; exact H). simpl. split; [|simpl; auto].
    apply (calm_intro _ _ [EvSpawn "osascript" ["-e"; permission_script]; EvDialog false]);
      simpl; [reflexivity|lia|rewrite <- app_assoc; reflexivity|reflexivity].
  - split; [|simpl; auto].
    apply (calm_intro _ _ [EvSpawn "osascript" ["-e"; permission_script]]); simpl;
      [reflexivity|lia|reflexivity|reflexivity].
Qed.

Lemma checkAccessibilityPermissions_quiet s :
  timers s = [] -> quiet s (snd (checkAccessibilityPermissions w s)).
Proof.
  intros H. unfold checkAccessibilityPermissions.
  destruct (platform w); try apply quiet_refl.
  destruct (value (accessibilityCache s)); [|apply probePermission_quiet; exact H].
  destruct (now s <? _); [apply quiet_refl|apply probePermission_quiet; exact H].
Qed.

Lemma probePermission_unscheduled s : unscheduled s (snd (probePermission w s)).
Proof.
  unfold probePermission. mstep.
  destruct (spawn w (now s) _ _) as [d c err|d msg|]; simpl.
  - assert (Hpre : unscheduled s (advance_to (now s + d)
              (set_trace (trace s ++ [EvSpawn "osascript" ["-e"; permission_script]]) s))).
    { eapply unscheduled_trans; [apply unscheduled_emit|apply advance_to_unscheduled]. }
    destruct (is_zero c); simpl.
    + eapply unscheduled_trans; [apply Hpre|].
      split; [exists []; rewrite app_nil_r|exists []]; reflexivity.
    + eapply unscheduled_trans; [apply Hpre|].
      split; [eexists; reflexivity|exists []; reflexivity].
  - eapply unscheduled_trans; [apply unscheduled_emit|].
    eapply unscheduled_trans; [apply advance_to_unscheduled|].
    split; [eexists; reflexivity|exists []; reflexivity].
  - apply unscheduled_emit.
Qed.

Lemma checkAccessibilityPermissions_unscheduled s :
  unscheduled s (snd (checkAccessibilityPermissions w s)).
Proof.
  unfold checkAccessibilityPermissions.
  destruct (platform w); try apply unscheduled_refl.
  destruct (value (accessibilityCache s)); [|apply probePermission_unscheduled].
  destruct (now s <? _); [apply unscheduled_refl|apply probePermission_unscheduled].
Qed.

Lemma finish_fst method r s : fst (finish w method r s) = r.
Proof. destruct r; reflexivity. Qed.

Lemma finish_quiet method r s : quiet s (snd (finish w method r s)).
Proof.
  destruct r; simpl; try apply quiet_refl; mstep;
    apply (quiet_emit (EvPasteLog _ _ _)); reflexivity.
Qed.

Lemma finish_now method r s : now (snd (finish w method r s)) = now s.
Proof. destruct r; reflexivity. Qed.

Lemma finish_delivered delay orig method s r :
  delivered delay orig s r ->
  delivered delay orig s (finish w method (fst r) (snd r)).
Proof.
  intros [Hc Ht]. destruct (finish_quiet method (fst r) (snd r)) as [Hc' Ht'].
  split; [eapply calm_trans; eauto|].
  rewrite finish_fst, Ht', finish_now. exact Ht.
Qed.

Lemma finish_settles delay orig method s r :
  settles delay orig s r ->
  settles delay orig s (finish w method (fst r) (snd r)).
Proof.
  unfold settles. intros H. destruct (finish_quiet method (fst r) (snd r)) as [Hc' Ht'].
  rewrite finish_fst, Ht', finish_now. destruct (fst r); auto.
  eapply unscheduled_trans; [exact H|]. apply quiet_unscheduled. split; assumption.
Qed.

Lemma finish_delivered_lagging delay orig method s r :
  delivered_lagging delay orig s r ->
  delivered_lagging delay orig s (finish w method (fst r) (snd r)).
Proof.
  intros [Hc Ht]. destruct (finish_quiet method (fst r) (snd r)) as [Hc' Ht'].
  split; [eapply calm_trans; eauto|].
  rewrite finish_fst, Ht', finish_now. exact Ht.
Qed.

Lemma finish_settles_lagging delay orig method r :
  settles_lagging delay orig r ->
  settles_lagging delay orig (finish w method (fst r) (snd r)).
Proof.
  unfold settles_lagging. intros H.
  destruct (finish_quiet method (fst r) (snd r)) as [_ Ht'].
  rewrite finish_fst, Ht', finish_now. exact H.
Qed.

(** Off Windows every mechanism has one child. *)
Lemma pasteText_delivered_once text s :
  timers s = [] -> platform w <> Win32 ->
  fst (pasteText w text s) = Pending \/
  delivered (restoreDelay (platform w)) (clipboard s) (afterWrite text s) (pasteText w text s).
Proof.
  intros H Hnw. unfold pasteText. mstep. fold (afterWrite text s).
  assert (H0 : timers (afterWrite text s) = []) by exact H.
  destruct (platform w) eqn:Hp; simpl.
  - destruct (checkAccessibilityPermissions_quiet _ H0) as [Hc Ht].
    rewrite H0 in Ht.
    destruct (fst (checkAccessibilityPermissions w (afterWrite text s))) as [[|]|];
      [right|right|left; reflexivity].
    + apply (finish_delivered 100 (clipboard s) "applescript" (afterWrite text s)
               (pasteMacOS w (clipboard s) _)).
      eapply delivered_after; [exact Hc|apply pasteMacOS_delivered; exact Ht].
    + unfold delivered. mstep. split; [|exact Ht].
      eapply calm_trans; [exact Hc|].
      apply (calm_emit (EvPasteLog false "darwin" "applescript")). reflexivity.
  - congruence.
  - right.
    apply (finish_delivered 200 (clipboard s) "linux-tools" (afterWrite text s)
             (pasteLinux w (clipboard s) _)).
    apply pasteLinux_delivered; exact H0.
Qed.

Lemma pasteText_delivered text s :
  timers s = [] ->
  fst (pasteText w text s) = Pending \/
  delivered_lagging (restoreDelay (platform w)) (clipboard s) (afterWrite text s)
    (pasteText w text s).
Proof.
  intros H. destruct (platform w) eqn:Hp.
  - destruct (pasteText_delivered_once text s H) as [Hpend|Hd]; [congruence|auto|].
    right. apply delivered_lagging_intro. rewrite Hp in Hd. exact Hd.
  - right. unfold pasteText. mstep. fold (afterWrite text s). rewrite Hp. simpl.
    assert (H0 : timers (afterWrite text s) = []) by exact H.
    destruct (getNircmdPath_quiet w (afterWrite text s)) as [Hc Ht].
    apply (finish_delivered_lagging 80 (clipboard s) _ (afterWrite text s)
             (pasteWindows w (clipboard s) _)).
    eapply delivered_lagging_after; [exact Hc|apply pasteWindows_delivered; congruence].
  - destruct (pasteText_delivered_once text s H) as [Hpend|Hd]; [congruence|auto|].
    right. apply delivered_lagging_intro. rewrite Hp in Hd. exact Hd.
Qed.

Lemma pasteText_settles_once text s :
  platform w <> Win32 ->
  fst (pasteText w text s) = Pending \/
  settles (restoreDelay (platform w)) (clipboard s) (afterWrite text s) (pasteText w text s).
Proof.
  intros Hnw. unfold pasteText. mstep. fold (afterWrite text s).
  destruct (platform w) eqn:Hp; simpl.
  - pose proof (checkAccessibilityPermissions_unscheduled (afterWrite text s)) as Hu.
    destruct (fst (checkAccessibilityPermissions w (afterWrite text s))) as [[|]|];
      [right|right|left; reflexivity].
    + apply (finish_settles 100 (clipboard s) "applescript" (afterWrite text s)
               (pasteMacOS w (clipboard s) _)).
      eapply settles_after; [exact Hu|apply pasteMacOS_settles].
    + unfold settles. mstep.
      eapply unscheduled_trans; [exact Hu|].
      apply (unscheduled_emit (EvPasteLog false "darwin" "applescript")).
  - congruence.
  - right.
    apply (finish_settles 200 (clipboard s) "linux-tools" (afterWrite text s)
             (pasteLinux w (clipboard s) _)).
    apply pasteLinux_settles.
Qed.

Lemma pasteText_settles text s :
  fst (pasteText w text s) = Pending \/
  settles_lagging (restoreDelay (platform w)) (clipboard s) (pasteText w text s).
Proof.
  destruct (platform w) eqn:Hp.
  - destruct (pasteText_settles_once text s) as [Hpend|Hd]; [congruence|auto|].
    right. rewrite Hp in Hd. eapply settles_lagging_intro, Hd.
  - right. unfold pasteText. mstep. fold (afterWrite text s). rewrite Hp. simpl.
    apply (finish_settles_lagging 80 (clipboard s) _ (pasteWindows w (clipboard s) _)).
    apply pasteWindows_settles_lagging.
  - destruct (pasteText_settles_once text s) as [Hpend|Hd]; [congruence|auto|].
    right. rewrite Hp in Hd. eapply settles_lagging_intro, Hd.
Qed.

End PasteText.

(** ** pasteText on Windows, and calls with one child per mechanism *)

Section OneChild.

Variable w : World.

Lemma getNircmdPath_resolved s :
  memo_ok w s ->
  getNircmdPath w s = (resolveNircmd w, set_nircmd (resolveNircmd w) true s).
Proof.
  unfold memo_ok, getNircmdPath, resolveNircmd. intros H.
  destruct s as [t c ts ac cc np ch tr]. simpl in *.
  destruct ch; subst np; [reflexivity|].
  destruct (platform w); try reflexivity.
  destruct (List.find _ _); reflexivity.
Qed.

Lemma memo_ok_afterWrite text s : memo_ok w s -> memo_ok w (afterWrite text s).
Proof. intros H. exact H. Qed.

(** [pasteText] on Windows, with the two reads of the memo done. *)
Lemma pasteText_windows text s :
  platform w = Win32 -> memo_ok w s ->
  let s2 := set_nircmd (resolveNircmd w) true
              (set_nircmd (resolveNircmd w) true (afterWrite text s)) in
  pasteText w text s =
  match resolveNircmd w with
  | Some p =>
      finish w "nircmd" (fst (pasteWithNircmd w p (clipboard s) s2))
        (snd (pasteWithNircmd w p (clipboard s) s2))
  | None =>
      finish w "powershell" (fst (pasteWithPowerShell w (clipboard s) s2))
        (snd (pasteWithPowerShell w (clipboard s) s2))
  end.
Proof.
  intros Hp Hm s2. unfold pasteText. mstep. fold (afterWrite text s). rewrite Hp.
  unfold bind, pasteWindows, bind.
  rewrite (getNircmdPath_resolved (afterWrite text s) (memo_ok_afterWrite text s Hm)).
  cbn [fst snd].
  rewrite (getNircmdPath_resolved (set_nircmd (resolveNircmd w) true (afterWrite text s)))
    by reflexivity.
  cbn [fst snd]. fold s2.
  destruct (resolveNircmd w); reflexivity.
Qed.

(** With one PowerShell call at most, [pasteText] started with no timer
    pending leaves one restoration or none. *)
Lemma pasteText_delivered_single text s :
  timers s = [] -> started_once w s ->
  fst (pasteText w text s) = Pending \/
  delivered (restoreDelay (platform w)) (clipboard s) (afterWrite text s) (pasteText w text s).
Proof.
  intros H Hone. destruct (platform w) eqn:Hp.
  - rewrite <- Hp. apply pasteText_delivered_once; [exact H|congruence].
  - right. destruct (Hone Hp) as [Hm Hcalls].
    rewrite (pasteText_windows text s Hp Hm). cbv zeta.
    destruct (resolveNircmd w) as [p|] eqn:Hr.
    + match goal with
      | |- context [pasteWithNircmd w p (clipboard s) ?st] => set (s2 := st)
      end.
      apply (finish_delivered w 80 (clipboard s) "nircmd" (afterWrite text s)
               (pasteWithNircmd w p (clipboard s) s2)).
      eapply delivered_after;
        [|apply pasteWithNircmd_delivered_once; [exact H|apply (Hcalls p eq_refl)]].
      repeat split; simpl; [lia|]. exists []. rewrite app_nil_r. auto.
    + match goal with
      | |- context [pasteWithPowerShell w (clipboard s) ?st] => set (s2 := st)
      end.
      apply (finish_delivered w 80 (clipboard s) "powershell" (afterWrite text s)
               (pasteWithPowerShell w (clipboard s) s2)).
      eapply delivered_after; [|apply pasteWithPowerShell_delivered; exact H].
      repeat split; simpl; [lia|]. exists []. rewrite app_nil_r. auto.
  - rewrite <- Hp. apply pasteText_delivered_once; [exact H|congruence].
Qed.

(** With one PowerShell call at most, a [pasteText] call that fails has set
    no timer, whatever was pending when it started. *)
Lemma pasteText_unscheduled text s :
  started_once w s ->
  fst (pasteText w text s) = Pending \/
  settles (restoreDelay (platform w)) (clipboard s) (afterWrite text s) (pasteText w text s).
Proof.
  intros Hone. destruct (platform w) eqn:Hp.
  - rewrite <- Hp. apply pasteText_settles_once. congruence.
  - right. destruct (Hone Hp) as [Hm Hcalls].
    rewrite (pasteText_windows text s Hp Hm). cbv zeta.
    destruct (resolveNircmd w) as [p|] eqn:Hr.
    + match goal with
      | |- context [pasteWithNircmd w p (clipboard s) ?st] => set (s2 := st)
      end.
      apply (finish_settles w 80 (clipboard s) "nircmd" (afterWrite text s)
               (pasteWithNircmd w p (clipboard s) s2)).
      eapply settles_after; [|apply pasteWithNircmd_settles; apply (Hcalls p eq_refl)].
      split; [exists []; rewrite app_nil_r; reflexivity|exists []; reflexivity].
    + match goal with
      | |- context [pasteWithPowerShell w (clipboard s) ?st] => set (s2 := st)
      end.
      apply (finish_settles w 80 (clipboard s) "powershell" (afterWrite text s)
               (pasteWithPowerShell w (clipboard s) s2)).
      eapply settles_after; [|apply pasteWithPowerShell_settles].
      split; [exists []; rewrite app_nil_r; reflexivity|exists []; reflexivity].
  - rewrite <- Hp. apply pasteText_settles_once. congruence.
Qed.

End OneChild.

(** ** The clipboard round trip *)

(** Timers that all write [x], run on a clipboard that holds [x]. *)
Lemma run_due_uniform t ts tr x :
  Forall (fun tm => restoreText tm = x) ts ->
  snd (fst (run_due t ts x tr)) = x /\
  Forall (fun tm => restoreText tm = x) (fst (fst (run_due t ts x tr))) /\
  (Forall (fun tm => due tm <= t) ts -> fst (fst (run_due t ts x tr)) = []).
Proof.
  revert tr. induction ts as [|tm ts IH]; intros tr Hx.
  - simpl. auto.
  - pose proof Hx as Hx'. apply Forall_cons in Hx' as [Htm Hts]. cbn [run_due].
    destruct (due tm <=? t) eqn:Hd.
    + rewrite Htm. destruct (IH (tr ++ [EvWriteText x]) Hts) as (H1 & H2 & H3).
      split; [exact H1|]. split; [exact H2|].
      intros Hall. apply H3. apply Forall_cons in Hall as [_ Hall]. exact Hall.
    + simpl. split; [reflexivity|]. split; [exact Hx|].
      intros Hall. apply Forall_cons in Hall as [Hle _].
      apply N.leb_gt in Hd. lia.
Qed.

(** The state after a success: the restoration comes first, and whatever
    is pending behind it writes the same content. *)
Lemma advance_to_restore t tm late s :
  timers s = tm :: late ->
  Forall (fun l => restoreText l = restoreText tm) late ->
  (t < due tm -> clipboard (advance_to t s) = clipboard s) /\
  (due tm <= t ->
     clipboard (advance_to t s) = restoreText tm /\
     Forall (fun l => restoreText l = restoreText tm) (timers (advance_to t s)) /\
     (Forall (fun l => due l <= t) late -> timers (advance_to t s) = [])).
Proof.
  intros H Hlate. unfold advance_to. rewrite H. split; intros Ht.
  - apply N.leb_gt in Ht. simpl. rewrite Ht. reflexivity.
  - apply N.leb_le in Ht. cbn [run_due]. rewrite Ht.
    pose proof (run_due_uniform t late (trace s ++ [EvWriteText (restoreText tm)])
                  (restoreText tm) Hlate) as Hr.
    destruct (run_due _ _ _ _) as [[ts clip] tr]. simpl in Hr. exact Hr.
Qed.

(** C1. A [pasteText] call that succeeds has set a timer that writes the
    clipboard content read at the start of the call back, due 100 ms (macOS),
    80 ms (Windows) or 200 ms (Linux) after the mechanism succeeded. When no
    earlier restoration was pending at the start of the call, the delivered
    text is on the clipboard until that timer runs; that restoration is the
    first thing pending, and nothing else is, except, where nircmd could not
    be started, the restoration of the same content that the second of the
    two PowerShell children may add when it closes with exit code 0 in its
    turn; from the due time of the first restoration on the clipboard holds
    the original content, whatever is still pending writes that content
    again, and no timer is left once the last one has run. *)
Theorem pasteText_success_restores_clipboard w text s s' :
  pasteText w text s = (Resolved, s') ->
  let restore := {| due := now s' + restoreDelay (platform w); restoreText := clipboard s |} in
  In restore (timers s') /\
  (timers s = [] ->
   clipboard s' = text /\
   (exists late,
      timers s' = restore :: late /\ (length late <= 1)%nat /\
      Forall (fun tm => restoreText tm = clipboard s /\ due restore <= due tm) late /\
      (started_once w s -> late = [])) /\
   (forall t, t < due restore -> clipboard (advance_to t s') = text) /\
   (forall t, due restore <= t ->
      clipboard (advance_to t s') = clipboard s /\
      Forall (fun tm => restoreText tm = clipboard s) (timers (advance_to t s')) /\
      (Forall (fun tm => due tm <= t) (timers s') -> timers (advance_to t s') = []))).
Proof.
  intros Hrun restore. split.
  - destruct (pasteText_settles w text s) as [Hp|Hs]; rewrite Hrun in *; [discriminate|].
    exact Hs.
  - intros Hidle.
    destruct (pasteText_delivered w text s Hidle) as [Hp|[Hc Ht]]; rewrite Hrun in *;
      [discriminate|].
    simpl in Hc, Ht. destruct Hc as (Hclip & _).
    assert (Hclip' : clipboard s' = text) by exact Hclip.
    destruct Ht as (late & Ht & Hlen & Hlate). fold restore in Ht.
    assert (Hsame : Forall (fun l => restoreText l = restoreText restore) late).
    { eapply Forall_impl; [exact Hlate|]. simpl. intros tm [H _]. exact H. }
    split; [exact Hclip'|]. split; [|split].
    + exists late. split; [exact Ht|]. split; [exact Hlen|]. split; [exact Hlate|].
      intros Hone.
      destruct (pasteText_delivered_single w text s Hidle Hone) as [Hp|[_ Ho]];
        rewrite Hrun in *; [discriminate|].
      simpl in Ho. fold restore in Ho. rewrite Ho in Ht. injection Ht as <-. reflexivity.
    + intros t Hlt. destruct (advance_to_restore t restore late s' Ht Hsame) as [Hb _].
      rewrite (Hb Hlt). exact Hclip'.
    + intros t Hle. destruct (advance_to_restore t restore late s' Ht Hsame) as [_ Ha].
      destruct (Ha Hle) as (H1 & H2 & H3). split; [exact H1|]. split; [exact H2|].
      intros Hall. apply H3. rewrite Ht in Hall. apply Forall_cons in Hall as [_ Hall].
      exact Hall.
Qed.

Lemma pasteText_success_restores_clipboard_witness :
  let w := Scenario.linuxX11 "Firefox" (Closes 15 (Some 0%Z) "") in
  let s' := snd (pasteText w "dictated words" Scenario.fresh) in
  now s' = 1030 /\ clipboard s' = "dictated words" /\
  clipboard (advance_to 1230 s') = "user data".
Proof.
  intros w s'.
  assert (Hrun : pasteText w "dictated words" Scenario.fresh = (Resolved, s'))
    by (vm_compute; reflexivity).
  destruct (pasteText_success_restores_clipboard w _ _ _ Hrun) as [_ H].
  destruct (H eq_refl) as (Hclip & _ & _ & Hafter).
  split; [vm_compute; reflexivity|]. split; [exact Hclip|].
  apply (Hafter 1230). vm_compute. discriminate.
Defined.

(** ** Linux: what pasteLinux works out before it tries tools *)

Section LinuxPlan.

Variable w : World.

Lemma run_spawnSync_fst c a s : fst (run_spawnSync w c a s) = spawnSync w (now s) c a.
Proof. reflexivity. Qed.

Lemma run_spawnSync_clock c a s :
  now (snd (run_spawnSync w c a s)) =
  now s + match spawnSync w (now s) c a with SyncReturns d _ _ | SyncThrows d => d end.
Proof. reflexivity. Qed.

(** xdotool is not asked on a Wayland session without a bridge display. *)
Lemma getXdotoolWindowClass_no_bridge xe sess s :
  isWayland sess = true -> xwaylandAvailable sess = false ->
  getXdotoolWindowClass w xe sess s = (None, s).
Proof.
  intros Hw Hx. unfold getXdotoolWindowClass. rewrite Hw, Hx. simpl.
  rewrite orb_true_r. reflexivity.
Qed.

Lemma getXdotoolWindowClass_asked sess s :
  (isWayland sess = true -> xwaylandAvailable sess = true) ->
  fst (getXdotoolWindowClass w true sess s) =
  match spawnSync w (now s) "xdotool" ["getactivewindow"; "getwindowclassname"] with
  | SyncReturns _ status stdout =>
      if is_zero status
      then (if truthy (trim (toLowerCase stdout)) then Some (trim (toLowerCase stdout)) else None)
      else None
  | SyncThrows _ => None
  end.
Proof.
  intros Hb. unfold getXdotoolWindowClass.
  assert (Hc : negb true || isWayland sess && negb (xwaylandAvailable sess) = false).
  { simpl. destruct (isWayland sess); [rewrite Hb by reflexivity|]; reflexivity. }
  rewrite Hc. unfold bind. rewrite run_spawnSync_fst.
  destruct (spawnSync w (now s) _ _) as [d st out|d]; [|reflexivity].
  destruct (is_zero st); reflexivity.
Qed.

Lemma isTerminal_class cls s :
  truthy cls = true -> isTerminal w (Some cls) s = (isTerminalWindow cls, s).
Proof. intros H. unfold isTerminal. rewrite H. reflexivity. Qed.

Lemma isTerminal_None s : isTerminal w None s = kdotoolIsTerminal w s.
Proof. reflexivity. Qed.

(** The answer of the two-step kdotool query when kdotool is there. *)
Lemma kdotoolIsTerminal_asked s s1 :
  commandExists w "kdotool" s = (true, s1) ->
  fst (kdotoolIsTerminal w s) =
  match spawnSync w (now s1) "kdotool" ["getactivewindow"] with
  | SyncReturns d status stdout =>
      if is_zero status then
        match spawnSync w (now s1 + d) "kdotool" ["getwindowclassname"; trim stdout] with
        | SyncReturns _ status' stdout' =>
            if is_zero status' then isTerminalWindow (trim (toLowerCase stdout')) else false
        | SyncThrows _ => false
        end
      else false
  | SyncThrows _ => false
  end.
Proof.
  intros Hce. unfold kdotoolIsTerminal, bind. rewrite Hce. cbn [fst snd].
  rewrite run_spawnSync_fst.
  destruct (spawnSync w (now s1) "kdotool" ["getactivewindow"]) as [d st out|d] eqn:E1;
    [|reflexivity].
  destruct (is_zero st); [|reflexivity].
  rewrite run_spawnSync_fst, run_spawnSync_clock, E1.
  destruct (spawnSync w (now s1 + d) "kdotool" _) as [d' st' out'|d']; [|reflexivity].
  destruct (is_zero st'); reflexivity.
Qed.

Lemma kdotoolIsTerminal_missing s :
  fst (commandExists w "kdotool" s) = false -> fst (kdotoolIsTerminal w s) = false.
Proof. intros H. unfold kdotoolIsTerminal, bind. rewrite H. reflexivity. Qed.

Lemma filterAvailable_nil s : filterAvailable w [] s = ([], s).
Proof. reflexivity. Qed.

(** The plan on a GNOME Wayland session without a bridge display. *)
Lemma planLinux_gnome_no_bridge s :
  isWayland (getLinuxSessionInfo w) = true ->
  isGnomeDesktop (getLinuxDesktopEnv w) = true ->
  truthy_opt (DISPLAY (env w)) = false ->
  let plan := fst (planLinux w s) in
  plan_session plan = getLinuxSessionInfo w /\
  plan_xdotoolWindowClass plan = None /\
  plan_candidates plan = [] /\ plan_available plan = [].
Proof.
  intros Hw Hg Hd.
  assert (Hx : xwaylandAvailable (getLinuxSessionInfo w) = false).
  { unfold getLinuxSessionInfo. simpl. rewrite Hd. apply andb_false_r. }
  assert (Hgn : isGnome (getLinuxSessionInfo w) = true).
  { unfold getLinuxSessionInfo in *. simpl in *. rewrite Hw, Hg. reflexivity. }
  unfold planLinux, bind. cbn [fst snd].
  rewrite (getXdotoolWindowClass_no_bridge _ _ _ Hw Hx). cbn [fst snd].
  unfold ret. cbn [fst snd plan_session plan_xdotoolWindowClass plan_candidates plan_available].
  rewrite Hw, Hgn. cbn [negb andb truthy_opt candidates app].
  rewrite filterAvailable_nil. auto.
Qed.

Lemma pasteLinux_nothing_available orig s :
  plan_available (fst (planLinux w s)) = [] ->
  fst (pasteLinux w orig s) =
  Rejected {| message :=
                linuxErrorMsg (plan_session (fst (planLinux w s)))
                  (plan_xdotoolExists (fst (planLinux w s)))
                  (plan_wtypeExists (fst (planLinux w s)))
                  (plan_xdotoolWindowClass (fst (planLinux w s)));
              code := Some "PASTE_SIMULATION_FAILED" |}.
Proof. intros H. unfold pasteLinux, bind. rewrite H. reflexivity. Qed.

Lemma pasteText_linux text s :
  platform w = Linux ->
  fst (pasteText w text s) = fst (pasteLinux w (clipboard s) (afterWrite text s)).
Proof.
  intros Hp. unfold pasteText. mstep. fold (afterWrite text s). rewrite Hp.
  unfold bind. apply finish_fst.
Qed.

End LinuxPlan.

(** C3. On a Wayland session ([XDG_SESSION_TYPE] is wayland or
    [WAYLAND_DISPLAY] is set) whose desktop names contain gnome and where
    [DISPLAY] is unset or empty, the candidate list that [pasteLinux] builds
    is empty whatever the tool lookups answer (in particular with xdotool
    absent and wtype present), and [pasteText] fails with the GNOME Wayland
    message, code PASTE_SIMULATION_FAILED; the message does not contain the
    word install. *)
Theorem gnome_wayland_without_bridge w text s :
  platform w = Linux ->
  isWayland (getLinuxSessionInfo w) = true ->
  isGnomeDesktop (getLinuxDesktopEnv w) = true ->
  truthy_opt (DISPLAY (env w)) = false ->
  let msg := "Clipboard copied, but GNOME Wayland blocks automatic pasting. Please paste manually with Ctrl+V." in
  plan_candidates (fst (planLinux w (afterWrite text s))) = [] /\
  fst (pasteText w text s) = Rejected {| message := msg; code := Some "PASTE_SIMULATION_FAILED" |} /\
  includes (toLowerCase msg) "install" = false.
Proof.
  intros Hp Hw Hg Hd msg.
  destruct (planLinux_gnome_no_bridge w (afterWrite text s) Hw Hg Hd) as (Hs & Hc & Hcand & Hav).
  split; [exact Hcand|]. split; [|vm_compute; reflexivity].
  rewrite (pasteText_linux w text s Hp), (pasteLinux_nothing_available w _ _ Hav), Hs, Hc.
  unfold linuxErrorMsg. rewrite Hw.
  assert (Hgn : isGnome (getLinuxSessionInfo w) = true).
  { unfold getLinuxSessionInfo in *. simpl in *. rewrite Hw, Hg. reflexivity. }
  assert (Hx : xwaylandAvailable (getLinuxSessionInfo w) = false).
  { unfold getLinuxSessionInfo. simpl. rewrite Hd. apply andb_false_r. }
  rewrite Hgn, Hx. reflexivity.
Qed.

Lemma gnome_wayland_without_bridge_witness :
  plan_xdotoolExists (fst (planLinux Scenario.gnomeWayland Scenario.fresh)) = false /\
  plan_wtypeExists (fst (planLinux Scenario.gnomeWayland Scenario.fresh)) = true /\
  plan_candidates
    (fst (planLinux Scenario.gnomeWayland (afterWrite "dictated words" Scenario.fresh))) = [] /\
  fst (pasteText Scenario.gnomeWayland "dictated words" Scenario.fresh) =
  Rejected {| message := "Clipboard copied, but GNOME Wayland blocks automatic pasting. Please paste manually with Ctrl+V.";
              code := Some "PASTE_SIMULATION_FAILED" |}.
Proof.
  split; [vm_compute; reflexivity|]. split; [vm_compute; reflexivity|].
  assert (H1 : platform Scenario.gnomeWayland = Linux) by reflexivity.
  assert (H2 : isWayland (getLinuxSessionInfo Scenario.gnomeWayland) = true)
    by (vm_compute; reflexivity).
  assert (H3 : isGnomeDesktop (getLinuxDesktopEnv Scenario.gnomeWayland) = true)
    by (vm_compute; reflexivity).
  assert (H4 : truthy_opt (DISPLAY (env Scenario.gnomeWayland)) = false) by reflexivity.
  destruct (gnome_wayland_without_bridge Scenario.gnomeWayland "dictated words"
              Scenario.fresh H1 H2 H3 H4) as (Ha & Hb & _).
  split; [exact Ha|exact Hb].
Defined.

(** ** Linux: the focused-window classifier *)

Section Classifier.

Variable w : World.

(** How the fields of the plan hang together. *)
Lemma planLinux_fields s :
  let sess := getLinuxSessionInfo w in
  let s1 := snd (commandExists w "xdotool" s) in
  let s2 := snd (commandExists w "wtype" s1) in
  let plan := fst (planLinux w s) in
  plan_session plan = sess /\
  plan_xdotoolExists plan = fst (commandExists w "xdotool" s) /\
  plan_wtypeExists plan = fst (commandExists w "wtype" s1) /\
  plan_xdotoolWindowClass plan =
    fst (getXdotoolWindowClass w (plan_xdotoolExists plan) sess s2) /\
  plan_inTerminal plan =
    fst (isTerminal w (plan_xdotoolWindowClass plan)
           (snd (getXdotoolWindowClass w (plan_xdotoolExists plan) sess s2))) /\
  plan_pasteKeys plan = (if plan_inTerminal plan then "ctrl+shift+v" else "ctrl+v") /\
  plan_candidates plan =
    candidates (isWayland sess && negb (isGnome sess))
      (if isWayland sess then truthy_opt (plan_xdotoolWindowClass plan)
       else plan_xdotoolExists plan)
      (plan_inTerminal plan) (plan_pasteKeys plan).
Proof. repeat split. Qed.

(** A class reported by xdotool that contains a registry entry is a
    terminal. *)
Lemma xdotool_class_terminal sess s d out term :
  (isWayland sess = true -> xwaylandAvailable sess = true) ->
  spawnSync w (now s) "xdotool" ["getactivewindow"; "getwindowclassname"]
    = SyncReturns d (Some 0%Z) out ->
  In term terminalClasses ->
  includes (toLowerCase out) term = true ->
  fst (getXdotoolWindowClass w true sess s) = Some (trim (toLowerCase out)) /\
  forall s', fst (isTerminal w (Some (trim (toLowerCase out))) s') = true.
Proof.
  intros Hb Hans Hin Hinc.
  assert (Hsolid : solid term = true).
  { pose proof terminalClasses_solid as H. rewrite forallb_forall in H.
    specialize (H term Hin). apply andb_true_iff in H. tauto. }
  assert (Hcls : includes (trim (toLowerCase out)) term = true)
    by (apply includes_trim; assumption).
  assert (Htr : truthy (trim (toLowerCase out)) = true)
    by (eapply includes_truthy; eauto).
  split.
  - rewrite (getXdotoolWindowClass_asked w sess s Hb), Hans. simpl. rewrite Htr. reflexivity.
  - intros s'. rewrite (isTerminal_class w _ s' Htr). simpl.
    eapply isTerminalWindow_intro; eauto.
Qed.

(** Where no registry entry occurs the answer is no. *)
Lemma no_terminal_entry_classifies className :
  no_terminal_entry className = true -> isTerminalWindow className = false.
Proof.
  unfold no_terminal_entry, isTerminalWindow. intros H.
  rewrite forallb_forall in H.
  destruct (existsb _ terminalClasses) eqn:He; [|reflexivity].
  apply existsb_exists in He as (term & Hin & Hinc).
  specialize (H term Hin). rewrite Hinc in H. discriminate.
Qed.

Lemma raw_class_lowered out term :
  In term terminalClasses -> includes out term = true ->
  includes (toLowerCase out) term = true.
Proof.
  intros Hin H. pose proof terminalClasses_solid as Hs. rewrite forallb_forall in Hs.
  specialize (Hs term Hin). apply andb_true_iff in Hs as [_ Hl].
  apply String.eqb_eq in Hl. rewrite <- Hl. apply includes_lower. exact H.
Qed.

End Classifier.

(** C10. The registry entry "st" is matched by substring: when xdotool is
    there and usable (X11, or Wayland with a bridge display) and reports a
    window class whose lower-cased name contains "st", [pasteLinux] takes the
    window for a terminal, the paste keys are ctrl+shift+v, the xdotool
    candidate carries that chord, and no candidate carries the two-key
    chord. Whatever probe reports it, a class that
    contains "st" matches the registry; "steam" is such a class. *)
Theorem st_entry_selects_terminal_chord w s out :
  fst (commandExists w "xdotool" s) = true ->
  (isWayland (getLinuxSessionInfo w) = true -> xwaylandAvailable (getLinuxSessionInfo w) = true) ->
  (forall t, exists d,
     spawnSync w t "xdotool" ["getactivewindow"; "getwindowclassname"]
       = SyncReturns d (Some 0%Z) out) ->
  includes (toLowerCase out) "st" = true ->
  let plan := fst (planLinux w s) in
  (forall className, includes className "st" = true -> isTerminalWindow className = true) /\
  isTerminalWindow "steam" = true /\
  plan_inTerminal plan = true /\
  plan_pasteKeys plan = "ctrl+shift+v" /\
  In {| cmd := "xdotool"; args := ["key"; "ctrl+shift+v"] |} (plan_candidates plan) /\
  Forall (fun c => ~ In "ctrl+v" (args c) /\ (cmd c = "wtype" -> In "shift" (args c)))
    (plan_candidates plan).
Proof.
  intros Hxe Hb Hans Hst plan.
  split; [intros className Hcn; apply (isTerminalWindow_intro className "st");
          [vm_compute; tauto|exact Hcn]|].
  split; [vm_compute; reflexivity|].
  destruct (planLinux_fields w s) as (Hsess & Hx & _ & Hcls & Hterm & Hkeys & Hcand).
  fold plan in Hsess, Hx, Hcls, Hterm, Hkeys, Hcand.
  rewrite Hxe in Hx. rewrite Hx in Hcls, Hterm, Hcand.
  destruct (Hans (now (snd (commandExists w "wtype" (snd (commandExists w "xdotool" s))))))
    as [d Hd].
  assert (Hin : In "st" terminalClasses) by (vm_compute; tauto).
  destruct (xdotool_class_terminal w _ _ d out "st" Hb Hd Hin Hst) as [Hc Ht].
  rewrite Hc in Hcls. rewrite Hcls in Hterm, Hcand. rewrite Ht in Hterm.
  rewrite Hterm in Hkeys, Hcand. rewrite Hkeys in Hcand.
  assert (Htr : truthy_opt (Some (trim (toLowerCase out))) = true).
  { simpl. eapply includes_truthy with (needle := "st"); [reflexivity|].
    apply includes_trim; [reflexivity|exact Hst]. }
  rewrite Htr in Hcand.
  assert (Hxd : (if isWayland (getLinuxSessionInfo w) then true else true) = true)
    by (destruct (isWayland _); reflexivity).
  rewrite Hxd in Hcand.
  repeat split; [exact Hterm|exact Hkeys| |]; rewrite Hcand; unfold candidates.
  - apply in_or_app. right. left. reflexivity.
  - assert (Hno : forall l : list string,
              forallb (fun a => negb (String.eqb "ctrl+v" a)) l = true -> ~ In "ctrl+v" l).
    { intros l Hl Hi. rewrite forallb_forall in Hl. specialize (Hl _ Hi).
      rewrite String.eqb_refl in Hl. discriminate. }
    assert (Hxd' : ~ In "ctrl+v" ["key"; "ctrl+shift+v"] /\
                   ("xdotool" = "wtype" -> In "shift" ["key"; "ctrl+shift+v"])).
    { split; [apply Hno; reflexivity|discriminate]. }
    destruct (isWayland _ && negb _); simpl.
    + apply List.Forall_cons; [|apply List.Forall_cons; [exact Hxd'|apply List.Forall_nil]].
      split; [apply Hno; reflexivity|]. intros _. simpl. tauto.
    + apply List.Forall_cons; [exact Hxd'|apply List.Forall_nil].
Qed.

Lemma st_entry_selects_terminal_chord_witness :
  let w := Scenario.linuxX11 "steam" (Closes 15 (Some 0%Z) "") in
  plan_pasteKeys (fst (planLinux w Scenario.fresh)) = "ctrl+shift+v" /\
  spawned (trace (snd (pasteText w "dictated words" Scenario.fresh)))
  = [("xdotool", ["key"; "ctrl+shift+v"])].
Proof.
  intros w. split; [|vm_compute; reflexivity].
  assert (H1 : fst (commandExists w "xdotool" Scenario.fresh) = true) by (vm_compute; reflexivity).
  assert (H2 : isWayland (getLinuxSessionInfo w) = true ->
               xwaylandAvailable (getLinuxSessionInfo w) = true)
    by (vm_compute; discriminate).
  assert (H3 : forall t, exists d,
             spawnSync w t "xdotool" ["getactivewindow"; "getwindowclassname"]
             = SyncReturns d (Some 0%Z) "steam") by (intros t; exists 7; reflexivity).
  assert (H4 : includes (toLowerCase "steam") "st" = true) by (vm_compute; reflexivity).
  destruct (st_entry_selects_terminal_chord w Scenario.fresh "steam" H1 H2 H3 H4)
    as (_ & _ & _ & Hk & _).
  exact Hk.
Defined.

(** C6, as the claim states it, fails where it says that every probe
    failure classifies as not a terminal: when the xdotool probe exits with a
    non-zero status, [isTerminal] goes on to ask kdotool, and a terminal
    reported by kdotool classifies as a terminal. *)
Lemma failed_xdotool_probe_still_terminal :
  ~ probe_failure_classifies_false (Scenario.kdeXwayland "org.kde.konsole") true
      (getLinuxSessionInfo (Scenario.kdeXwayland "org.kde.konsole")) Scenario.fresh.
Proof.
  unfold probe_failure_classifies_false. intros H.
  assert (Hfalse : fst (isTerminal (Scenario.kdeXwayland "org.kde.konsole")
            (fst (getXdotoolWindowClass (Scenario.kdeXwayland "org.kde.konsole") true
                    (getLinuxSessionInfo (Scenario.kdeXwayland "org.kde.konsole"))
                    Scenario.fresh))
            (snd (getXdotoolWindowClass (Scenario.kdeXwayland "org.kde.konsole") true
                    (getLinuxSessionInfo (Scenario.kdeXwayland "org.kde.konsole"))
                    Scenario.fresh))) = false).
  { apply H. right. vm_compute. reflexivity. }
  vm_compute in Hfalse. discriminate.
Qed.

(** The same run seen from [pasteLinux]: xdotool is installed and fails,
    and the plan takes the window for a terminal. *)
Example failed_xdotool_probe_plan :
  let plan := fst (planLinux (Scenario.kdeXwayland "org.kde.konsole") Scenario.fresh) in
  plan_xdotoolExists plan = true /\ plan_xdotoolWindowClass plan = None /\
  plan_inTerminal plan = true /\ plan_pasteKeys plan = "ctrl+shift+v".
Proof. vm_compute. repeat split. Qed.

(** C6, amended. The classifier lower-cases and trims the class string
    that a probe reports and matches it by substring against the registry. A
    class that contains "konsole" or "xterm", as reported or lower-cased, is a
    terminal, whether xdotool or kdotool reported it; a class of ASCII
    characters in which, lower-cased and trimmed, no entry of the registry
    occurs is not, "firefox" and "org.mozilla.firefox" among them. A failing
    xdotool probe (tool missing, no bridge display, non-zero or null status,
    exception, or nothing but white space reported) yields no class, and the
    kdotool query then decides; a failing kdotool query (tool missing,
    non-zero or null status or exception in either step) classifies as not a
    terminal. *)
Theorem classifier_matches_registry w sess s :
  (forall d out term,
     (isWayland sess = true -> xwaylandAvailable sess = true) ->
     spawnSync w (now s) "xdotool" ["getactivewindow"; "getwindowclassname"]
       = SyncReturns d (Some 0%Z) out ->
     term = "konsole" \/ term = "xterm" ->
     includes out term = true \/ includes (toLowerCase out) term = true ->
     fst (isTerminal w (fst (getXdotoolWindowClass w true sess s))
            (snd (getXdotoolWindowClass w true sess s))) = true) /\
  (forall d out,
     (isWayland sess = true -> xwaylandAvailable sess = true) ->
     spawnSync w (now s) "xdotool" ["getactivewindow"; "getwindowclassname"]
       = SyncReturns d (Some 0%Z) out ->
     ascii_only out = true ->
     (truthy (trim (toLowerCase out)) = true ->
      no_terminal_entry (trim (toLowerCase out)) = true ->
      fst (getXdotoolWindowClass w true sess s) = Some (trim (toLowerCase out)) /\
      fst (isTerminal w (fst (getXdotoolWindowClass w true sess s))
             (snd (getXdotoolWindowClass w true sess s))) = false) /\
     (truthy (trim (toLowerCase out)) = false ->
      fst (getXdotoolWindowClass w true sess s) = None)) /\
  (forall s1 d1 wid d2 out,
     commandExists w "kdotool" s = (true, s1) ->
     spawnSync w (now s1) "kdotool" ["getactivewindow"] = SyncReturns d1 (Some 0%Z) wid ->
     spawnSync w (now s1 + d1) "kdotool" ["getwindowclassname"; trim wid]
       = SyncReturns d2 (Some 0%Z) out ->
     (forall term, term = "konsole" \/ term = "xterm" ->
        includes out term = true \/ includes (toLowerCase out) term = true ->
        fst (isTerminal w None s) = true) /\
     (ascii_only out = true -> no_terminal_entry (trim (toLowerCase out)) = true ->
      fst (isTerminal w None s) = false)) /\
  (getXdotoolWindowClass w false sess s = (None, s) /\
   (isWayland sess = true -> xwaylandAvailable sess = false ->
    getXdotoolWindowClass w true sess s = (None, s)) /\
   (match spawnSync w (now s) "xdotool" ["getactivewindow"; "getwindowclassname"] with
    | SyncReturns _ status _ => is_zero status = false
    | SyncThrows _ => True
    end -> fst (getXdotoolWindowClass w true sess s) = None)) /\
  (fst (commandExists w "kdotool" s) = false -> fst (isTerminal w None s) = false) /\
  (forall s1,
     commandExists w "kdotool" s = (true, s1) ->
     match spawnSync w (now s1) "kdotool" ["getactivewindow"] with
     | SyncReturns d status wid =>
         is_zero status = false \/
         match spawnSync w (now s1 + d) "kdotool" ["getwindowclassname"; trim wid] with
         | SyncReturns _ status' _ => is_zero status' = false
         | SyncThrows _ => True
         end
     | SyncThrows _ => True
     end ->
     fst (isTerminal w None s) = false).
Proof.
  assert (Hreg : forall term, term = "konsole" \/ term = "xterm" -> In term terminalClasses).
  { intros term [->| ->]; vm_compute; tauto. }
  assert (Hlow : forall out term, In term terminalClasses ->
            includes out term = true \/ includes (toLowerCase out) term = true ->
            includes (toLowerCase out) term = true).
  { intros out term Hin [H|H]; [apply raw_class_lowered; assumption|exact H]. }
  split; [|split; [|split; [|split; [|split]]]].
  - intros d out term Hb Hans Hterm Hinc.
    destruct (xdotool_class_terminal w sess s d out term Hb Hans (Hreg _ Hterm)
                (Hlow _ _ (Hreg _ Hterm) Hinc)) as [Hc Ht].
    rewrite Hc. apply Ht.
  - intros d out Hb Hans _.
    rewrite (getXdotoolWindowClass_asked w sess s Hb), Hans. simpl is_zero. cbv iota.
    cbn [negb fst snd ret]. split.
    + intros Htr Hno. rewrite Htr. cbn [fst snd]. split; [reflexivity|].
      rewrite (isTerminal_class w _ _ Htr). cbn [fst ret].
      apply no_terminal_entry_classifies. exact Hno.
    + intros Htr. rewrite Htr. reflexivity.
  - intros s1 d1 wid d2 out Hce H1 H2.
    rewrite isTerminal_None, (kdotoolIsTerminal_asked w s s1 Hce), H1. simpl is_zero.
    cbv iota. rewrite H2. simpl is_zero. cbv iota. split.
    + intros term Hterm Hinc.
      apply (isTerminalWindow_intro _ term (Hreg _ Hterm)).
      apply includes_trim; [|apply Hlow; auto].
      destruct Hterm as [->| ->]; reflexivity.
    + intros _ Hno. apply no_terminal_entry_classifies. exact Hno.
  - split; [reflexivity|]. split.
    + intros Hw Hx. apply getXdotoolWindowClass_no_bridge; assumption.
    + intros Hfail. unfold getXdotoolWindowClass.
      destruct (negb true || _); [reflexivity|].
      unfold bind. rewrite run_spawnSync_fst.
      destruct (spawnSync w (now s) _ _) as [d st out|d]; [|reflexivity].
      rewrite Hfail. reflexivity.
  - intros H. rewrite isTerminal_None. apply kdotoolIsTerminal_missing. exact H.
  - intros s1 Hce Hfail.
    rewrite isTerminal_None, (kdotoolIsTerminal_asked w s s1 Hce).
    destruct (spawnSync w (now s1) "kdotool" ["getactivewindow"]) as [d st wid|d];
      [|reflexivity].
    destruct (is_zero st); [|reflexivity].
    destruct Hfail as [Hfail|Hfail]; [discriminate|].
    destruct (spawnSync w (now s1 + d) "kdotool" _) as [d' st' out'|d']; [|reflexivity].
    rewrite Hfail. reflexivity.
Qed.

Lemma classifier_matches_registry_witness :
  let x11 := Scenario.linuxX11 "XTerm" Hangs in
  let web := Scenario.linuxX11 "org.mozilla.Firefox" Hangs in
  let kde := Scenario.kdeWayland "org.kde.konsole" Hangs in
  plan_inTerminal (fst (planLinux x11 Scenario.fresh)) = true /\
  fst (isTerminal x11 (fst (getXdotoolWindowClass x11 true (getLinuxSessionInfo x11) Scenario.fresh))
         (snd (getXdotoolWindowClass x11 true (getLinuxSessionInfo x11) Scenario.fresh))) = true /\
  fst (isTerminal web (fst (getXdotoolWindowClass web true (getLinuxSessionInfo web) Scenario.fresh))
         (snd (getXdotoolWindowClass web true (getLinuxSessionInfo web) Scenario.fresh))) = false /\
  fst (isTerminal kde None Scenario.fresh) = true.
Proof.
  intros x11 web kde. split; [vm_compute; reflexivity|]. split; [|split].
  - destruct (classifier_matches_registry x11 (getLinuxSessionInfo x11) Scenario.fresh)
      as (H & _).
    apply (H 7 "XTerm" "xterm").
    + vm_compute. discriminate.
    + reflexivity.
    + right. reflexivity.
    + right. vm_compute. reflexivity.
  - destruct (classifier_matches_registry web (getLinuxSessionInfo web) Scenario.fresh)
      as (_ & H & _).
    destruct (H 7 "org.mozilla.Firefox") as [Hno _].
    + vm_compute. discriminate.
    + reflexivity.
    + vm_compute. reflexivity.
    + apply Hno; vm_compute; reflexivity.
  - destruct (classifier_matches_registry kde (getLinuxSessionInfo kde) Scenario.fresh)
      as (_ & _ & H & _).
    destruct (H (snd (commandExists kde "kdotool" Scenario.fresh)) 6 "{7f3a}" 6 "org.kde.konsole")
      as [Hk _].
    + vm_compute. reflexivity.
    + vm_compute. reflexivity.
    + vm_compute. reflexivity.
    + apply (Hk "konsole"); [left; reflexivity|left; vm_compute; reflexivity].
Defined.

(** ** The tool-availability cache *)

Section AvailabilityCache.

Variable w : World.

Lemma commandExists_hit cmd s e :
  commandAvailabilityCache s !! cmd = Some e -> now s < expiresAt e ->
  commandExists w cmd s = (exists_ e, s).
Proof.
  intros He Hlt. unfold commandExists. rewrite He.
  apply N.ltb_lt in Hlt. rewrite Hlt. reflexivity.
Qed.

Lemma commandExists_miss cmd s :
  (forall e, commandAvailabilityCache s !! cmd = Some e -> expiresAt e <= now s) ->
  commandExists w cmd s = probeCommand w cmd (now s) s.
Proof.
  intros Hexp. unfold commandExists.
  destruct (commandAvailabilityCache s !! cmd) as [e|] eqn:He; [|reflexivity].
  specialize (Hexp e eq_refl). apply N.ltb_ge in Hexp. rewrite Hexp. reflexivity.
Qed.

Lemma probeCommand_spec cmd t s :
  fst (probeCommand w cmd t s) = lookupAnswer w cmd (now s) /\
  trace (snd (probeCommand w cmd t s)) = trace s ++ [EvSpawnSync "sh" ["-c"; "command -v " +:+ cmd]] /\
  commandAvailabilityCache (snd (probeCommand w cmd t s)) =
    <[cmd := {| exists_ := lookupAnswer w cmd (now s); expiresAt := t + CACHE_TTL_MS |}]>
      (commandAvailabilityCache s).
Proof.
  unfold probeCommand, lookupAnswer, bind. rewrite run_spawnSync_fst.
  destruct (spawnSync w (now s) "sh" _) as [d st out|d] eqn:E; repeat split.
Qed.

(** Whatever [commandExists] did, the cache then holds its answer, in an
    entry that was there and unexpired or in one that expires 30 s after the
    call. *)
Lemma commandExists_entry cmd s :
  exists e,
    commandAvailabilityCache (snd (commandExists w cmd s)) !! cmd = Some e /\
    exists_ e = fst (commandExists w cmd s) /\
    ((commandAvailabilityCache s !! cmd = Some e /\ now s < expiresAt e) \/
     expiresAt e = now s + CACHE_TTL_MS).
Proof.
  assert (Hprobe : exists e,
    commandAvailabilityCache (snd (probeCommand w cmd (now s) s)) !! cmd = Some e /\
    exists_ e = fst (probeCommand w cmd (now s) s) /\
    ((commandAvailabilityCache s !! cmd = Some e /\ now s < expiresAt e) \/
     expiresAt e = now s + CACHE_TTL_MS)).
  { destruct (probeCommand_spec cmd (now s) s) as (Hr & _ & Hc).
    eexists. rewrite Hc, lookup_insert_eq. split; [reflexivity|].
    split; [simpl; symmetry; exact Hr|right; reflexivity]. }
  unfold commandExists.
  destruct (commandAvailabilityCache s !! cmd) as [e|] eqn:He; [|exact Hprobe].
  destruct (now s <? expiresAt e) eqn:Hlt; [|exact Hprobe].
  exists e. simpl. split; [exact He|]. split; [reflexivity|].
  left. split; [reflexivity|]. apply N.ltb_lt. exact Hlt.
Qed.

Lemma commandExists_other cmd cmd' s :
  cmd <> cmd' ->
  commandAvailabilityCache (snd (commandExists w cmd s)) !! cmd'
  = commandAvailabilityCache s !! cmd'.
Proof.
  intros Hne. unfold commandExists.
  assert (Hprobe : commandAvailabilityCache (snd (probeCommand w cmd (now s) s)) !! cmd'
                   = commandAvailabilityCache s !! cmd').
  { destruct (probeCommand_spec cmd (now s) s) as (_ & _ & Hc).
    rewrite Hc. apply lookup_insert_ne. exact Hne. }
  destruct (commandAvailabilityCache s !! cmd) as [e|]; [|exact Hprobe].
  destruct (now s <? expiresAt e); [reflexivity|exact Hprobe].
Qed.

Lemma commandExists_clock cmd s : now s <= now (snd (commandExists w cmd s)).
Proof. destruct (commandExists_quiet w cmd s) as [(_ & H & _) _]. exact H. Qed.

End AvailabilityCache.

Section PasteToolsTwice.

Variable w : World.

Lemma guarded_lookup_again (b : bool) cmd s s2 :
  (b = true -> exists e,
     commandAvailabilityCache s2 !! cmd = Some e /\
     exists_ e = fst (commandExists w cmd s) /\ now s2 < expiresAt e) ->
  (if b then commandExists w cmd else ret false) s2
  = (fst ((if b then commandExists w cmd else ret false) s), s2).
Proof.
  destruct b; [|reflexivity].
  intros H. destruct (H eq_refl) as (e & He & Hx & Hlt).
  rewrite (commandExists_hit w cmd s2 e He Hlt), Hx. reflexivity.
Qed.

Lemma checkPasteTools_again s s2 :
  commandAvailabilityCache s2 = commandAvailabilityCache (snd (checkPasteTools w s)) ->
  (forall cmd e, In cmd (consulted w) ->
     commandAvailabilityCache (snd (checkPasteTools w s)) !! cmd = Some e ->
     now s2 < expiresAt e) ->
  checkPasteTools w s2 = (fst (checkPasteTools w s), s2).
Proof.
  unfold checkPasteTools, consulted.
  destruct (platform w); [reflexivity|reflexivity|].
  set (sess := getLinuxSessionInfo w).
  set (bw := isWayland sess && negb (isGnome sess)).
  set (bx := negb (isWayland sess) || xwaylandAvailable sess).
  unfold bind. cbn [fst snd ret].
  set (ra := (if bw then commandExists w "wtype" else ret false) s).
  set (rb := (if bx then commandExists w "xdotool" else ret false) (snd ra)).
  intros Hcache Hunexp.
  assert (Hw : (if bw then commandExists w "wtype" else ret false) s2 = (fst ra, s2)).
  { apply guarded_lookup_again. intros Hbw.
    destruct (commandExists_entry w "wtype" s) as (e & He & Hx & _).
    assert (He' : commandAvailabilityCache (snd rb) !! "wtype" = Some e).
    { subst rb ra. rewrite Hbw. destruct bx; [|exact He].
      rewrite commandExists_other by discriminate. exact He. }
    exists e. rewrite Hcache. split; [exact He'|]. split; [exact Hx|].
    apply (Hunexp "wtype" e); [|exact He'].
    rewrite Hbw. left. reflexivity. }
  rewrite Hw. cbn [fst snd].
  assert (Hxd : (if bx then commandExists w "xdotool" else ret false) s2 = (fst rb, s2)).
  { apply guarded_lookup_again. intros Hbx.
    destruct (commandExists_entry w "xdotool" (snd ra)) as (e & He & Hx & _).
    assert (He' : commandAvailabilityCache (snd rb) !! "xdotool" = Some e).
    { subst rb. rewrite Hbx. exact He. }
    exists e. rewrite Hcache. split; [exact He'|]. split; [exact Hx|].
    apply (Hunexp "xdotool" e); [|exact He'].
    rewrite Hbx. apply in_or_app. right. left. reflexivity. }
  rewrite Hxd. reflexivity.
Qed.

(** After a first call that found every entry it needed absent or expired,
    every entry it consulted expires 30 s after the start of the call or
    later. *)
Lemma checkPasteTools_entries_fresh s :
  (forall cmd e, commandAvailabilityCache s !! cmd = Some e -> expiresAt e <= now s) ->
  forall cmd e, In cmd (consulted w) ->
    commandAvailabilityCache (snd (checkPasteTools w s)) !! cmd = Some e ->
    now s + CACHE_TTL_MS <= expiresAt e.
Proof.
  intros Hexp. unfold checkPasteTools, consulted.
  destruct (platform w); [intros ? ? []|intros ? ? []|].
  set (sess := getLinuxSessionInfo w).
  set (bw := isWayland sess && negb (isGnome sess)).
  set (bx := negb (isWayland sess) || xwaylandAvailable sess).
  unfold bind. cbn [fst snd ret].
  set (ra := (if bw then commandExists w "wtype" else ret false) s).
  assert (Hclock : now s <= now (snd ra)).
  { subst ra. destruct bw; [apply commandExists_clock|simpl; lia]. }
  assert (Hexp' : forall cmd e, cmd <> "wtype" ->
            commandAvailabilityCache (snd ra) !! cmd = Some e -> expiresAt e <= now (snd ra)).
  { intros cmd e Hne He. subst ra. destruct bw; [|apply (Hexp _ _ He)].
    rewrite commandExists_other in He by congruence.
    specialize (Hexp _ _ He). lia. }
  intros cmd e Hin He. apply in_app_or in Hin. destruct Hin as [Hin|Hin].
  - destruct bw eqn:Hbw; [|destruct Hin]. destruct Hin as [<-|[]].
    assert (He1 : commandAvailabilityCache (snd ra) !! "wtype" = Some e).
    { destruct bx; [|exact He]. rewrite commandExists_other in He by discriminate. exact He. }
    subst ra. cbv iota in He1.
    destruct (commandExists_entry w "wtype" s) as (e' & He' & _ & [[Hold Hlt]|Hnew]).
    + specialize (Hexp _ _ Hold). lia.
    + rewrite He' in He1. injection He1 as <-. rewrite Hnew. lia.
  - destruct bx eqn:Hbx; [|destruct Hin]. destruct Hin as [<-|[]].
    destruct (commandExists_entry w "xdotool" (snd ra)) as (e' & He' & _ & [[Hold Hlt]|Hnew]).
    + specialize (Hexp' "xdotool" e' ltac:(discriminate) Hold). lia.
    + rewrite He' in He. injection He as <-. rewrite Hnew. lia.
Qed.

End PasteToolsTwice.

(** C5. [commandExists] answers from the cache, spawning nothing and
    changing nothing, while the entry of the name is unexpired. With no entry
    or with an entry that has expired (the clock reads its expiry time or
    later) it spawns the shell lookup once, records the answer with an expiry
    30 s after the call, and returns it; a lookup that throws or does not
    exit with status 0 is recorded and returned as not available; for the
    next 30 s the recorded answer is returned without a spawn. Hence a second
    [checkPasteTools] on the same machine, made while the entries that the
    first one consulted are unexpired (in particular less than 30 s after the
    start of a first call that found nothing unexpired), returns what the
    first returned and leaves the state, its trace included, as it found
    it. *)
Theorem commandExists_ttl_window w cmd s :
  (forall e, commandAvailabilityCache s !! cmd = Some e -> now s < expiresAt e ->
     commandExists w cmd s = (exists_ e, s)) /\
  ((forall e, commandAvailabilityCache s !! cmd = Some e -> expiresAt e <= now s) ->
     let r := commandExists w cmd s in
     fst r = match spawnSync w (now s) "sh" ["-c"; "command -v " +:+ cmd] with
             | SyncReturns _ status _ => is_zero status
             | SyncThrows _ => false
             end /\
     trace (snd r) = trace s ++ [EvSpawnSync "sh" ["-c"; "command -v " +:+ cmd]] /\
     commandAvailabilityCache (snd r) =
       <[cmd := {| exists_ := fst r; expiresAt := now s + 30000 |}]> (commandAvailabilityCache s) /\
     forall s2, commandAvailabilityCache s2 !! cmd = commandAvailabilityCache (snd r) !! cmd ->
       now s2 < now s + 30000 -> commandExists w cmd s2 = (fst r, s2)) /\
  (forall s2,
     commandAvailabilityCache s2 = commandAvailabilityCache (snd (checkPasteTools w s)) ->
     (forall name e, In name (consulted w) ->
        commandAvailabilityCache (snd (checkPasteTools w s)) !! name = Some e ->
        now s2 < expiresAt e) ->
     checkPasteTools w s2 = (fst (checkPasteTools w s), s2)) /\
  (forall s2,
     (forall name e, commandAvailabilityCache s !! name = Some e -> expiresAt e <= now s) ->
     commandAvailabilityCache s2 = commandAvailabilityCache (snd (checkPasteTools w s)) ->
     now s2 < now s + 30000 ->
     checkPasteTools w s2 = (fst (checkPasteTools w s), s2)).
Proof.
  split; [|split; [|split]].
  - intros e He Hlt. apply commandExists_hit; assumption.
  - intros Hexp r. subst r. rewrite (commandExists_miss w cmd s Hexp).
    destruct (probeCommand_spec w cmd (now s) s) as (Hr & Ht & Hc).
    split; [exact Hr|]. split; [exact Ht|]. split; [rewrite Hc, Hr; reflexivity|].
    intros s2 Hsame Hlt.
    rewrite Hc, lookup_insert_eq in Hsame.
    rewrite (commandExists_hit w cmd s2 _ Hsame); [rewrite Hr; reflexivity|exact Hlt].
  - intros s2 Hcache Hunexp. apply checkPasteTools_again; assumption.
  - intros s2 Hexp Hcache Hlt. apply checkPasteTools_again; [exact Hcache|].
    intros name e Hin He.
    pose proof (checkPasteTools_entries_fresh w s Hexp name e Hin He) as Hf.
    unfold CACHE_TTL_MS in Hf. lia.
Qed.

Lemma commandExists_ttl_window_witness :
  let w := Scenario.kdeWayland "org.kde.konsole" Hangs in
  let first := checkPasteTools w Scenario.fresh in
  pt_tools (fst first) = ["wtype"] /\
  trace (snd first) = [EvSpawnSync "sh" ["-c"; "command -v wtype"]] /\
  checkPasteTools w (set_now 30999 (snd first)) = (fst first, set_now 30999 (snd first)).
Proof.
  intros w first.
  split; [vm_compute; reflexivity|]. split; [vm_compute; reflexivity|].
  destruct (commandExists_ttl_window w "wtype" Scenario.fresh) as (_ & _ & _ & H).
  apply H.
  - intros name e He. vm_compute in He. discriminate.
  - reflexivity.
  - vm_compute. reflexivity.
Defined.

(** ** Windows *)

Lemma powershellCallback_fst orig ev s s0 :
  fst (powershellCallback orig ev s) = fst (powershellCallback orig ev s0).
Proof.
  unfold powershellCallback.
  destruct ev as [c err|msg|]; [destruct (is_zero c)| |]; reflexivity.
Qed.

(** How a [pasteWithPowerShell] call ends is the answer of its callback to
    what its child does. *)
Lemma pasteWithPowerShell_verdict w orig s s0 :
  fst (pasteWithPowerShell w orig s)
  = fst (powershellCallback orig
           (snd (race (spawn w (now s + 40) "powershell.exe" powershell_args) 5000)) s0).
Proof.
  unfold pasteWithPowerShell, powershellCallback. mstep. rewrite !advance_to_now.
  unfold PASTE_DELAYS_win32_pwsh.
  destruct (race _ 5000) as [d ev]. mstep.
  destruct ev as [c err|msg|]; [destruct (is_zero c)| |]; reflexivity.
Qed.

Section Windows.

Variable w : World.

Lemma memo_ok_new t clip : memo_ok w (newClipboardManager t clip).
Proof. reflexivity. Qed.

Lemma memo_ok_getNircmdPath s : memo_ok w s -> memo_ok w (snd (getNircmdPath w s)).
Proof. intros H. rewrite (getNircmdPath_resolved w s H). reflexivity. Qed.

(** The outcome of a mechanism depends on the state through the clock
    only. *)
Lemma pasteWithPowerShell_outcome orig s1 s2 :
  now s1 = now s2 ->
  fst (pasteWithPowerShell w orig s1) = fst (pasteWithPowerShell w orig s2).
Proof.
  intros H. unfold pasteWithPowerShell. mstep. rewrite !advance_to_now, H.
  destruct (race _ 5000) as [d ev]. mstep.
  destruct ev as [c err|msg|]; [destruct (is_zero c)| |]; reflexivity.
Qed.

Lemma pasteWithPowerShell_spawned orig s :
  spawned (trace (snd (pasteWithPowerShell w orig s)))
  = spawned (trace s) ++ [("powershell.exe", powershell_args)].
Proof.
  unfold pasteWithPowerShell. mstep.
  destruct (race _ 5000) as [d ev]. mstep.
  destruct ev as [c err|msg|]; [destruct (is_zero c)| |]; simpl;
    rewrite ?spawned_app, ?advance_to_spawned; simpl;
    rewrite ?spawned_app, ?advance_to_spawned; simpl; rewrite ?app_nil_r; reflexivity.
Qed.

Lemma settleWith_fst orig d ev lag ev' s s0 :
  fst (settleWith orig d ev lag ev' s) = fst (powershellCallback orig ev s0).
Proof. unfold settleWith, bind, ret. cbn [fst snd]. apply powershellCallback_fst. Qed.

Lemma settleWith_spawned orig d ev lag ev' s :
  spawned (trace (snd (settleWith orig d ev lag ev' s))) = spawned (trace s).
Proof.
  unfold settleWith, powershellCallback, powershellLaggard. mstep.
  destruct ev as [c err|msg|]; [destruct (is_zero c)| |];
    (destruct ev' as [c' err'|msg'|]; [destruct (is_zero c')| |]); simpl;
    rewrite ?spawned_app; simpl; rewrite ?spawned_app; simpl;
    rewrite ?app_nil_r; apply advance_to_spawned.
Qed.

(** Of two PowerShell calls made together, the one whose child is raced
    first decides: the second call when its child is raced strictly before
    the child of the first. *)
Lemma pasteWithPowerShell_twice_outcome orig s1 s2 :
  now s1 = now s2 ->
  let t := now s2 + 40 in
  let v := if fst (race (spawnAgain w t "powershell.exe" powershell_args) 5000)
              <? fst (race (spawn w t "powershell.exe" powershell_args) 5000)
           then again w else w in
  fst (pasteWithPowerShell_twice w orig s1) = fst (pasteWithPowerShell v orig s2).
Proof.
  intros H t v.
  rewrite (pasteWithPowerShell_verdict v orig s2 s2). fold t.
  unfold pasteWithPowerShell_twice. mstep. rewrite !advance_to_now, H.
  unfold PASTE_DELAYS_win32_pwsh. fold t. subst v.
  rewrite N.ltb_antisym.
  destruct (race (spawn w t "powershell.exe" powershell_args) 5000) as [d ev] eqn:Hr.
  destruct (race (spawnAgain w t "powershell.exe" powershell_args) 5000) as [d' ev'] eqn:Hr'.
  cbn [fst snd].
  destruct (d <=? d'); cbn [negb]; rewrite (settleWith_fst _ _ _ _ _ _ s2).
  - rewrite Hr. reflexivity.
  - cbn [spawn again]. rewrite Hr'. reflexivity.
Qed.

Lemma pasteWithPowerShell_twice_spawned orig s :
  spawned (trace (snd (pasteWithPowerShell_twice w orig s)))
  = spawned (trace s)
    ++ [("powershell.exe", powershell_args); ("powershell.exe", powershell_args)].
Proof.
  unfold pasteWithPowerShell_twice. mstep.
  destruct (race _ 5000) as [d ev]. destruct (race _ 5000) as [d' ev'].
  destruct (d <=? d'); rewrite settleWith_spawned; simpl;
    rewrite !spawned_app, advance_to_spawned; simpl;
    rewrite <- ?app_assoc; reflexivity.
Qed.

(** What [pasteWithNircmd] does when nircmd fails. *)
Lemma pasteWithNircmd_falls_back p orig s :
  nircmd_failed (spawn w (now s + 30) p ["sendkeypress"; "ctrl+v"]) ->
  let b := spawn w (now s + 30) p ["sendkeypress"; "ctrl+v"] in
  let d := fst (race b 2000) in
  fst (pasteWithNircmd w p orig s)
    = fst (pasteWithPowerShell (decisive w b (now s + 30 + d + 40)) orig
             (set_now (now s + 30 + d) s)) /\
  spawned (trace (snd (pasteWithNircmd w p orig s)))
    = spawned (trace s) ++ (p, ["sendkeypress"; "ctrl+v"])
      :: repeat ("powershell.exe", powershell_args) (powershellCalls b).
Proof.
  intros Hfail. unfold pasteWithNircmd, decisive. mstep. rewrite !advance_to_now.
  unfold PASTE_DELAYS_win32_nircmd.
  assert (Hsp : forall t1 t2 (k : list Event),
            spawned (trace (advance_to t2 (set_trace
               (trace (advance_to t1 s) ++ [EvSpawn p ["sendkeypress"; "ctrl+v"]] ++ k)
               (advance_to t1 s))))
            = spawned (trace s) ++ [(p, ["sendkeypress"; "ctrl+v"])] ++ spawned k).
  { intros. rewrite advance_to_spawned. simpl.
    rewrite spawned_app, advance_to_spawned. reflexivity. }
  destruct (spawn w (now s + 30) p _) as [d c err|d errno msg|]; simpl in *.
  - destruct (d <? 2000) eqn:Hd; simpl.
    + destruct Hfail as [Hge|Hz]; [apply N.ltb_lt in Hd; lia|]. rewrite Hz. simpl.
      split; [apply pasteWithPowerShell_outcome; simpl; rewrite ?advance_to_now; simpl; rewrite ?advance_to_now; reflexivity|].
      rewrite pasteWithPowerShell_spawned.
      rewrite (Hsp _ _ []), <- app_assoc. reflexivity.
    + split; [apply pasteWithPowerShell_outcome; simpl; rewrite ?advance_to_now; simpl; rewrite ?advance_to_now; reflexivity|].
      rewrite pasteWithPowerShell_spawned. simpl. rewrite spawned_app. simpl.
      rewrite app_nil_r, (Hsp _ _ []), <- app_assoc. reflexivity.
  - destruct (d <? 2000) eqn:Hd; simpl.
    + split.
      * rewrite (pasteWithPowerShell_twice_outcome orig _ (set_now (now s + 30 + d) s))
          by (simpl; rewrite ?advance_to_now; simpl; rewrite ?advance_to_now; reflexivity).
        reflexivity.
      * rewrite pasteWithPowerShell_twice_spawned.
        rewrite (Hsp _ _ []), <- app_assoc. reflexivity.
    + split; [apply pasteWithPowerShell_outcome; simpl; rewrite ?advance_to_now; simpl; rewrite ?advance_to_now; reflexivity|].
      rewrite pasteWithPowerShell_spawned. simpl. rewrite spawned_app. simpl.
      rewrite app_nil_r, (Hsp _ _ []), <- app_assoc. reflexivity.
  - split; [apply pasteWithPowerShell_outcome; simpl; rewrite ?advance_to_now; simpl; rewrite ?advance_to_now; reflexivity|].
    rewrite pasteWithPowerShell_spawned. simpl. rewrite spawned_app. simpl.
    rewrite app_nil_r, (Hsp _ _ []), <- app_assoc. reflexivity.
Qed.

End Windows.

Section WindowsCall.

Variable w : World.

Lemma is_zero_iff c : is_zero c = true <-> c = Some 0%Z.
Proof.
  split; [|intros ->; reflexivity].
  destruct c as [[| |]|]; simpl; intros H; try discriminate; reflexivity.
Qed.

Lemma pasteWithPowerShell_resolves orig s :
  fst (pasteWithPowerShell w orig s) = Resolved <->
  exists d err,
    spawn w (now s + 40) "powershell.exe" powershell_args = Closes d (Some 0%Z) err /\ d < 5000.
Proof.
  unfold pasteWithPowerShell. mstep. rewrite !advance_to_now.
  unfold PASTE_DELAYS_win32_pwsh.
  destruct (spawn w (now s + 40) "powershell.exe" powershell_args) as [d c err|d msg|]; simpl.
  - destruct (d <? 5000) eqn:Hd; simpl.
    + destruct (is_zero c) eqn:Hz; simpl.
      * apply is_zero_iff in Hz. subst c. split; [|reflexivity].
        intros _. exists d, err. split; [reflexivity|apply N.ltb_lt; exact Hd].
      * split; [discriminate|]. intros (d' & err' & Heq & _).
        injection Heq as _ Hc _. subst c. discriminate.
    + split; [discriminate|]. intros (d' & err' & Heq & Hlt).
      injection Heq as -> _ _. apply N.ltb_ge in Hd. lia.
  - destruct (d <? 5000); simpl; (split; [discriminate|intros (? & ? & ? & _); discriminate]).
  - split; [discriminate|intros (? & ? & ? & _); discriminate].
Qed.

Lemma finish_spawned method r s :
  spawned (trace (snd (finish w method r s))) = spawned (trace s).
Proof.
  destruct r; simpl; rewrite ?spawned_app; simpl; rewrite ?app_nil_r; reflexivity.
Qed.

Lemma finish_trace method r s :
  r <> Pending ->
  exists ok,
    trace (snd (finish w method r s)) = trace s ++ [EvPasteLog ok (platform_name (platform w)) method].
Proof.
  intros H. destruct r; [exists true|exists false|congruence]; reflexivity.
Qed.

Lemma pasteWithNircmd_spawned_first p orig s :
  exists rest,
    spawned (trace (snd (pasteWithNircmd w p orig s)))
    = spawned (trace s) ++ (p, ["sendkeypress"; "ctrl+v"]) :: rest.
Proof.
  unfold pasteWithNircmd. mstep.
  destruct (race _ 2000) as [d ev]. mstep.
  destruct ev as [c err|msg|]; [destruct (is_zero c)| |]; simpl.
  - exists []. rewrite advance_to_spawned. simpl.
    rewrite spawned_app, advance_to_spawned. reflexivity.
  - exists [("powershell.exe", powershell_args)].
    rewrite pasteWithPowerShell_spawned, advance_to_spawned. simpl.
    rewrite spawned_app, advance_to_spawned, <- app_assoc. reflexivity.
  - exists [("powershell.exe", powershell_args); ("powershell.exe", powershell_args)].
    rewrite pasteWithPowerShell_twice_spawned, advance_to_spawned. simpl.
    rewrite spawned_app, advance_to_spawned, <- app_assoc. reflexivity.
  - exists [("powershell.exe", powershell_args)].
    rewrite pasteWithPowerShell_spawned. simpl.
    rewrite spawned_app, advance_to_spawned. simpl.
    rewrite spawned_app, advance_to_spawned, app_nil_r, <- app_assoc. reflexivity.
Qed.

End WindowsCall.

(** C7. On Windows, with the memo of the nircmd path in step with the
    machine: when nircmd.exe is at none of the three locations, PowerShell is
    the only child that [pasteText] starts and the call ends as the PowerShell
    mechanism ends; when nircmd.exe is found but does not close with exit
    code 0 within 2 s (non-zero or null code, 'error' event, or timeout), the
    PowerShell mechanism is started next in the same call and nothing else
    is (once; twice, together, when nircmd could not be started), and the
    call ends as the PowerShell mechanism started at that time ends: it
    resolves exactly when PowerShell closes with exit code 0 within its
    5 s. Where PowerShell was started twice, that is the PowerShell child
    that is the first to close, fail or time out; where it was started once
    the deciding machine is the machine itself. *)
Theorem windows_powershell_fallback w text s :
  platform w = Win32 -> memo_ok w s ->
  (resolveNircmd w = None ->
   fst (pasteText w text s) = fst (pasteWithPowerShell w (clipboard s) (afterWrite text s)) /\
   spawned (trace (snd (pasteText w text s)))
     = spawned (trace s) ++ [("powershell.exe", powershell_args)]) /\
  (forall p, resolveNircmd w = Some p ->
   nircmd_failed (spawn w (now s + 30) p ["sendkeypress"; "ctrl+v"]) ->
   let b := spawn w (now s + 30) p ["sendkeypress"; "ctrl+v"] in
   let d := fst (race b 2000) in
   let v := decisive w b (now s + 30 + d + 40) in
   (powershellCalls b = 1%nat -> v = w) /\
   fst (pasteText w text s)
     = fst (pasteWithPowerShell v (clipboard s) (set_now (now s + 30 + d) s)) /\
   (fst (pasteText w text s) = Resolved <->
    exists d' err,
      spawn v (now s + 30 + d + 40) "powershell.exe" powershell_args
        = Closes d' (Some 0%Z) err /\ d' < 5000) /\
   spawned (trace (snd (pasteText w text s)))
     = spawned (trace s) ++ (p, ["sendkeypress"; "ctrl+v"])
       :: repeat ("powershell.exe", powershell_args) (powershellCalls b)).
Proof.
  intros Hp Hm. pose proof (pasteText_windows w text s Hp Hm) as Hrun. simpl in Hrun.
  assert (Htr : spawned (trace s ++ [EvWriteText text]) = spawned (trace s)).
  { rewrite spawned_app. simpl. apply app_nil_r. }
  split.
  - intros Hnone. rewrite Hnone in Hrun. rewrite Hrun, finish_fst, finish_spawned.
    split; [apply pasteWithPowerShell_outcome; reflexivity|].
    rewrite pasteWithPowerShell_spawned. simpl. rewrite Htr. reflexivity.
  - intros p Hsome Hfail b d v. rewrite Hsome in Hrun. rewrite Hrun, finish_fst, finish_spawned.
    match goal with
    | |- context [pasteWithNircmd w p (clipboard s) ?st] => set (s2 := st)
    end.
    assert (Hnow : now s2 = now s) by reflexivity.
    destruct (pasteWithNircmd_falls_back w p (clipboard s) s2) as [Hout Hsp];
      [rewrite Hnow; exact Hfail|].
    rewrite Hnow in Hout, Hsp. fold b in Hout, Hsp. fold d in Hout. fold v in Hout.
    assert (Hout' : fst (pasteWithNircmd w p (clipboard s) s2)
                    = fst (pasteWithPowerShell v (clipboard s) (set_now (now s + 30 + d) s))).
    { rewrite Hout. apply pasteWithPowerShell_outcome. reflexivity. }
    split; [|split; [exact Hout'|split]].
    + intros Hone. subst v. unfold decisive. rewrite Hone. reflexivity.
    + rewrite Hout'. apply pasteWithPowerShell_resolves.
    + rewrite Hsp. subst s2. simpl. rewrite Htr. reflexivity.
Qed.

Lemma windows_powershell_fallback_witness :
  let absent := Scenario.windows false Hangs (Closes 120 (Some 0%Z) "") in
  let broken := Scenario.windows true (Closes 12 (Some 1%Z) "") (Closes 120 (Some 0%Z) "") in
  spawned (trace (snd (pasteText absent "dictated words" Scenario.fresh)))
    = [("powershell.exe", powershell_args)] /\
  fst (pasteText broken "dictated words" Scenario.fresh) = Resolved /\
  spawned (trace (snd (pasteText broken "dictated words" Scenario.fresh)))
    = [("C:/app/resources/bin/nircmd.exe", ["sendkeypress"; "ctrl+v"]);
       ("powershell.exe", powershell_args)].
Proof.
  intros absent broken.
  destruct (windows_powershell_fallback absent "dictated words" Scenario.fresh eq_refl eq_refl)
    as [Ha _].
  destruct (windows_powershell_fallback broken "dictated words" Scenario.fresh eq_refl eq_refl)
    as [_ Hb].
  destruct (Ha eq_refl) as [_ Ha2].
  destruct (Hb "C:/app/resources/bin/nircmd.exe" eq_refl) as (_ & _ & Hb2 & Hb3).
  { right. reflexivity. }
  split; [exact Ha2|]. split; [|exact Hb3].
  apply Hb2. exists 120, "". split; [reflexivity|reflexivity].
Defined.

(** ** Failures, and the one path on which the original comes back *)

(** What the claim C2 says holds on every failure path but one. When no
    earlier restoration was pending at the start of a [pasteText] call that
    fails, the text is on the clipboard when the failure is surfaced and the
    write of the text, the first thing the call did, is its only clipboard
    write. Unless nircmd could not be started, the call set no timer: every
    timer pending when the failure is surfaced was pending before the call,
    and none is pending when none was. *)
Lemma pasteText_failure_keeps_text w text s e s' :
  pasteText w text s = (Rejected e, s') ->
  (timers s = [] ->
   clipboard s' = text /\
   exists rest, trace s' = trace s ++ EvWriteText text :: rest /\ effects rest = rest) /\
  (started_once w s ->
   (exists rest, trace s' = trace s ++ EvWriteText text :: rest) /\
   (exists fired, timers s = fired ++ timers s') /\
   (timers s = [] -> timers s' = [])).
Proof.
  intros Hrun. split.
  - intros Hidle.
    destruct (pasteText_delivered w text s Hidle) as [Hp|[Hc _]]; rewrite Hrun in *;
      [discriminate|].
    simpl in Hc. destruct Hc as (Hclip & _ & rest' & Hrest' & Heff).
    split; [exact Hclip|].
    exists rest'. split; [|exact Heff].
    rewrite Hrest'. simpl. rewrite <- app_assoc. reflexivity.
  - intros Hone.
    destruct (pasteText_unscheduled w text s Hone) as [Hp|Hs]; rewrite Hrun in *;
      [discriminate|].
    unfold settles in Hs. simpl in Hs. destruct Hs as [[rest Hrest] [fired Hfired]].
    split; [|split].
    + exists rest. rewrite Hrest. simpl. rewrite <- app_assoc. reflexivity.
    + exists fired. exact Hfired.
    + intros Hidle. simpl in Hfired. rewrite Hidle in Hfired. symmetry in Hfired.
      apply app_eq_nil in Hfired. tauto.
Qed.

Lemma pasteText_failure_keeps_text_witness :
  let w := Scenario.windows true (Closes 12 (Some 1%Z) "") Hangs in
  let s' := snd (pasteText w "dictated words" Scenario.fresh) in
  fst (pasteText w "dictated words" Scenario.fresh)
  = Rejected (error "Paste operation timed out. Text is copied to clipboard - please paste manually with Ctrl+V.")
  /\ clipboard s' = "dictated words" /\ timers s' = [].
Proof.
  intros w s'.
  assert (Hrun : pasteText w "dictated words" Scenario.fresh
                 = (Rejected (error "Paste operation timed out. Text is copied to clipboard - please paste manually with Ctrl+V."), s'))
    by (vm_compute; reflexivity).
  destruct (pasteText_failure_keeps_text w _ _ _ _ Hrun) as (Hclip & H).
  destruct H as (_ & _ & Ht).
  { intros _. split; [reflexivity|]. intros p Hp. vm_compute in Hp. injection Hp as <-.
    reflexivity. }
  split; [vm_compute; reflexivity|]. split; [apply Hclip; reflexivity|apply Ht; reflexivity].
Defined.

(** C2, where the code departs from it. nircmd.exe is on disk but cannot
    be started: its 'error' handler and the 'close' handler that follows both
    call [pasteWithPowerShell]. The first PowerShell child exits with code 1
    after 100 ms, and the call fails at 1172 with the text on the clipboard;
    the second child exits with code 0 50 ms later and sets the restoration
    timer, so that 130 ms after the failure was surfaced the clipboard holds
    the original content again. *)
Theorem unstartable_nircmd_restores_after_failure :
  let w := Scenario.windowsUnstartable (Closes 100 (Some 1%Z) "") (Closes 150 (Some 0%Z) "") in
  let r := pasteText w "dictated words" Scenario.fresh in
  fst r = Rejected (error "Windows paste failed with code 1. Text is copied to clipboard - please paste manually with Ctrl+V.") /\
  spawned (trace (snd r))
  = [("C:/app/resources/bin/nircmd.exe", ["sendkeypress"; "ctrl+v"]);
     ("powershell.exe", powershell_args); ("powershell.exe", powershell_args)] /\
  now (snd r) = 1172 /\ clipboard (snd r) = "dictated words" /\
  timers (snd r) = [{| due := 1302; restoreText := "user data" |}] /\
  clipboard (advance_to 1301 (snd r)) = "dictated words" /\
  clipboard (advance_to 1302 (snd r)) = "user data".
Proof. vm_compute. repeat split. Qed.

(** C9. On Windows [checkPasteTools] answers method "powershell" with an
    empty tool list and touches nothing, whatever the machine and the memo
    hold; yet when nircmd.exe is found, a [pasteText] call from the same
    state starts nircmd as its first child and reports the method "nircmd"
    (and [getNircmdStatus], which [checkPasteTools] does not consult, hands
    out the path). *)
Theorem checkPasteTools_windows_ignores_nircmd w s :
  platform w = Win32 ->
  checkPasteTools w s =
    ({| pt_platform := "win32"; pt_available := true; pt_method := Some "powershell";
        pt_requiresPermission := false; pt_isWayland := None; pt_xwaylandAvailable := None;
        pt_tools := []; pt_recommendedInstall := None |}, s) /\
  (forall p text, memo_ok w s -> resolveNircmd w = Some p ->
     ns_path (fst (getNircmdStatus w s)) = Some p /\
     (exists rest,
        spawned (trace (snd (pasteText w text s)))
        = spawned (trace s) ++ (p, ["sendkeypress"; "ctrl+v"]) :: rest) /\
     (exists ok earlier,
        trace (snd (pasteText w text s)) = earlier ++ [EvPasteLog ok "win32" "nircmd"])).
Proof.
  intros Hp. split; [unfold checkPasteTools; rewrite Hp; reflexivity|].
  intros p text Hm Hsome.
  split.
  { unfold getNircmdStatus, bind. rewrite Hp, (getNircmdPath_resolved w s Hm), Hsome.
    reflexivity. }
  pose proof (pasteText_windows w text s Hp Hm) as Hrun. simpl in Hrun.
  rewrite Hsome in Hrun. rewrite Hrun.
  match goal with
  | |- context [pasteWithNircmd w p (clipboard s) ?st] => set (s2 := st)
  end.
  split.
  - rewrite finish_spawned.
    destruct (pasteWithNircmd_spawned_first w p (clipboard s) s2) as [rest Hrest].
    exists rest. rewrite Hrest. subst s2. simpl. rewrite spawned_app. simpl.
    rewrite app_nil_r. reflexivity.
  - pose proof (pasteWithNircmd_settles_lagging w p (clipboard s) s2) as Hs.
    unfold settles_lagging in Hs.
    destruct (finish_trace w "nircmd" (fst (pasteWithNircmd w p (clipboard s) s2))
                (snd (pasteWithNircmd w p (clipboard s) s2))) as [ok Hok].
    { intros Hpend. rewrite Hpend in Hs. exact Hs. }
    exists ok, (trace (snd (pasteWithNircmd w p (clipboard s) s2))).
    rewrite Hok, Hp. reflexivity.
Qed.

Lemma checkPasteTools_windows_ignores_nircmd_witness :
  let w := Scenario.windows true (Closes 12 (Some 0%Z) "") Hangs in
  pt_method (fst (checkPasteTools w Scenario.fresh)) = Some "powershell" /\
  pt_tools (fst (checkPasteTools w Scenario.fresh)) = [] /\
  exists ok earlier,
    trace (snd (pasteText w "dictated words" Scenario.fresh))
    = earlier ++ [EvPasteLog ok "win32" "nircmd"].
Proof.
  intros w.
  destruct (checkPasteTools_windows_ignores_nircmd w Scenario.fresh eq_refl) as [Hc Hn].
  rewrite Hc. split; [reflexivity|]. split; [reflexivity|].
  destruct (Hn "C:/app/resources/bin/nircmd.exe" "dictated words" eq_refl eq_refl)
    as (_ & _ & H).
  exact H.
Defined.

(** ** Timeouts *)

Section Timeouts.

Variable w : World.


Lemma race_le b timeout : fst (race b timeout) <= timeout.
Proof.
  destruct b as [d c err|d msg|]; simpl; try lia;
    destruct (d <? timeout) eqn:H; simpl; try lia; apply N.ltb_lt in H; lia.
Qed.








Lemma pasteWithPowerShell_bound orig s :
  now (snd (pasteWithPowerShell w orig s)) <= now s + 40 + 5000.
Proof.
  unfold pasteWithPowerShell. mstep. rewrite !advance_to_now.
  unfold PASTE_DELAYS_win32_pwsh.
  pose proof (race_le (spawn w (now s + 40) "powershell.exe" powershell_args) 5000) as Hle.
  destruct (race _ 5000) as [d ev]. simpl in Hle. mstep.
  destruct ev as [c err|msg|]; [destruct (is_zero c)| |]; simpl;
    rewrite ?advance_to_now; simpl; rewrite ?advance_to_now; lia.
Qed.

Lemma settleWith_now orig d ev lag ev' s :
  now (snd (settleWith orig d ev lag ev' s)) = now s + d.
Proof.
  unfold settleWith, bind, ret. cbn [fst snd].
  destruct (powershellLaggard_spec orig lag ev' (snd (powershellCallback orig ev (snd (sleep d s)))))
    as (_ & Hn & _).
  rewrite Hn, powershellCallback_now. apply advance_to_now.
Qed.

(** The earlier of the two children ends the call. *)
Lemma pasteWithPowerShell_twice_bound orig s :
  now (snd (pasteWithPowerShell_twice w orig s)) <= now s + 40 + 5000.
Proof.
  unfold pasteWithPowerShell_twice. mstep. rewrite !advance_to_now.
  unfold PASTE_DELAYS_win32_pwsh.
  pose proof (race_le (spawn w (now s + 40) "powershell.exe" powershell_args) 5000) as Hle.
  pose proof (race_le (spawnAgain w (now s + 40) "powershell.exe" powershell_args) 5000) as Hle'.
  destruct (race _ 5000) as [d ev]. destruct (race _ 5000) as [d' ev'].
  simpl in Hle, Hle'.
  destruct (d <=? d'); rewrite settleWith_now; simpl; rewrite ?advance_to_now; lia.
Qed.

Lemma pasteWithNircmd_bound p orig s :
  now (snd (pasteWithNircmd w p orig s)) <= now s + 30 + 2000 + 40 + 5000.
Proof.
  unfold pasteWithNircmd. mstep. rewrite !advance_to_now.
  unfold PASTE_DELAYS_win32_nircmd.
  pose proof (race_le (spawn w (now s + 30) p ["sendkeypress"; "ctrl+v"]) 2000) as Hle.
  destruct (race _ 2000) as [d ev]. simpl in Hle. mstep.
  destruct ev as [c err|msg|]; [destruct (is_zero c)| |]; simpl.
  - rewrite ?advance_to_now. lia.
  - etransitivity; [apply pasteWithPowerShell_bound|]. rewrite !advance_to_now. lia.
  - etransitivity; [apply pasteWithPowerShell_twice_bound|]. rewrite !advance_to_now. lia.
  - etransitivity; [apply pasteWithPowerShell_bound|]. simpl. rewrite !advance_to_now. lia.
Qed.


Lemma settles_not_pending delay orig s r : settles delay orig s r -> fst r <> Pending.
Proof. unfold settles. intros H Hp. rewrite Hp in H. exact H. Qed.

Lemma settles_lagging_not_pending delay orig r :
  settles_lagging delay orig r -> fst r <> Pending.
Proof. unfold settles_lagging. intros H Hp. rewrite Hp in H. exact H. Qed.

End Timeouts.

Lemma pasteText_pending_only_probe w text s :
  fst (pasteText w text s) = Pending ->
  platform w = Darwin /\ fst (checkAccessibilityPermissions w (afterWrite text s)) = None.
Proof.
  unfold pasteText. mstep. fold (afterWrite text s).
  destruct (platform w) eqn:Hp; simpl.
  - destruct (fst (checkAccessibilityPermissions w (afterWrite text s))) as [[|]|]; simpl.
    + unfold bind. rewrite finish_fst. intros H.
      exfalso. revert H. eapply settles_not_pending. apply pasteMacOS_settles.
    + discriminate.
    + auto.
  - unfold bind. rewrite finish_fst. intros H.
    exfalso. revert H. eapply settles_lagging_not_pending. apply pasteWindows_settles_lagging.
  - unfold bind. rewrite finish_fst. intros H.
    exfalso. revert H. eapply settles_not_pending. apply pasteLinux_settles.
Qed.



(** ** The macOS permission probe *)

Section Permission.

Variable w : World.

Lemma dialogs_app a b : dialogs (a ++ b) = (dialogs a + dialogs b)%nat.
Proof.
  induction a as [|e a IH]; [reflexivity|].
  destruct e; simpl; rewrite IH; reflexivity.
Qed.

Lemma dialogs_effects tr : dialogs (effects tr) = dialogs tr.
Proof.
  induction tr as [|e tr IH]; [reflexivity|].
  destruct e; simpl; rewrite ?IH; reflexivity.
Qed.

Lemma advance_to_dialogs t s : dialogs (trace (advance_to t s)) = dialogs (trace s).
Proof. rewrite <- dialogs_effects, advance_to_effects, dialogs_effects. reflexivity. Qed.

Lemma checkAccessibilityPermissions_hit s v :
  platform w = Darwin ->
  value (accessibilityCache s) = Some v -> now s < permExpiresAt (accessibilityCache s) ->
  checkAccessibilityPermissions w s = (Some v, s).
Proof.
  intros Hp Hv Hlt. unfold checkAccessibilityPermissions. rewrite Hp, Hv.
  apply N.ltb_lt in Hlt. rewrite Hlt. reflexivity.
Qed.

Lemma checkAccessibilityPermissions_stale s :
  platform w = Darwin -> permission_stale s ->
  checkAccessibilityPermissions w s = probePermission w s.
Proof.
  intros Hp Hs. unfold checkAccessibilityPermissions. rewrite Hp.
  destruct (value (accessibilityCache s)) as [v|] eqn:Hv; [|reflexivity].
  destruct Hs as [Hs|Hs]; [congruence|].
  apply N.ltb_ge in Hs. rewrite Hs. reflexivity.
Qed.

Lemma probePermission_spec s :
  let r := probePermission w s in
  spawned (trace (snd r)) = spawned (trace s) ++ [("osascript", ["-e"; permission_script])] /\
  match spawn w (now s) "osascript" ["-e"; permission_script] with
  | Closes d code _ =>
      fst r = Some (is_zero code) /\
      dialogs (trace (snd r)) = (dialogs (trace s) + (if is_zero code then 0 else 1))%nat /\
      accessibilityCache (snd r)
        = {| value := Some (is_zero code); permExpiresAt := now s + d + CACHE_TTL_MS |}
  | Errors d _ _ =>
      fst r = Some false /\
      dialogs (trace (snd r)) = (dialogs (trace s) + 1)%nat /\
      accessibilityCache (snd r)
        = {| value := Some false; permExpiresAt := now s + d + CACHE_TTL_MS |}
  | Hangs =>
      fst r = None /\
      dialogs (trace (snd r)) = dialogs (trace s) /\
      accessibilityCache (snd r) = accessibilityCache s
  end.
Proof.
  unfold probePermission. mstep.
  destruct (spawn w (now s) "osascript" ["-e"; permission_script]) as [d c err|d errno msg|];
    simpl.
  - destruct (is_zero c); simpl; rewrite ?advance_to_now; simpl;
      rewrite ?spawned_app, ?dialogs_app, ?advance_to_spawned, ?advance_to_dialogs; simpl;
      rewrite ?spawned_app, ?dialogs_app; simpl; rewrite ?app_nil_r, ?Nat.add_0_r;
      repeat split; reflexivity.
  - rewrite ?advance_to_now. simpl.
    rewrite ?spawned_app, ?dialogs_app, ?advance_to_spawned, ?advance_to_dialogs. simpl.
    rewrite ?spawned_app, ?dialogs_app. simpl. rewrite ?app_nil_r, ?Nat.add_0_r.
    repeat split; reflexivity.
  - rewrite ?spawned_app, ?dialogs_app. simpl. rewrite ?Nat.add_0_r. repeat split; reflexivity.
Qed.

End Permission.

(** C8. On macOS a probe is made exactly when nothing is cached or the
    cached value has expired, and it starts one osascript child. A probe that
    ends in a denial (the child closes with a code other than 0, or it could
    not be started and its 'error' is followed by its 'close') opens the
    remediation dialog exactly once; a probe that grants, or that stays
    pending, opens none. The answer is cached for 30 s from the event, and a
    call within that time, a cached denial included, returns the cached
    answer and leaves the state as it found it: no child is started and no
    dialog is opened. *)
Theorem permission_denial_dialog w s :
  platform w = Darwin ->
  (permission_stale s ->
   let r := checkAccessibilityPermissions w s in
   spawned (trace (snd r)) = spawned (trace s) ++ [("osascript", ["-e"; permission_script])] /\
   (fst r = Some false -> dialogs (trace (snd r)) = S (dialogs (trace s))) /\
   (fst r <> Some false -> dialogs (trace (snd r)) = dialogs (trace s)) /\
   (forall v, fst r = Some v ->
      exists d, accessibilityCache (snd r)
                = {| value := Some v; permExpiresAt := now s + d + 30000 |})) /\
  (forall v, value (accessibilityCache s) = Some v ->
     now s < permExpiresAt (accessibilityCache s) ->
     checkAccessibilityPermissions w s = (Some v, s)).
Proof.
  intros Hp. split.
  - intros Hs r. subst r. rewrite (checkAccessibilityPermissions_stale w s Hp Hs).
    destruct (probePermission_spec w s) as [Hsp Hm]. split; [exact Hsp|].
    destruct (spawn w (now s) "osascript" ["-e"; permission_script]) as [d c err|d errno msg|];
      destruct Hm as (Hr & Hd & Hc); rewrite Hr, Hd.
    + destruct (is_zero c); repeat split.
      * discriminate.
      * intros _. lia.
      * intros v Hv. injection Hv as <-. exists d. exact Hc.
      * intros _. lia.
      * congruence.
      * intros v Hv. injection Hv as <-. exists d. exact Hc.
    + repeat split.
      * intros _. lia.
      * congruence.
      * intros v Hv. injection Hv as <-. exists d. exact Hc.
    + repeat split; [discriminate|discriminate].
  - intros v Hv Hlt. apply checkAccessibilityPermissions_hit; assumption.
Qed.

Lemma permission_denial_dialog_witness :
  let w := Scenario.mac (Closes 25 (Some 1%Z) "execution error: not allowed assistive access (-1719)") Hangs in
  let r := checkAccessibilityPermissions w Scenario.fresh in
  fst r = Some false /\ dialogs (trace (snd r)) = 1%nat /\
  checkAccessibilityPermissions w (set_now 31024 (snd r)) = (Some false, set_now 31024 (snd r)).
Proof.
  intros w r.
  assert (Hr : fst r = Some false) by (vm_compute; reflexivity).
  destruct (permission_denial_dialog w Scenario.fresh eq_refl) as [Hprobe _].
  destruct (Hprobe (or_introl eq_refl)) as (_ & Hd & _).
  split; [exact Hr|]. split; [exact (Hd Hr)|].
  destruct (permission_denial_dialog w (set_now 31024 (snd r)) eq_refl) as [_ Hhit].
  apply Hhit; [vm_compute; reflexivity|vm_compute; reflexivity].
Defined.

(** ** The memo of the nircmd path is an invariant *)

Section Memo.

Variable w : World.

Lemma same_memo_refl s : same_memo s s.
Proof. split; reflexivity. Qed.

Lemma same_memo_trans s1 s2 s3 : same_memo s1 s2 -> same_memo s2 s3 -> same_memo s1 s3.
Proof. intros [H1 H2] [H3 H4]. split; congruence. Qed.

Lemma same_memo_advance_to t s : same_memo s (advance_to t s).
Proof. destruct (advance_to_caches t s) as (_ & _ & H1 & H2). split; assumption. Qed.

Lemma same_memo_ok s s' : same_memo s s' -> memo_ok w s -> memo_ok w s'.
Proof. unfold memo_ok. intros [H1 H2] H. rewrite H1, H2. exact H. Qed.

Ltac memo :=
  repeat first
    [ apply same_memo_refl
    | eapply same_memo_trans; [|apply same_memo_advance_to]
    | match goal with
      | |- same_memo _ (set_trace _ ?s) =>
          apply (same_memo_trans _ s); [|split; reflexivity]
      | |- same_memo _ (set_timers _ ?s) =>
          apply (same_memo_trans _ s); [|split; reflexivity]
      | |- same_memo _ (set_now _ ?s) =>
          apply (same_memo_trans _ s); [|split; reflexivity]
      | |- same_memo _ (set_accessibilityCache _ ?s) =>
          apply (same_memo_trans _ s); [|split; reflexivity]
      | |- same_memo _ (set_commandAvailabilityCache _ ?s) =>
          apply (same_memo_trans _ s); [|split; reflexivity]
      end ].

Lemma same_memo_run_spawnSync c a s : same_memo s (snd (run_spawnSync w c a s)).
Proof. split; reflexivity. Qed.

Lemma same_memo_commandExists c s : same_memo s (snd (commandExists w c s)).
Proof.
  unfold commandExists, probeCommand. mstep.
  destruct (commandAvailabilityCache s !! c) as [e|];
    [destruct (now s <? expiresAt e); [apply same_memo_refl|]|];
    destruct (spawnSync w (now s) "sh" _); split; reflexivity.
Qed.

Lemma same_memo_filterAvailable l s : same_memo s (snd (filterAvailable w l s)).
Proof.
  revert s. induction l as [|c l IH]; intros s; [apply same_memo_refl|].
  simpl. unfold bind. simpl.
  eapply same_memo_trans; [apply same_memo_commandExists|apply IH].
Qed.

Lemma same_memo_planLinux s : same_memo s (snd (planLinux w s)).
Proof.
  unfold planLinux, bind. cbn [fst snd ret].
  eapply same_memo_trans; [apply (same_memo_commandExists "xdotool")|].
  eapply same_memo_trans; [apply (same_memo_commandExists "wtype")|].
  eapply same_memo_trans; [|apply same_memo_filterAvailable].
  match goal with
  | |- same_memo ?s0 _ => generalize s0
  end.
  intros s0. unfold getXdotoolWindowClass, isTerminal, kdotoolIsTerminal, bind.
  destruct (negb _ || _); cbn [fst snd ret].
  - eapply same_memo_trans; [apply (same_memo_commandExists "kdotool")|].
    destruct (fst (commandExists w "kdotool" s0)); [|apply same_memo_refl].
    eapply same_memo_trans; [apply same_memo_run_spawnSync|].
    destruct (fst (run_spawnSync w "kdotool" ["getactivewindow"] _)) as [d st out|d];
      [|apply same_memo_refl].
    destruct (is_zero st); [|apply same_memo_refl].
    eapply same_memo_trans; [apply same_memo_run_spawnSync|].
    destruct (fst (run_spawnSync w "kdotool" _ _)) as [d' st' out'|d']; [|apply same_memo_refl].
    destruct (is_zero st'); apply same_memo_refl.
  - eapply same_memo_trans; [apply same_memo_run_spawnSync|].
    set (s1 := snd (run_spawnSync w "xdotool" _ s0)).
    assert (Hk : same_memo s1 (snd (kdotoolIsTerminal w s1))).
    { unfold kdotoolIsTerminal, bind.
      eapply same_memo_trans; [apply (same_memo_commandExists "kdotool")|].
      destruct (fst (commandExists w "kdotool" s1)); [|apply same_memo_refl].
      eapply same_memo_trans; [apply same_memo_run_spawnSync|].
      destruct (fst (run_spawnSync w "kdotool" ["getactivewindow"] _)) as [d st out|d];
        [|apply same_memo_refl].
      destruct (is_zero st); [|apply same_memo_refl].
      eapply same_memo_trans; [apply same_memo_run_spawnSync|].
      destruct (fst (run_spawnSync w "kdotool" _ _)) as [d' st' out'|d'];
        [|apply same_memo_refl].
      destruct (is_zero st'); apply same_memo_refl. }
    destruct (fst (run_spawnSync w "xdotool" _ s0)) as [d st out|d]; cbn [fst snd];
      [|exact Hk].
    destruct (negb (is_zero st)); cbn [fst snd ret]; [exact Hk|].
    destruct (truthy (trim (toLowerCase out))) eqn:Ht; cbn [fst snd];
      [rewrite Ht; apply same_memo_refl|exact Hk].
Qed.

Lemma same_memo_pasteWith orig tool s : same_memo s (snd (pasteWith w orig tool s)).
Proof.
  unfold pasteWith. mstep. destruct (race _ 1000) as [d ev]. mstep.
  destruct ev as [c err|msg|]; [destruct (is_zero c)| |]; simpl; memo.
Qed.

Lemma same_memo_tryTools orig l s : same_memo s (snd (tryTools w orig l s)).
Proof.
  revert s. induction l as [|tool l IH]; intros s; [apply same_memo_refl|].
  cbn [tryTools]. unfold bind.
  pose proof (same_memo_pasteWith orig tool s) as Hp.
  destruct (fst (pasteWith w orig tool s)); cbn [fst snd ret]; [exact Hp| |];
    (eapply same_memo_trans; [exact Hp|apply IH]).
Qed.

Lemma same_memo_pasteLinux orig s : same_memo s (snd (pasteLinux w orig s)).
Proof.
  unfold pasteLinux, bind.
  eapply same_memo_trans; [apply same_memo_planLinux|].
  eapply same_memo_trans; [apply same_memo_tryTools|].
  destruct (fst (tryTools w orig _ _)); apply same_memo_refl.
Qed.

Lemma same_memo_pasteMacOS orig s : same_memo s (snd (pasteMacOS w orig s)).
Proof.
  unfold pasteMacOS. mstep. destruct (race _ 3000) as [d ev]. mstep.
  destruct ev as [c err|msg|]; [destruct (is_zero c)| |]; simpl; memo.
Qed.

Lemma same_memo_pasteWithPowerShell orig s :
  same_memo s (snd (pasteWithPowerShell w orig s)).
Proof.
  unfold pasteWithPowerShell. mstep. destruct (race _ 5000) as [d ev]. mstep.
  destruct ev as [c err|msg|]; [destruct (is_zero c)| |]; simpl; memo.
Qed.

Lemma same_memo_settleWith orig d ev lag ev' s :
  same_memo s (snd (settleWith orig d ev lag ev' s)).
Proof.
  unfold settleWith, powershellCallback, powershellLaggard. mstep.
  destruct ev as [c err|msg|]; [destruct (is_zero c)| |];
    (destruct ev' as [c' err'|msg'|]; [destruct (is_zero c')| |]); simpl; memo.
Qed.

Lemma same_memo_pasteWithPowerShell_twice orig s :
  same_memo s (snd (pasteWithPowerShell_twice w orig s)).
Proof.
  unfold pasteWithPowerShell_twice. mstep.
  destruct (race _ 5000) as [d ev]. destruct (race _ 5000) as [d' ev'].
  destruct (d <=? d'); (eapply same_memo_trans; [|apply same_memo_settleWith]); memo.
Qed.

Lemma same_memo_pasteWithNircmd p orig s :
  same_memo s (snd (pasteWithNircmd w p orig s)).
Proof.
  unfold pasteWithNircmd. mstep. destruct (race _ 2000) as [d ev]. mstep.
  destruct ev as [c err|msg|]; [destruct (is_zero c)| |]; simpl.
  - memo.
  - eapply same_memo_trans; [|apply same_memo_pasteWithPowerShell]. memo.
  - eapply same_memo_trans; [|apply same_memo_pasteWithPowerShell_twice]. memo.
  - eapply same_memo_trans; [|apply same_memo_pasteWithPowerShell]. memo.
Qed.

Lemma same_memo_checkAccessibilityPermissions s :
  same_memo s (snd (checkAccessibilityPermissions w s)).
Proof.
  unfold checkAccessibilityPermissions, probePermission. mstep.
  destruct (platform w); try apply same_memo_refl.
  assert (Hp : same_memo s
            (snd (match spawn w (now s) "osascript" ["-e"; permission_script] with
                  | Closes d code testError =>
                      (run sleep d then
                       run set_permission (is_zero code) then
                       run (if is_zero code then ret tt else showAccessibilityDialog testError) then
                       ret (Some (is_zero code)))%M
                  | Errors d errno _ =>
                      (run sleep d then
                       run set_permission false then
                       run set_permission (is_zero (Some (Z.neg errno))) then
                       run (if is_zero (Some (Z.neg errno)) then ret tt
                            else showAccessibilityDialog "") then
                       ret (Some false))%M
                  | Hangs => ret None
                  end (set_trace (trace s ++ [EvSpawn "osascript" ["-e"; permission_script]]) s)))).
  { destruct (spawn w (now s) _ _) as [d c err|d errno msg|]; mstep;
      [destruct (is_zero c)| |]; simpl; memo. }
  destruct (value (accessibilityCache s)); [|exact Hp].
  destruct (now s <? _); [apply same_memo_refl|exact Hp].
Qed.

Lemma same_memo_finish method r s : same_memo s (snd (finish w method r s)).
Proof. destruct r; split; reflexivity. Qed.

(** [pasteText] keeps the memo in step with the machine. *)
Lemma memo_ok_pasteText text s : memo_ok w s -> memo_ok w (snd (pasteText w text s)).
Proof.
  intros Hm. unfold pasteText. mstep. fold (afterWrite text s).
  assert (H0 : memo_ok w (afterWrite text s)) by exact Hm.
  destruct (platform w) eqn:Hp; simpl.
  - pose proof (same_memo_checkAccessibilityPermissions (afterWrite text s)) as Hc.
    destruct (fst (checkAccessibilityPermissions w (afterWrite text s))) as [[|]|].
    + unfold bind. eapply same_memo_ok; [|exact H0].
      eapply same_memo_trans; [exact Hc|].
      eapply same_memo_trans; [apply same_memo_pasteMacOS|apply same_memo_finish].
    + eapply same_memo_ok; [|exact H0].
      eapply same_memo_trans; [exact Hc|]. split; reflexivity.
    + eapply same_memo_ok; [exact Hc|exact H0].
  - unfold bind, pasteWindows, bind.
    rewrite (getNircmdPath_resolved w (afterWrite text s) H0). cbn [fst snd].
    rewrite (getNircmdPath_resolved w (set_nircmd (resolveNircmd w) true (afterWrite text s)))
      by reflexivity.
    cbn [fst snd].
    eapply same_memo_ok; [|exact (eq_refl : memo_ok w
      (set_nircmd (resolveNircmd w) true
         (set_nircmd (resolveNircmd w) true (afterWrite text s))))].
    destruct (resolveNircmd w);
      (eapply same_memo_trans; [|apply same_memo_finish]);
      [apply same_memo_pasteWithNircmd|apply same_memo_pasteWithPowerShell].
  - unfold bind. eapply same_memo_ok; [|exact H0].
    eapply same_memo_trans; [apply same_memo_pasteLinux|apply same_memo_finish].
Qed.

Lemma memo_ok_checkPasteTools s : memo_ok w s -> memo_ok w (snd (checkPasteTools w s)).
Proof.
  intros Hm. eapply same_memo_ok; [|exact Hm].
  unfold checkPasteTools. destruct (platform w); try apply same_memo_refl.
  unfold bind. cbn [fst snd ret].
  set (bw := isWayland (getLinuxSessionInfo w) && negb (isGnome (getLinuxSessionInfo w))).
  set (bx := negb (isWayland (getLinuxSessionInfo w)) || xwaylandAvailable (getLinuxSessionInfo w)).
  apply (same_memo_trans _ (snd ((if bw then commandExists w "wtype" else ret false) s))).
  - destruct bw; [apply same_memo_commandExists|apply same_memo_refl].
  - destruct bx; [apply same_memo_commandExists|apply same_memo_refl].
Qed.

End Memo.

(** ** Every rejection names the manual chord *)

Section MoreStrings.

Lemma startsWith_app_l a b n : startsWith a n = true -> startsWith (a +:+ b) n = true.
Proof.
  revert a. induction n as [|c n IH]; intros a H; [apply startsWith_nil|].
  destruct a as [|c' a]; [discriminate|]. simpl in *.
  apply andb_true_iff in H as [H1 H2]. rewrite H1. simpl. auto.
Qed.

Lemma includes_app_l a b n : includes a n = true -> includes (a +:+ b) n = true.
Proof.
  induction a as [|c a IH]; intros H.
  - simpl in H. rewrite orb_false_r in H. destruct n; [|discriminate].
    apply includes_here, startsWith_nil.
  - rewrite includes_cons in H. apply orb_true_iff in H as [H|H].
    + apply includes_here. apply (startsWith_app_l (String c a)). exact H.
    + simpl. apply includes_later. auto.
Qed.

Lemma includes_app_r a b n : includes b n = true -> includes (a +:+ b) n = true.
Proof.
  intros H. induction a as [|c a IH]; [exact H|]. simpl. apply includes_later. exact IH.
Qed.

End MoreStrings.

Section Politeness.

Variable w : World.

Lemma linuxErrorMsg_manual sess xe we cls :
  includes (linuxErrorMsg sess xe we cls) "paste manually with Ctrl+V" = true.
Proof.
  unfold linuxErrorMsg.
  destruct (isWayland sess); [|reflexivity].
  destruct (isGnome sess).
  - destruct (negb (xwaylandAvailable sess)); [reflexivity|].
    destruct (negb xe); [reflexivity|].
    destruct (negb (truthy_opt cls)); reflexivity.
  - destruct (negb we).
    + destruct (negb (xwaylandAvailable sess)); [reflexivity|].
      destruct (negb xe); [reflexivity|].
      destruct (negb (truthy_opt cls)); reflexivity.
    + apply includes_app_l. reflexivity.
Qed.

Lemma pasteMacOS_polite orig s : polite "Cmd+V" (fst (pasteMacOS w orig s)).
Proof.
  unfold pasteMacOS. mstep. destruct (race _ 3000) as [d ev]. mstep.
  destruct ev as [c err|msg|]; [destruct (is_zero c)| |]; simpl; auto;
    (split; [|reflexivity]); repeat apply includes_app_r; reflexivity.
Qed.

Lemma pasteWithPowerShell_polite orig s : polite "Ctrl+V" (fst (pasteWithPowerShell w orig s)).
Proof.
  unfold pasteWithPowerShell. mstep. destruct (race _ 5000) as [d ev]. mstep.
  destruct ev as [c err|msg|]; [destruct (is_zero c)| |]; simpl; auto;
    (split; [|reflexivity]); repeat apply includes_app_r; reflexivity.
Qed.

Lemma settleWith_polite orig d ev lag ev' s :
  polite "Ctrl+V" (fst (settleWith orig d ev lag ev' s)).
Proof.
  rewrite (settleWith_fst orig d ev lag ev' s s). unfold powershellCallback.
  destruct ev as [c err|msg|]; [destruct (is_zero c)| |]; simpl; auto;
    (split; [|reflexivity]); repeat apply includes_app_r; reflexivity.
Qed.

Lemma pasteWithPowerShell_twice_polite orig s :
  polite "Ctrl+V" (fst (pasteWithPowerShell_twice w orig s)).
Proof.
  unfold pasteWithPowerShell_twice. mstep.
  destruct (race _ 5000) as [d ev]. destruct (race _ 5000) as [d' ev'].
  destruct (d <=? d'); apply settleWith_polite.
Qed.

Lemma pasteWithNircmd_polite p orig s : polite "Ctrl+V" (fst (pasteWithNircmd w p orig s)).
Proof.
  unfold pasteWithNircmd. mstep. destruct (race _ 2000) as [d ev]. mstep.
  destruct ev as [c err|msg|]; [destruct (is_zero c)| |].
  - exact I.
  - apply pasteWithPowerShell_polite.
  - apply pasteWithPowerShell_twice_polite.
  - apply pasteWithPowerShell_polite.
Qed.

Lemma pasteWindows_polite orig s : polite "Ctrl+V" (fst (pasteWindows w orig s)).
Proof.
  unfold pasteWindows, bind.
  destruct (fst (getNircmdPath w s)); [apply pasteWithNircmd_polite|apply pasteWithPowerShell_polite].
Qed.

End Politeness.

(** X1. Whenever pasteText rejects, on any platform and from any
    state, the message of the error tells the user to paste manually with
    the platform's chord (Cmd+V on macOS, Ctrl+V elsewhere); only the Linux
    error carries a code, PASTE_SIMULATION_FAILED. *)
Theorem pasteText_failure_says_paste_manually w text s e s' :
  pasteText w text s = (Rejected e, s') ->
  includes (message e) ("paste manually with " +:+ manualChord (platform w)) = true /\
  code e = match platform w with
           | Linux => Some "PASTE_SIMULATION_FAILED"
           | _ => None
           end.
Proof.
  unfold pasteText. mstep. fold (afterWrite text s).
  destruct (platform w) eqn:Hp; simpl.
  - destruct (fst (checkAccessibilityPermissions w (afterWrite text s))) as [[|]|]; simpl.
    + unfold bind. intros H. apply (f_equal fst) in H. rewrite finish_fst in H. simpl in H.
      pose proof (pasteMacOS_polite w (clipboard s)
                    (snd (checkAccessibilityPermissions w (afterWrite text s)))) as Hpol.
      rewrite H in Hpol. exact Hpol.
    + intros H. injection H as <- _. split; reflexivity.
    + discriminate.
  - unfold bind. intros H. apply (f_equal fst) in H. rewrite finish_fst in H. simpl in H.
    pose proof (pasteWindows_polite w (clipboard s) (snd (getNircmdPath w (afterWrite text s)))) as Hpol.
    rewrite H in Hpol. exact Hpol.
  - unfold bind. intros H. apply (f_equal fst) in H. rewrite finish_fst in H. simpl in H.
    unfold pasteLinux, bind in H.
    destruct (fst (tryTools w (clipboard s) _ _)); [discriminate|].
    simpl in H. injection H as <-. simpl. split; [apply linuxErrorMsg_manual|reflexivity].
Qed.

Lemma pasteText_failure_says_paste_manually_witness :
  let w := Scenario.windows true Hangs Hangs in
  exists e,
    fst (pasteText w "dictated words" Scenario.fresh) = Rejected e /\
    includes (message e) "paste manually with Ctrl+V" = true /\ code e = None.
Proof.
  intros w.
  destruct (pasteText w "dictated words" Scenario.fresh) as [r s'] eqn:H.
  assert (Hr : r = Rejected (error "Paste operation timed out. Text is copied to clipboard - please paste manually with Ctrl+V.")).
  { apply (f_equal fst) in H. vm_compute in H. symmetry. exact H. }
  rewrite Hr in H. eexists. split; [exact Hr|].
  exact (pasteText_failure_says_paste_manually w _ _ _ _ H).
Defined.

(** ** Linux: what is tried, and in which order *)

Section Selector.

Variable w : World.

Lemma filterAvailable_other l name s :
  ~ In name (map cmd l) ->
  commandAvailabilityCache (snd (filterAvailable w l s)) !! name
  = commandAvailabilityCache s !! name.
Proof.
  revert s. induction l as [|c l IH]; intros s Hn; [reflexivity|].
  cbn [filterAvailable]. unfold bind. cbn [fst snd ret].
  rewrite IH by (intros H; apply Hn; right; exact H).
  apply commandExists_other. intros E. apply Hn. left. exact E.
Qed.

Lemma filterAvailable_sublist l s : sublist (fst (filterAvailable w l s)) l.
Proof.
  revert s. induction l as [|c l IH]; intros s; [constructor|].
  cbn [filterAvailable]. unfold bind. cbn [fst snd ret].
  destruct (fst (commandExists w (cmd c) s)); [apply sublist_skip|apply sublist_cons]; apply IH.
Qed.

Lemma filterAvailable_found l s :
  List.NoDup (map cmd l) ->
  forall tool, In tool (fst (filterAvailable w l s)) ->
    cached_found (snd (filterAvailable w l s)) (cmd tool).
Proof.
  revert s. induction l as [|c l IH]; intros s Hnd tool Hin; [destruct Hin|].
  inversion Hnd as [|? ? Hnotin Hnd']; subst.
  cbn [filterAvailable] in *. unfold bind in *. cbn [fst snd ret] in *.
  destruct (fst (commandExists w (cmd c) s)) eqn:Hkeep.
  - destruct Hin as [<-|Hin]; [|apply IH; assumption].
    destruct (commandExists_entry w (cmd c) s) as (e & He & Hx & _).
    exists e. rewrite filterAvailable_other by exact Hnotin.
    split; [exact He|congruence].
  - apply IH; assumption.
Qed.

Lemma candidates_NoDup cw cx inT keys : List.NoDup (map cmd (candidates cw cx inT keys)).
Proof.
  unfold candidates. destruct cw, cx, inT; simpl;
    repeat (constructor; [simpl; intuition discriminate|]); constructor.
Qed.

Lemma candidates_names cw cx inT keys tool :
  In tool (candidates cw cx inT keys) ->
  (cmd tool = "wtype" /\ cw = true) \/ (cmd tool = "xdotool" /\ cx = true).
Proof.
  unfold candidates. destruct cw, cx, inT; simpl; intuition (subst; auto).
Qed.

Lemma planLinux_available s :
  fst (filterAvailable w (plan_candidates (fst (planLinux w s)))
         (snd (isTerminal w (plan_xdotoolWindowClass (fst (planLinux w s)))
                 (snd (getXdotoolWindowClass w (plan_xdotoolExists (fst (planLinux w s)))
                         (getLinuxSessionInfo w)
                         (snd (commandExists w "wtype" (snd (commandExists w "xdotool" s)))))))))
  = plan_available (fst (planLinux w s))
  /\ snd (filterAvailable w (plan_candidates (fst (planLinux w s)))
         (snd (isTerminal w (plan_xdotoolWindowClass (fst (planLinux w s)))
                 (snd (getXdotoolWindowClass w (plan_xdotoolExists (fst (planLinux w s)))
                         (getLinuxSessionInfo w)
                         (snd (commandExists w "wtype" (snd (commandExists w "xdotool" s)))))))))
  = snd (planLinux w s).
Proof. split; reflexivity. Qed.

End Selector.

(** X2. The tools that pasteLinux goes on to try are a
    sub-list, in order, of its candidates; each of them is recorded as
    installed in the availability cache when the selection ends; and a
    candidate is either wtype, on a Wayland session that is not GNOME, or
    xdotool with the chosen chord, on X11 when xdotool is installed and on
    Wayland when xdotool reported a window class. *)
Theorem planLinux_available_found w s :
  let plan := fst (planLinux w s) in
  sublist (plan_available plan) (plan_candidates plan) /\
  (forall tool, In tool (plan_available plan) ->
     cached_found (snd (planLinux w s)) (cmd tool)) /\
  (forall tool, In tool (plan_candidates plan) ->
     (cmd tool = "wtype" /\ isWayland (plan_session plan) = true
        /\ isGnome (plan_session plan) = false) \/
     (cmd tool = "xdotool" /\ args tool = ["key"; plan_pasteKeys plan] /\
        if isWayland (plan_session plan)
        then truthy_opt (plan_xdotoolWindowClass plan) = true
        else plan_xdotoolExists plan = true)).
Proof.
  intros plan. destruct (planLinux_available w s) as [Ha Hs].
  fold plan in Ha. split; [|split].
  - rewrite <- Ha. apply filterAvailable_sublist.
  - intros tool Hin. rewrite <- Hs. rewrite <- Ha in Hin.
    apply filterAvailable_found; [|exact Hin].
    apply candidates_NoDup.
  - intros tool Hin. subst plan. cbn [planLinux bind fst snd ret plan_candidates
      plan_session plan_xdotoolWindowClass plan_xdotoolExists plan_pasteKeys] in *.
    unfold planLinux, bind in *. cbn [fst snd ret plan_candidates
      plan_session plan_xdotoolWindowClass plan_xdotoolExists plan_pasteKeys] in *.
    unfold candidates in Hin. apply in_app_or in Hin. destruct Hin as [Hin|Hin].
    + left. destruct (isWayland (getLinuxSessionInfo w) && negb (isGnome (getLinuxSessionInfo w))) eqn:Hc;
        [|destruct Hin].
      apply andb_true_iff in Hc as [Hw Hg]. apply negb_true_iff in Hg.
      destruct Hin as [<-|[]]. split; [|split; assumption].
      match goal with |- cmd (if ?b then _ else _) = _ => destruct b end; reflexivity.
    + right.
      match type of Hin with In _ (if ?b then _ else _) => destruct b eqn:Hc end; [|destruct Hin].
      destruct Hin as [<-|[]]. split; [reflexivity|]. split; [reflexivity|].
      destruct (isWayland (getLinuxSessionInfo w)); exact Hc.
Qed.

Section Executor.

Variable w : World.










End Executor.


(** ** The report of checkPasteTools *)

Section Report.

Variable w : World.

Lemma guarded_lookup_found (b : bool) name s :
  fst ((if b then commandExists w name else ret false) s) = true ->
  b = true /\ cached_found (snd ((if b then commandExists w name else ret false) s)) name.
Proof.
  destruct b; [|discriminate]. intros H. split; [reflexivity|].
  destruct (commandExists_entry w name s) as (e & He & Hx & _).
  exists e. split; [exact He|congruence].
Qed.

Lemma guarded_lookup_other (b : bool) name name' s :
  name <> name' ->
  commandAvailabilityCache (snd ((if b then commandExists w name else ret false) s)) !! name'
  = commandAvailabilityCache s !! name'.
Proof. intros Hne. destruct b; [apply commandExists_other; exact Hne|reflexivity]. Qed.

End Report.

(** X4. The report of checkPasteTools on Linux is
    coherent: available says that the tool list is not empty, method is the
    first tool, the tools are wtype and xdotool in that order, each listed
    tool was looked up and is cached as installed, an install
    recommendation is only given when no tool was found and names a tool the
    session could use, and none is given exactly when a tool was found or
    the session is GNOME on Wayland without XWayland. *)
Theorem checkPasteTools_linux_report w s :
  platform w = Linux ->
  let r := fst (checkPasteTools w s) in
  let sess := getLinuxSessionInfo w in
  (pt_available r = true <-> pt_tools r <> []) /\
  pt_method r = head (pt_tools r) /\
  sublist (pt_tools r) ["wtype"; "xdotool"] /\
  (forall name, In name (pt_tools r) ->
     In name (consulted w) /\ cached_found (snd (checkPasteTools w s)) name) /\
  (forall name, pt_recommendedInstall r = Some name ->
     pt_tools r = [] /\ In name (consulted w)) /\
  (pt_recommendedInstall r = None <->
     pt_tools r <> [] \/ (isGnome sess = true /\ xwaylandAvailable sess = false)).
Proof.
  intros Hp r sess. subst r. unfold checkPasteTools, consulted. rewrite Hp.
  fold sess. unfold bind. cbn [fst snd ret].
  set (bw := isWayland sess && negb (isGnome sess)).
  set (bx := negb (isWayland sess) || xwaylandAvailable sess).
  set (ra := (if bw then commandExists w "wtype" else ret false) s).
  set (rb := (if bx then commandExists w "xdotool" else ret false) (snd ra)).
  pose proof (guarded_lookup_found w bw "wtype" s) as Hw. fold ra in Hw.
  pose proof (guarded_lookup_found w bx "xdotool" (snd ra)) as Hx. fold rb in Hx.
  pose proof (guarded_lookup_other w bx "xdotool" "wtype" (snd ra) ltac:(discriminate)) as Hk.
  fold rb in Hk.
  assert (Hg : isGnome sess = true -> isWayland sess = true).
  { subst sess. unfold getLinuxSessionInfo. cbn [isGnome isWayland].
    intros H. apply andb_true_iff in H as [H _]. exact H. }
  assert (Hxa : xwaylandAvailable sess = true -> isWayland sess = true).
  { subst sess. unfold getLinuxSessionInfo. cbn [xwaylandAvailable isWayland].
    intros H. apply andb_true_iff in H as [H _]. exact H. }
  unfold linuxPasteTools.
  cbn [pt_available pt_method pt_tools pt_recommendedInstall].
  destruct (fst ra) eqn:Ha, (fst rb) eqn:Hb; cbn [app length Nat.eqb negb head].
  - destruct (Hw eq_refl) as [Hbw Hcw]. destruct (Hx eq_refl) as [Hbx Hcx].
    rewrite Hbw, Hbx.
    split; [split; [discriminate|reflexivity]|]. split; [reflexivity|].
    split; [reflexivity|]. split; [|split; [discriminate|]].
    + intros name [<-|[<-|[]]]; (split; [simpl; auto|]); [|exact Hcx].
      destruct Hcw as (e & He & Hex). exists e. rewrite Hk. auto.
    + split; [intros _; left; discriminate|reflexivity].
  - destruct (Hw eq_refl) as [Hbw Hcw]. rewrite Hbw.
    split; [split; [discriminate|reflexivity]|]. split; [reflexivity|].
    split; [apply sublist_skip, sublist_cons, sublist_nil|]. split; [|split; [discriminate|]].
    + intros name [<-|[]]. split; [simpl; auto|].
      destruct Hcw as (e & He & Hex). exists e. rewrite Hk. auto.
    + split; [intros _; left; discriminate|reflexivity].
  - destruct (Hx eq_refl) as [Hbx Hcx]. rewrite Hbx.
    split; [split; [discriminate|reflexivity]|]. split; [reflexivity|].
    split; [apply sublist_cons, sublist_skip, sublist_nil|]. split; [|split; [discriminate|]].
    + intros name [<-|[]]. split; [apply in_or_app; right; simpl; auto|exact Hcx].
    + split; [intros _; left; discriminate|reflexivity].
  - split; [split; [discriminate|intros H; elim H; reflexivity]|]. split; [reflexivity|].
    split; [apply sublist_cons, sublist_cons, sublist_nil|]. split; [intros name []|].
    subst bw bx.
    destruct (isWayland sess) eqn:Hiw, (isGnome sess) eqn:Hig, (xwaylandAvailable sess) eqn:Hix;
      cbn [negb andb orb app];
      try (specialize (Hg eq_refl); discriminate);
      try (specialize (Hxa eq_refl); discriminate);
      (split; [first [ intros name Hn; injection Hn as <-; split; [reflexivity|simpl; auto]
                     | intros name Hn; discriminate ]|]);
      (split; [try discriminate; intros _; right; split; reflexivity
              |intros [H|[H1 H2]]; [elim H; reflexivity|try discriminate; try reflexivity]]).
Qed.

Lemma checkPasteTools_linux_report_witness :
  let w := Scenario.kdeXwayland "firefox" in
  pt_tools (fst (checkPasteTools w Scenario.fresh)) = ["wtype"; "xdotool"] /\
  pt_method (fst (checkPasteTools w Scenario.fresh)) = Some "wtype" /\
  pt_recommendedInstall (fst (checkPasteTools w Scenario.fresh)) = None.
Proof.
  intros w.
  destruct (checkPasteTools_linux_report w Scenario.fresh eq_refl) as (_ & Hm & _ & _ & _ & Hr).
  split; [vm_compute; reflexivity|]. split; [rewrite Hm; vm_compute; reflexivity|].
  apply Hr. left. vm_compute. discriminate.
Defined.

(** ** The caches over time *)

Lemma ages_refl s : ages s s.
Proof. repeat split. lia. Qed.

Lemma ages_trans s1 s2 s3 : ages s1 s2 -> ages s2 s3 -> ages s1 s3.
Proof. intros (H1 & H2 & H3) (H4 & H5 & H6). repeat split; [lia|congruence|congruence]. Qed.

Lemma ages_advance_to t s : now s <= t -> ages s (advance_to t s).
Proof.
  intros H. destruct (advance_to_caches t s) as (H1 & H2 & _).
  repeat split; [rewrite advance_to_now; exact H|exact H1|exact H2].
Qed.

Lemma steady_ret {A} (a : A) : steady (ret a).
Proof. intros s. apply ages_refl. Qed.

Lemma steady_bind {A B} (m : M A) (k : A -> M B) :
  steady m -> (forall a, steady (k a)) -> steady (bind m k).
Proof. intros Hm Hk s. unfold bind. eapply ages_trans; [apply Hm|apply Hk]. Qed.

Lemma steady_emit e : steady (emit e).
Proof. intros s. repeat split. simpl. lia. Qed.

Lemma steady_Date_now : steady Date_now.
Proof. intros s. apply ages_refl. Qed.

Lemma steady_block d : steady (block d).
Proof. intros s. repeat split. simpl. lia. Qed.

Lemma steady_sleep d : steady (sleep d).
Proof. intros s. apply ages_advance_to. lia. Qed.

Lemma steady_setTimeout text d : steady (setTimeout_writeText text d).
Proof. intros s. repeat split. simpl. lia. Qed.

Lemma steady_readText : steady readText.
Proof. intros s. apply ages_refl. Qed.

Lemma steady_writeText text : steady (writeText text).
Proof. intros s. repeat split. simpl. lia. Qed.

(** Takes a monadic program apart along its binds and case distinctions. *)
Ltac steady_step :=
  first
    [ apply steady_ret | apply steady_emit | apply steady_Date_now | apply steady_block
    | apply steady_sleep | apply steady_setTimeout | apply steady_readText
    | apply steady_writeText
    | apply steady_bind; [|intros ?]
    | match goal with
      | |- steady (match ?x with _ => _ end) => destruct x
      end ].

Section Steady.

Variable w : World.

Lemma steady_run_spawnSync c a : steady (run_spawnSync w c a).
Proof. unfold run_spawnSync. repeat steady_step. Qed.

Lemma steady_run_spawn c a : steady (run_spawn w c a).
Proof. unfold run_spawn. repeat steady_step. Qed.

Lemma steady_killProcess c : steady (killProcess c).
Proof. apply steady_emit. Qed.

Lemma steady_getXdotoolWindowClass xe sess : steady (getXdotoolWindowClass w xe sess).
Proof.
  unfold getXdotoolWindowClass.
  repeat first [apply steady_run_spawnSync | steady_step].
Qed.

Lemma steady_pasteMacOS orig : steady (pasteMacOS w orig).
Proof.
  unfold pasteMacOS.
  repeat first [apply steady_run_spawn | apply steady_killProcess | steady_step].
Qed.

Lemma steady_pasteWithPowerShell orig : steady (pasteWithPowerShell w orig).
Proof.
  unfold pasteWithPowerShell. cbv zeta.
  repeat first [apply steady_run_spawn | apply steady_killProcess | steady_step].
Qed.

Lemma steady_run_spawnAgain c a : steady (run_spawnAgain w c a).
Proof. unfold run_spawnAgain. repeat steady_step. Qed.

Lemma steady_settleWith orig d ev lag ev' : steady (settleWith orig d ev lag ev').
Proof.
  unfold settleWith, powershellCallback, powershellLaggard. cbv zeta.
  repeat first [apply steady_killProcess | steady_step].
Qed.

Lemma steady_pasteWithPowerShell_twice orig : steady (pasteWithPowerShell_twice w orig).
Proof.
  unfold pasteWithPowerShell_twice. cbv zeta.
  repeat first [apply steady_run_spawn | apply steady_run_spawnAgain
               | apply steady_settleWith | steady_step].
Qed.

Lemma steady_pasteWithNircmd p orig : steady (pasteWithNircmd w p orig).
Proof.
  unfold pasteWithNircmd. cbv zeta.
  repeat first [apply steady_run_spawn | apply steady_killProcess
               | apply steady_pasteWithPowerShell | apply steady_pasteWithPowerShell_twice
               | steady_step].
Qed.

Lemma steady_getNircmdPath : steady (getNircmdPath w).
Proof.
  intros s. unfold getNircmdPath.
  destruct (nircmdChecked s); [apply ages_refl|].
  destruct (platform w); try (repeat split; simpl; lia).
  destruct (List.find _ _); repeat split; simpl; lia.
Qed.

Lemma steady_pasteWindows orig : steady (pasteWindows w orig).
Proof.
  unfold pasteWindows.
  repeat first [apply steady_getNircmdPath | apply steady_pasteWithNircmd
               | apply steady_pasteWithPowerShell | steady_step].
Qed.

Lemma steady_pasteWith orig tool : steady (pasteWith w orig tool).
Proof.
  unfold pasteWith.
  repeat first [apply steady_run_spawn | apply steady_killProcess | steady_step].
Qed.

Lemma steady_tryTools orig available : steady (tryTools w orig available).
Proof.
  induction available as [|tool l IH]; cbn [tryTools];
    repeat first [apply steady_pasteWith | exact IH | steady_step].
Qed.

Lemma steady_finish method r : steady (finish w method r).
Proof. unfold finish. repeat steady_step. Qed.

Lemma steady_showAccessibilityDialog err : steady (showAccessibilityDialog err).
Proof. apply steady_emit. Qed.

End Steady.

(** ** Invariants of the caches *)

Section Invariant.

Variable w : World.
Variable I : State -> Prop.

Hypothesis I_ages : forall s s', ages s s' -> I s -> I s'.
Hypothesis I_commandExists : forall name, preserves I (commandExists w name).
Hypothesis I_set_permission : forall v, preserves I (set_permission v).

Lemma steady_preserves {A} (m : M A) : steady m -> preserves I m.
Proof. intros Hm s. apply I_ages, Hm. Qed.

Lemma preserves_bind {A B} (m : M A) (k : A -> M B) :
  preserves I m -> (forall a, preserves I (k a)) -> preserves I (bind m k).
Proof. intros Hm Hk s Hs. unfold bind. apply Hk, Hm, Hs. Qed.

Ltac keep_step :=
  first
    [ apply I_commandExists | apply I_set_permission
    | apply steady_preserves;
      first [ apply steady_ret | apply steady_emit | apply steady_sleep
            | apply steady_readText | apply steady_writeText
            | apply steady_run_spawnSync | apply steady_run_spawn
            | apply steady_getXdotoolWindowClass | apply steady_showAccessibilityDialog
            | apply steady_pasteMacOS | apply steady_pasteWindows | apply steady_getNircmdPath
            | apply steady_tryTools | apply steady_finish ]
    | apply preserves_bind; [|intros ?]
    | match goal with
      | |- preserves I (match ?x with _ => _ end) => destruct x
      end ].

Lemma preserves_kdotoolIsTerminal : preserves I (kdotoolIsTerminal w).
Proof. unfold kdotoolIsTerminal. repeat keep_step. Qed.

Lemma preserves_isTerminal c : preserves I (isTerminal w c).
Proof.
  unfold isTerminal. repeat first [apply preserves_kdotoolIsTerminal | keep_step].
Qed.

Lemma preserves_filterAvailable l : preserves I (filterAvailable w l).
Proof.
  induction l as [|c l IH]; cbn [filterAvailable]; repeat first [exact IH | keep_step].
Qed.

Lemma preserves_planLinux : preserves I (planLinux w).
Proof.
  unfold planLinux. cbv zeta.
  repeat first [apply preserves_isTerminal | apply preserves_filterAvailable | keep_step].
Qed.

Lemma preserves_pasteLinux orig : preserves I (pasteLinux w orig).
Proof.
  unfold pasteLinux. repeat first [apply preserves_planLinux | keep_step].
Qed.

Lemma preserves_probePermission : preserves I (probePermission w).
Proof. unfold probePermission. cbv zeta. repeat keep_step. Qed.

Lemma preserves_checkAccessibilityPermissions :
  preserves I (checkAccessibilityPermissions w).
Proof.
  intros s Hs. unfold checkAccessibilityPermissions.
  destruct (platform w); try exact Hs.
  destruct (value (accessibilityCache s)); [|apply preserves_probePermission; exact Hs].
  destruct (now s <? _); [exact Hs|apply preserves_probePermission; exact Hs].
Qed.

Lemma preserves_pasteText text : preserves I (pasteText w text).
Proof.
  unfold pasteText. cbv zeta.
  repeat first [apply preserves_checkAccessibilityPermissions | apply preserves_pasteLinux
               | keep_step].
Qed.

Lemma preserves_checkPasteTools : preserves I (checkPasteTools w).
Proof.
  unfold checkPasteTools. cbv zeta.
  destruct (platform w); repeat keep_step.
Qed.

End Invariant.

Section Freshness.

Variable w : World.

Lemma caches_fresh_new t clip : caches_fresh (newClipboardManager t clip).
Proof.
  split; simpl; [|lia]. intros name e H. rewrite lookup_empty in H. discriminate.
Qed.

Lemma caches_fresh_ages s s' : ages s s' -> caches_fresh s -> caches_fresh s'.
Proof.
  intros (Hn & Hc & Ha) [H1 H2]. split.
  - intros name e He. rewrite Hc in He. specialize (H1 _ _ He). lia.
  - rewrite Ha. lia.
Qed.

Lemma probeCommand_permission c t s :
  accessibilityCache (snd (probeCommand w c t s)) = accessibilityCache s.
Proof.
  unfold probeCommand. mstep. destruct (spawnSync w (now s) "sh" _); reflexivity.
Qed.

Lemma commandExists_permission c s :
  accessibilityCache (snd (commandExists w c s)) = accessibilityCache s.
Proof.
  unfold commandExists.
  destruct (commandAvailabilityCache s !! c) as [e|]; [|apply probeCommand_permission].
  destruct (now s <? expiresAt e); [reflexivity|apply probeCommand_permission].
Qed.

Lemma caches_fresh_commandExists name : preserves caches_fresh (commandExists w name).
Proof.
  intros s [H1 H2].
  pose proof (commandExists_clock w name s) as Hclock.
  split; [|rewrite commandExists_permission; lia].
  intros name' e He.
  destruct (decide (name = name')) as [<-|Hne].
  - destruct (commandExists_entry w name s) as (e' & He' & _ & [[Hold _]|Hnew]);
      rewrite He' in He; injection He as <-.
    + specialize (H1 _ _ Hold). lia.
    + rewrite Hnew. lia.
  - rewrite commandExists_other in He by exact Hne. specialize (H1 _ _ He). lia.
Qed.

Lemma caches_fresh_set_permission v : preserves caches_fresh (set_permission v).
Proof. intros s [H1 H2]. split; [exact H1|]. simpl. lia. Qed.

End Freshness.

(** X5. No cached answer outlives the time to live: if every
    entry of the tool cache and the permission entry expire at most 30 s
    from now, the same holds after pasteText, checkPasteTools,
    commandExists, checkAccessibilityPermissions and after any wait. *)
Theorem caches_stay_fresh w s :
  caches_fresh s ->
  (forall text, caches_fresh (snd (pasteText w text s))) /\
  caches_fresh (snd (checkPasteTools w s)) /\
  (forall name, caches_fresh (snd (commandExists w name s))) /\
  caches_fresh (snd (checkAccessibilityPermissions w s)) /\
  (forall t, now s <= t -> caches_fresh (advance_to t s)).
Proof.
  intros Hs.
  split; [|split; [|split; [|split]]].
  - intros text.
    apply (preserves_pasteText w caches_fresh caches_fresh_ages
             (caches_fresh_commandExists w) caches_fresh_set_permission); exact Hs.
  - apply (preserves_checkPasteTools w caches_fresh caches_fresh_ages
             (caches_fresh_commandExists w)); exact Hs.
  - intros name. apply caches_fresh_commandExists. exact Hs.
  - apply (preserves_checkAccessibilityPermissions w caches_fresh caches_fresh_ages
             caches_fresh_set_permission); exact Hs.
  - intros t Ht. eapply caches_fresh_ages; [apply ages_advance_to; exact Ht|exact Hs].
Qed.

Lemma caches_stay_fresh_witness :
  let w := Scenario.kdeWayland "org.kde.konsole" (Closes 20 (Some 0%Z) "") in
  caches_fresh (snd (pasteText w "dictated words" Scenario.fresh)).
Proof.
  intros w.
  assert (H0 : caches_fresh Scenario.fresh).
  { split; [|vm_compute; discriminate].
    intros name e H. simpl in H. rewrite lookup_empty in H. discriminate. }
  destruct (caches_stay_fresh w Scenario.fresh H0) as [H _].
  exact (H "dictated words").
Defined.

Section Stable.

Variable w : World.
Variable installed : string -> bool.
Hypothesis Hstable : stable w installed.

Lemma cache_sound_ages s s' : ages s s' -> cache_sound installed s -> cache_sound installed s'.
Proof. intros (_ & Hc & _) H name e He. rewrite Hc in He. apply (H _ _ He). Qed.

Lemma commandExists_stable name s :
  cache_sound installed s -> fst (commandExists w name s) = installed name.
Proof.
  intros Hs. unfold commandExists.
  assert (Hp : fst (probeCommand w name (now s) s) = installed name).
  { destruct (probeCommand_spec w name (now s) s) as (Hr & _). rewrite Hr. apply Hstable. }
  destruct (commandAvailabilityCache s !! name) as [e|] eqn:He; [|exact Hp].
  destruct (now s <? expiresAt e); [|exact Hp]. apply (Hs _ _ He).
Qed.

Lemma cache_sound_commandExists name : preserves (cache_sound installed) (commandExists w name).
Proof.
  intros s Hs name' e He.
  destruct (decide (name = name')) as [<-|Hne].
  - destruct (commandExists_entry w name s) as (e' & He' & Hx & _).
    rewrite He' in He. injection He as <-. rewrite Hx. apply commandExists_stable. exact Hs.
  - rewrite commandExists_other in He by exact Hne. apply (Hs _ _ He).
Qed.

Lemma cache_sound_set_permission v : preserves (cache_sound installed) (set_permission v).
Proof. intros s Hs. exact Hs. Qed.

Lemma filterAvailable_stable l s :
  cache_sound installed s ->
  fst (filterAvailable w l s) = List.filter (fun c => installed (cmd c)) l.
Proof.
  revert s. induction l as [|c l IH]; intros s Hs; [reflexivity|].
  cbn [filterAvailable]. unfold bind. cbn [fst snd ret List.filter].
  rewrite (commandExists_stable (cmd c) s Hs).
  rewrite IH by (apply cache_sound_commandExists; exact Hs).
  reflexivity.
Qed.

Lemma guarded_lookup_stable (b : bool) name s :
  cache_sound installed s ->
  fst ((if b then commandExists w name else ret false) s) = b && installed name /\
  cache_sound installed (snd ((if b then commandExists w name else ret false) s)).
Proof.
  intros Hs. destruct b; [|split; [reflexivity|exact Hs]].
  split; [apply commandExists_stable; exact Hs|apply cache_sound_commandExists; exact Hs].
Qed.

Lemma checkPasteTools_stable s :
  platform w = Linux -> cache_sound installed s ->
  let sess := getLinuxSessionInfo w in
  fst (checkPasteTools w s)
  = linuxPasteTools sess
      (isWayland sess && negb (isGnome sess) && installed "wtype")
      ((negb (isWayland sess) || xwaylandAvailable sess) && installed "xdotool").
Proof.
  intros Hp Hs sess. unfold checkPasteTools. rewrite Hp. fold sess.
  unfold bind. cbn [fst snd ret].
  destruct (guarded_lookup_stable (isWayland sess && negb (isGnome sess)) "wtype" s Hs)
    as [Hw Hs1].
  rewrite Hw.
  destruct (guarded_lookup_stable (negb (isWayland sess) || xwaylandAvailable sess) "xdotool" _ Hs1)
    as [Hx _].
  rewrite Hx. reflexivity.
Qed.

Lemma getXdotoolWindowClass_bridge xe sess s :
  truthy_opt (fst (getXdotoolWindowClass w xe sess s)) = true ->
  xe = true /\ (isWayland sess = true -> xwaylandAvailable sess = true).
Proof.
  unfold getXdotoolWindowClass.
  destruct xe; [|discriminate]. destruct (isWayland sess), (xwaylandAvailable sess);
    simpl; try discriminate; auto.
Qed.

Lemma planLinux_stable s :
  cache_sound installed s ->
  let plan := fst (planLinux w s) in
  plan_xdotoolExists plan = installed "xdotool" /\
  plan_wtypeExists plan = installed "wtype" /\
  plan_available plan = List.filter (fun c => installed (cmd c)) (plan_candidates plan) /\
  (truthy_opt (plan_xdotoolWindowClass plan) = true ->
     isWayland (getLinuxSessionInfo w) = true -> xwaylandAvailable (getLinuxSessionInfo w) = true).
Proof.
  intros Hs plan. subst plan. unfold planLinux, bind.
  cbn [fst snd ret plan_xdotoolExists plan_wtypeExists plan_available plan_candidates
       plan_xdotoolWindowClass].
  pose proof (cache_sound_commandExists "xdotool" s Hs) as Hs1.
  pose proof (cache_sound_commandExists "wtype" _ Hs1) as Hs2.
  rewrite (commandExists_stable "xdotool" s Hs).
  rewrite (commandExists_stable "wtype" _ Hs1).
  split; [reflexivity|]. split; [reflexivity|].
  set (s2 := snd (commandExists w "wtype" (snd (commandExists w "xdotool" s)))) in *.
  set (rc := getXdotoolWindowClass w (installed "xdotool") (getLinuxSessionInfo w) s2).
  assert (Hs3 : cache_sound installed (snd rc)).
  { eapply cache_sound_ages; [apply steady_getXdotoolWindowClass|exact Hs2]. }
  assert (Hs4 : cache_sound installed (snd (isTerminal w (fst rc) (snd rc)))).
  { apply (preserves_isTerminal w (cache_sound installed) cache_sound_ages
             cache_sound_commandExists); exact Hs3. }
  split; [apply filterAvailable_stable; exact Hs4|].
  intros Ht. apply (getXdotoolWindowClass_bridge _ _ _ Ht).
Qed.

End Stable.

(** X6. On a machine whose set of installed commands
    does not change, a cache that holds only true answers stays that way
    through pasteText and checkPasteTools, commandExists answers what the
    machine would answer, and checkPasteTools reports the same from every
    such state: the cache is not observable. *)
Theorem stable_machine_cache_is_transparent w installed s :
  stable w installed -> cache_sound installed s ->
  (forall name,
     fst (commandExists w name s) = installed name /\
     cache_sound installed (snd (commandExists w name s))) /\
  (forall text, cache_sound installed (snd (pasteText w text s))) /\
  cache_sound installed (snd (checkPasteTools w s)) /\
  (forall s2, cache_sound installed s2 ->
     fst (checkPasteTools w s2) = fst (checkPasteTools w s)).
Proof.
  intros Hst Hs. split; [|split; [|split]].
  - intros name. split; [apply commandExists_stable; assumption|].
    apply cache_sound_commandExists; assumption.
  - intros text.
    apply (preserves_pasteText w (cache_sound installed) (cache_sound_ages installed)
             (cache_sound_commandExists w installed Hst)
             (cache_sound_set_permission installed)); exact Hs.
  - apply (preserves_checkPasteTools w (cache_sound installed) (cache_sound_ages installed)
             (cache_sound_commandExists w installed Hst)); exact Hs.
  - intros s2 Hs2. destruct (platform w) eqn:Hp.
    + unfold checkPasteTools. rewrite Hp. reflexivity.
    + unfold checkPasteTools. rewrite Hp. reflexivity.
    + rewrite !(checkPasteTools_stable w installed Hst) by assumption. reflexivity.
Qed.


Lemma stable_machine_cache_is_transparent_witness :
  let w := Scenario.kdeXwayland "firefox" in
  fst (commandExists w "kdotool" Scenario.fresh) = true /\
  fst (commandExists w "ydotool" Scenario.fresh) = false.
Proof.
  intros w.
  assert (Hst : stable w (fun name =>
            existsb (fun c => String.eqb ("command -v " +:+ name) ("command -v " +:+ c))
              ["xdotool"; "wtype"; "kdotool"])).
  { intros t name. unfold lookupAnswer. cbn.
    destruct (_ || _); reflexivity. }
  assert (Hs : cache_sound (fun name =>
            existsb (fun c => String.eqb ("command -v " +:+ name) ("command -v " +:+ c))
              ["xdotool"; "wtype"; "kdotool"]) Scenario.fresh).
  { intros name e H. simpl in H. rewrite lookup_empty in H. discriminate. }
  destruct (stable_machine_cache_is_transparent w _ Scenario.fresh Hst Hs) as [H _].
  split; [exact (proj1 (H "kdotool"))|exact (proj1 (H "ydotool"))].
Defined.

(** X7. On a machine whose set of installed commands
    does not change, every tool that pasteLinux would try is among the
    tools that checkPasteTools reports. *)
Theorem planned_tools_are_reported w installed s s2 :
  platform w = Linux -> stable w installed ->
  cache_sound installed s -> cache_sound installed s2 ->
  forall tool, In tool (plan_available (fst (planLinux w s))) ->
    In (cmd tool) (pt_tools (fst (checkPasteTools w s2))).
Proof.
  intros Hp Hst Hs Hs2 tool Hin.
  destruct (planLinux_stable w installed Hst s Hs) as (_ & _ & Ha & Hbridge).
  rewrite Ha in Hin. apply filter_In in Hin as [Hin Hinst].
  rewrite (checkPasteTools_stable w installed Hst s2 Hp Hs2).
  unfold linuxPasteTools. cbn [pt_tools].
  destruct (planLinux_fields w s) as (_ & _ & _ & _ & _ & _ & Hc).
  rewrite Hc in Hin. apply candidates_names in Hin.
  apply in_or_app.
  destruct Hin as [[Hcmd Hcw]|[Hcmd Hcx]]; rewrite Hcmd in *.
  - left. rewrite Hcw, Hinst. left. reflexivity.
  - right. rewrite Hinst.
    destruct (isWayland (getLinuxSessionInfo w)) eqn:Hw.
    + rewrite (Hbridge Hcx eq_refl). left. reflexivity.
    + left. reflexivity.
Qed.

Lemma planned_tools_are_reported_witness :
  let w := Scenario.kdeXwayland "firefox" in
  In "wtype" (pt_tools (fst (checkPasteTools w Scenario.fresh))).
Proof.
  intros w.
  assert (Hst : stable w (fun name =>
            existsb (fun c => String.eqb ("command -v " +:+ name) ("command -v " +:+ c))
              ["xdotool"; "wtype"; "kdotool"])).
  { intros t name. unfold lookupAnswer. cbn.
    destruct (_ || _); reflexivity. }
  assert (Hs : forall installed, cache_sound installed Scenario.fresh).
  { intros installed name e H. simpl in H. rewrite lookup_empty in H. discriminate. }
  apply (planned_tools_are_reported w _ Scenario.fresh Scenario.fresh eq_refl Hst (Hs _) (Hs _)
           {| cmd := "wtype"; args := ["-M"; "ctrl"; "-k"; "v"; "-m"; "ctrl"] |}).
  vm_compute. left. reflexivity.
Defined.

(** X8. On macOS, while a denied permission is cached and
    not expired, pasteText writes the text to the clipboard and rejects with
    the accessibility message at once: no child is started, no timer is
    set, no time passes and the cache is left as it is. *)
Theorem cached_denial_fails_without_probe w text s :
  platform w = Darwin ->
  value (accessibilityCache s) = Some false ->
  now s < permExpiresAt (accessibilityCache s) ->
  let r := pasteText w text s in
  fst r = Rejected (error "Accessibility permissions required for automatic pasting. Text has been copied to clipboard - please paste manually with Cmd+V.") /\
  trace (snd r) = trace s ++ [EvWriteText text; EvPasteLog false "darwin" "applescript"] /\
  clipboard (snd r) = text /\ now (snd r) = now s /\ timers (snd r) = timers s /\
  accessibilityCache (snd r) = accessibilityCache s.
Proof.
  intros Hp Hv Hlt r. subst r. unfold pasteText. mstep. fold (afterWrite text s).
  rewrite Hp. unfold bind.
  rewrite (checkAccessibilityPermissions_hit w (afterWrite text s) false Hp Hv Hlt).
  cbn [fst snd finish]. mstep.
  rewrite <- app_assoc. repeat split.
Qed.

Lemma cached_denial_fails_without_probe_witness :
  let w := Scenario.mac (Closes 25 (Some 0%Z) "") (Closes 30 (Some 0%Z) "") in
  let s := set_accessibilityCache {| value := Some false; permExpiresAt := 1500 |} Scenario.fresh in
  spawned (trace (snd (pasteText w "dictated words" s))) = [].
Proof.
  intros w s.
  destruct (cached_denial_fails_without_probe w "dictated words" s eq_refl eq_refl)
    as (_ & Ht & _).
  { vm_compute. reflexivity. }
  rewrite Ht. reflexivity.
Defined.

(** X9. On Windows pasteText always settles, at most
    7070 ms after it was called: 30 ms and 2 s for nircmd, 40 ms and 5 s
    for PowerShell. *)
Theorem pasteText_windows_settles_in_time w text s :
  platform w = Win32 ->
  fst (pasteText w text s) <> Pending /\
  now (snd (pasteText w text s)) <= now s + 7070.
Proof.
  intros Hp. split.
  - intros Hpend. destruct (pasteText_pending_only_probe w text s Hpend) as [Hd _]. congruence.
  - unfold pasteText. mstep. fold (afterWrite text s). rewrite Hp. unfold bind.
    rewrite finish_now. unfold pasteWindows, bind.
    set (s1 := snd (getNircmdPath w (afterWrite text s))).
    set (s2 := snd (getNircmdPath w s1)).
    assert (Hn : now s2 = now s).
    { subst s2 s1. unfold getNircmdPath.
      repeat match goal with
             | |- context [if ?b then _ else _] => destruct b
             | |- context [match platform w with _ => _ end] => destruct (platform w)
             | |- context [match List.find ?f ?l with _ => _ end] => destruct (List.find f l)
             end; reflexivity. }
    destruct (fst (getNircmdPath w s1)) as [p|].
    + pose proof (pasteWithNircmd_bound w p (clipboard s) s2) as Hb. fold s2. lia.
    + pose proof (pasteWithPowerShell_bound w (clipboard s) s2) as Hb. fold s2. lia.
Qed.

Lemma pasteText_windows_settles_in_time_witness :
  let w := Scenario.windows true Hangs Hangs in
  now (snd (pasteText w "dictated words" Scenario.fresh)) <= 8070.
Proof.
  intros w.
  destruct (pasteText_windows_settles_in_time w "dictated words" Scenario.fresh eq_refl) as [_ H].
  exact H.
Defined.

(** ** The desktop names *)

Section Joined.

Lemma toLowerCase_app a b : toLowerCase (a +:+ b) = toLowerCase a +:+ toLowerCase b.
Proof. induction a as [|c a IH]; simpl; [reflexivity|]. rewrite IH. reflexivity. Qed.

Lemma toLowerCase_join sep l :
  toLowerCase (join sep l) = join (toLowerCase sep) (map toLowerCase l).
Proof.
  induction l as [|x l IH]; [reflexivity|].
  destruct l as [|y l]; [reflexivity|].
  change (join sep (x :: y :: l)) with (x +:+ sep +:+ join sep (y :: l)).
  rewrite !toLowerCase_app, IH. reflexivity.
Qed.

(** A needle without the separator character that starts in front of a
    separator ends in front of it. *)
Lemma startsWith_before c a b n :
  lacks c n = true -> startsWith (a +:+ String c b) n = true -> startsWith a n = true.
Proof.
  revert a. induction n as [|x n IH]; intros a Hl H; [apply startsWith_nil|].
  simpl in Hl. apply andb_true_iff in Hl as [Hx Hl].
  destruct a as [|y a]; simpl in H.
  - apply andb_true_iff in H as [H _]. apply Ascii.eqb_eq in H. subst x.
    rewrite Ascii.eqb_refl in Hx. discriminate.
  - apply andb_true_iff in H as [Hxy H]. simpl. rewrite Hxy. simpl. apply IH; assumption.
Qed.

Lemma includes_around c a b n :
  lacks c n = true -> is_empty n = false ->
  includes (a +:+ String c b) n = true -> includes a n = true \/ includes b n = true.
Proof.
  intros Hl Hne. induction a as [|y a IH]; intros H.
  - simpl in H. apply orb_true_iff in H as [H|H]; [|right; exact H].
    left. apply includes_here. apply (startsWith_before c "" b n Hl H).
  - change (String y a +:+ String c b) with (String y (a +:+ String c b)) in H.
    rewrite includes_cons in H. apply orb_true_iff in H as [H|H].
    + left. apply includes_here. apply (startsWith_before c (String y a) b n Hl H).
    + destruct (IH H) as [Ha|Hb]; [left; apply includes_later; exact Ha|right; exact Hb].
Qed.

Lemma includes_join c l n :
  lacks c n = true -> is_empty n = false ->
  (includes (join (String c EmptyString) l) n = true <->
   exists x, In x l /\ includes x n = true).
Proof.
  intros Hl Hne. induction l as [|x l IH].
  - simpl. split; [|intros (? & [] & _)].
    destruct n; [discriminate|]. simpl. discriminate.
  - destruct l as [|y l].
    + simpl. split; [intros H; exists x; auto|intros (z & [<-|[]] & H); exact H].
    + change (join (String c EmptyString) (x :: y :: l))
        with (x +:+ String c (join (String c EmptyString) (y :: l))).
      split.
      * intros H. apply (includes_around c x _ n Hl Hne) in H as [H|H].
        -- exists x. split; [left; reflexivity|exact H].
        -- apply IH in H as (z & Hz & Hzn). exists z. split; [right; exact Hz|exact Hzn].
      * intros (z & [<-|Hz] & Hzn).
        -- apply includes_app_l. exact Hzn.
        -- apply (includes_app_r x (String c _)). apply includes_later.
           apply IH. exists z. split; assumption.
Qed.

Lemma filter_Boolean_In x l :
  In x (filter_Boolean l) <-> In (Some x) l /\ truthy x = true.
Proof.
  induction l as [|[y|] l IH]; simpl.
  - tauto.
  - destruct (truthy y) eqn:Hy; simpl; rewrite IH; split.
    + intros [<-|[H1 H2]]; auto.
    + intros [[H|H] Ht]; [injection H as <-; auto|auto].
    + intros [H1 H2]. auto.
    + intros [[H|H] Ht]; [injection H as <-; congruence|auto].
  - rewrite IH. split; [intros [H1 H2]; auto|intros [[H|H] Ht]; [discriminate|auto]].
Qed.

End Joined.

(** X10. The desktop counts as GNOME exactly when one of
    XDG_CURRENT_DESKTOP, XDG_SESSION_DESKTOP and DESKTOP_SESSION contains
    gnome, in any letter case: joining the variables with a colon neither
    hides nor creates an occurrence. *)
Theorem gnome_in_any_desktop_variable w :
  isGnomeDesktop (getLinuxDesktopEnv w) = true <->
  exists v,
    In (Some v) [XDG_CURRENT_DESKTOP (env w); XDG_SESSION_DESKTOP (env w);
                 DESKTOP_SESSION (env w)] /\
    includes (toLowerCase v) "gnome" = true.
Proof.
  unfold isGnomeDesktop, getLinuxDesktopEnv.
  rewrite (toLowerCase_join ":").
  change (toLowerCase ":") with (String ":" EmptyString).
  rewrite (includes_join ":" _ "gnome" eq_refl eq_refl).
  split.
  - intros (x & Hx & Hinc). apply in_map_iff in Hx as (v & <- & Hv).
    apply filter_Boolean_In in Hv as [Hv _]. exists v. split; assumption.
  - intros (v & Hv & Hinc). exists (toLowerCase v). split; [|exact Hinc].
    apply in_map. apply filter_Boolean_In. split; [exact Hv|].
    destruct v; [discriminate|reflexivity].
Qed.

(** ** The model manager *)

Section ReplaceFacts.

Import ModelManager.

Lemma lacks_app c a b : lacks c (a +:+ b) = lacks c a && lacks c b.
Proof. induction a as [|x a IH]; simpl; [reflexivity|]. rewrite IH, andb_assoc. reflexivity. Qed.

Lemma startsWith_self p r : startsWith (p +:+ r) p = true.
Proof.
  induction p as [|x p IH]; simpl; [apply startsWith_nil|]. rewrite Ascii.eqb_refl. exact IH.
Qed.

Lemma drop_self p r : drop (String.length p) (p +:+ r) = r.
Proof. induction p as [|x p IH]; simpl; [destruct r; reflexivity|exact IH]. Qed.

Lemma splitFirst_eq s pattern :
  splitFirst s pattern
  = if startsWith s pattern then Some (EmptyString, drop (String.length pattern) s)
    else match s with
         | EmptyString => None
         | String c s' =>
             match splitFirst s' pattern with
             | Some (before, after) => Some (String c before, after)
             | None => None
             end
         end.
Proof. destruct s; reflexivity. Qed.

Lemma splitFirst_first c p a r :
  lacks c a = true ->
  splitFirst (a +:+ String c p +:+ r) (String c p) = Some (a, r).
Proof.
  intros Hl. induction a as [|x a IH]; rewrite splitFirst_eq.
  - change (EmptyString +:+ String c p +:+ r) with (String c p +:+ r).
    rewrite (startsWith_self (String c p) r), (drop_self (String c p) r). reflexivity.
  - simpl in Hl. apply andb_true_iff in Hl as [Hx Hl]. apply negb_true_iff in Hx.
    change (String x a +:+ String c p +:+ r) with (String x (a +:+ String c p +:+ r)).
    cbn [startsWith]. rewrite Ascii.eqb_sym, Hx, (IH Hl). reflexivity.
Qed.

Lemma expand_app u v matched before after :
  lacks "$" u = true ->
  expand (u +:+ v) matched before after = u +:+ expand v matched before after.
Proof.
  intros Hl. induction u as [|x u IH]; [reflexivity|].
  simpl in Hl. apply andb_true_iff in Hl as [Hx Hl]. apply negb_true_iff in Hx.
  change (String x u +:+ v) with (String x (u +:+ v)).
  cbn [expand]. rewrite Hx, (IH Hl). reflexivity.
Qed.

Lemma expand_plain r matched before after :
  lacks "$" r = true -> expand r matched before after = r.
Proof.
  intros Hl. induction r as [|x r IH]; [reflexivity|].
  simpl in Hl. apply andb_true_iff in Hl as [Hx Hl]. apply negb_true_iff in Hx.
  cbn [expand]. rewrite Hx, (IH Hl). reflexivity.
Qed.

Lemma replace_first c p a r replacement :
  lacks c a = true ->
  replace (a +:+ String c p +:+ r) (String c p) replacement
  = a +:+ expand replacement (String c p) a r +:+ r.
Proof. intros Hl. unfold replace. rewrite (splitFirst_first c p a r Hl). reflexivity. Qed.

Lemma append_assoc (a b c : string) : (a +:+ b) +:+ c = a +:+ b +:+ c.
Proof.
  induction a as [|x a IH]; [reflexivity|].
  change (String x ((a +:+ b) +:+ c) = String x (a +:+ b +:+ c)). rewrite IH. reflexivity.
Qed.

Lemma truthy_append a c p r : truthy (a +:+ String c p +:+ r) = true.
Proof. destruct a; reflexivity. Qed.

End ReplaceFacts.

(** X11. With a template that holds {system} before
    {user} and has no other brace before them, and a system prompt without
    braces and dollar signs, formatPrompt puts the system prompt and the
    user's text in their places when the text has no dollar sign; a $& in
    the text comes out as the placeholder {user} and a $$ as a single dollar
    sign, since String.prototype.replace reads the text as a replacement
    pattern. *)
Theorem formatPrompt_fills_template provider a b c text systemPrompt :
  ModelManager.promptTemplate provider = Some (a +:+ "{system}" +:+ b +:+ "{user}" +:+ c) ->
  lacks "{" a = true -> lacks "{" b = true ->
  lacks "{" systemPrompt = true -> lacks "$" systemPrompt = true ->
  (lacks "$" text = true ->
   ModelManager.formatPrompt provider text systemPrompt
   = a +:+ systemPrompt +:+ b +:+ text +:+ c) /\
  (forall u v, text = u +:+ "$&" +:+ v -> lacks "$" u = true -> lacks "$" v = true ->
   ModelManager.formatPrompt provider text systemPrompt
   = a +:+ systemPrompt +:+ b +:+ u +:+ "{user}" +:+ v +:+ c) /\
  (forall u v, text = u +:+ "$$" +:+ v -> lacks "$" u = true -> lacks "$" v = true ->
   ModelManager.formatPrompt provider text systemPrompt
   = a +:+ systemPrompt +:+ b +:+ u +:+ "$" +:+ v +:+ c).
Proof.
  intros Ht Ha Hb Hs Hd.
  assert (Hform : ModelManager.formatPrompt provider text systemPrompt
                  = a +:+ systemPrompt +:+ b
                    +:+ ModelManager.expand text "{user}" (a +:+ systemPrompt +:+ b) c +:+ c).
  { unfold ModelManager.formatPrompt. rewrite Ht.
    rewrite (truthy_append a "{" "system}").
    rewrite (replace_first "{" "system}" a _ systemPrompt Ha).
    rewrite (expand_plain systemPrompt _ _ _ Hd).
    rewrite <- !append_assoc.
    rewrite (append_assoc ((a +:+ systemPrompt) +:+ b) "{user}" c).
    rewrite (replace_first "{" "user}" ((a +:+ systemPrompt) +:+ b) c text).
    - rewrite !append_assoc. reflexivity.
    - rewrite !lacks_app, Ha, Hs, Hb. reflexivity. }
  rewrite Hform. split; [|split].
  - intros Hl. rewrite (expand_plain text _ _ _ Hl). reflexivity.
  - intros u v -> Hu Hv. rewrite (expand_app u _ _ _ _ Hu).
    change ("$&" +:+ v) with (String "$" (String "&" v)). cbn [ModelManager.expand].
    cbn [Ascii.eqb Bool.eqb]. cbn [andb].
    rewrite (expand_plain v _ _ _ Hv). rewrite !append_assoc. reflexivity.
  - intros u v -> Hu Hv. rewrite (expand_app u _ _ _ _ Hu).
    change ("$$" +:+ v) with (String "$" (String "$" v)). cbn [ModelManager.expand].
    cbn [Ascii.eqb Bool.eqb]. cbn [andb].
    rewrite (expand_plain v _ _ _ Hv). rewrite !append_assoc. reflexivity.
Qed.

(** X12. When the system prompt itself holds
    {user}, the user's text is put there, and what follows {system} in the
    template, its own {user} included, is left as it is: the second replace
    takes the first occurrence. *)
Theorem formatPrompt_placeholder_in_system_prompt provider a rest p q text :
  ModelManager.promptTemplate provider = Some (a +:+ "{system}" +:+ rest) ->
  lacks "{" a = true -> lacks "{" p = true ->
  lacks "$" p = true -> lacks "$" q = true -> lacks "$" text = true ->
  ModelManager.formatPrompt provider text (p +:+ "{user}" +:+ q)
  = a +:+ p +:+ text +:+ q +:+ rest.
Proof.
  intros Ht Ha Hp Hdp Hdq Hdt. unfold ModelManager.formatPrompt. rewrite Ht.
  rewrite (truthy_append a "{" "system}").
  rewrite (replace_first "{" "system}" a rest _ Ha).
  rewrite (expand_plain (p +:+ "{user}" +:+ q)).
  2:{ rewrite !lacks_app, Hdp, Hdq. reflexivity. }
  rewrite <- (append_assoc a p), !append_assoc.
  rewrite <- (append_assoc a p).
  rewrite (replace_first "{" "user}" (a +:+ p) (q +:+ rest) text).
  - rewrite (expand_plain text _ _ _ Hdt), !append_assoc. reflexivity.
  - rewrite lacks_app, Ha, Hp. reflexivity.
Qed.

Section RegistryFacts.

Import ModelManager.

Lemma find_first {A} (f : A -> bool) l x :
  List.find f l = Some x ->
  f x = true /\ exists before after, l = before ++ x :: after /\
                  forall y, In y before -> f y = false.
Proof.
  induction l as [|y l IH]; [discriminate|]. simpl.
  destruct (f y) eqn:Hy.
  - intros H. injection H as <-. split; [exact Hy|]. exists [], l. split; [reflexivity|].
    intros ? [].
  - intros H. destruct (IH H) as (Hx & before & after & -> & Hb). split; [exact Hx|].
    exists (y :: before), after. split; [reflexivity|].
    intros z [<-|Hz]; [exact Hy|apply Hb; exact Hz].
Qed.

Lemma findModelById_spec localProviders modelId :
  match findModelById localProviders modelId with
  | Some (model, provider) =>
      id model = modelId /\
      exists before after earlier later,
        localProviders = before ++ provider :: after /\
        models provider = earlier ++ model :: later /\
        (forall p m, In p before -> In m (models p) -> id m <> modelId) /\
        (forall m, In m earlier -> id m <> modelId)
  | None => forall p m, In p localProviders -> In m (models p) -> id m <> modelId
  end.
Proof.
  induction localProviders as [|p l IH].
  - intros ? ? [].
  - change (findModelById (p :: l) modelId)
      with (match List.find (fun m => String.eqb (id m) modelId) (models p) with
            | Some model => Some (model, p)
            | None => findModelById l modelId
            end).
    destruct (List.find _ (models p)) as [model|] eqn:Hf.
    + apply find_first in Hf as (Hid & earlier & later & Hm & He).
      apply String.eqb_eq in Hid. split; [exact Hid|].
      exists [], l, earlier, later. split; [reflexivity|]. split; [exact Hm|].
      split; [intros ? ? []|].
      intros m Hin. apply String.eqb_neq. apply (He m Hin).
    + pose proof (List.find_none _ _ Hf) as Hnone.
      destruct (findModelById l modelId) as [[model provider]|].
      * destruct IH as (Hid & before & after & earlier & later & -> & Hm & Hb & He).
        split; [exact Hid|].
        exists (p :: before), after, earlier, later. split; [reflexivity|].
        split; [exact Hm|]. split; [|exact He].
        intros p' m [<-|Hp'] Hin; [apply String.eqb_neq, Hnone; exact Hin|].
        apply (Hb p' m Hp' Hin).
      * intros p' m [<-|Hp'] Hin; [apply String.eqb_neq, Hnone; exact Hin|].
        apply (IH p' m Hp' Hin).
Qed.

Lemma temp_differs (s : string) : s +:+ ".tmp" <> s.
Proof.
  intros H. apply (f_equal String.length) in H.
  induction s as [|c s IH]; [discriminate|]. simpl in H. injection H as H'. exact (IH H').
Qed.

Lemma finally_spec modelId m :
  (modelId ∉ activeDownloads (finally_ modelId m)) /\
  downloadProgress (finally_ modelId m) !! modelId = None /\
  files (finally_ modelId m) = files m /\
  activeRequests (finally_ modelId m) = activeRequests m.
Proof.
  unfold finally_. simpl. split; [intros H; apply elem_of_difference in H as [_ H]; apply H, elem_of_singleton; reflexivity|]. split; [exact (lookup_delete_eq _ _)|]. auto.
Qed.

End RegistryFacts.

(** X13. findModelById returns the first model with the
    given id, in the order of providers and of their models, together with
    the provider that lists it, and null exactly when no provider lists a
    model of that id. *)
Theorem findModelById_first_match localProviders modelId :
  match ModelManager.findModelById localProviders modelId with
  | Some (model, provider) =>
      ModelManager.id model = modelId /\
      exists before after earlier later,
        localProviders = before ++ provider :: after /\
        ModelManager.models provider = earlier ++ model :: later /\
        (forall p m, In p before -> In m (ModelManager.models p) ->
           ModelManager.id m <> modelId) /\
        (forall m, In m earlier -> ModelManager.id m <> modelId)
  | None =>
      forall p m, In p localProviders -> In m (ModelManager.models p) ->
        ModelManager.id m <> modelId
  end.
Proof. apply findModelById_spec. Qed.

Section Downloads.

Import ModelManager.

Variable localProviders : list Provider.
Variable modelsDir : string.
Variable path_join : string -> string -> string.
Variable downloadFile : string -> string -> string -> Manager -> Outcome string * Manager.

Lemma downloadModel_transfer modelId model provider m :
  findModelById localProviders modelId = Some (model, provider) ->
  checkModelValid (modelPathOf modelsDir path_join model) m = false ->
  modelId ∉ activeDownloads m ->
  let modelPath := modelPathOf modelsDir path_join model in
  let tempPath := modelPath +:+ ".tmp" in
  let t := downloadFile (getDownloadUrl provider model) tempPath modelId
             (set_activeDownloads ({[modelId]} ∪ activeDownloads m) m) in
  downloadModel localProviders modelsDir path_join downloadFile modelId m =
    match fst t with
    | NeverSettles => (NeverSettles, snd t)
    | Throws e => (Throws e, finally_ modelId (unlink tempPath (snd t)))
    | Returns _ =>
        match files (snd t) !! tempPath with
        | None =>
            (Throws {| message := "ENOENT: no such file or directory, stat '"
                                    +:+ tempPath +:+ "'";
                       code := Some "ENOENT" |},
             finally_ modelId (unlink tempPath (snd t)))
        | Some size =>
            if size <? MIN_FILE_SIZE then
              (Throws (ModelError "Downloaded file appears to be corrupted or incomplete"
                         "DOWNLOAD_CORRUPTED"),
               finally_ modelId (unlink tempPath (snd t)))
            else (Returns modelPath, finally_ modelId (rename tempPath modelPath size (snd t)))
        end
    end.
Proof.
  intros Hf Hv Ha modelPath tempPath t. unfold ModelManager.downloadModel.
  rewrite Hf. fold modelPath. fold tempPath. unfold modelPath at 1. rewrite Hv.
  rewrite bool_decide_eq_false_2 by exact Ha.
  fold t. destruct t as [r m2]. reflexivity.
Qed.

End Downloads.

(** X14. downloadModel answers without a transfer and leaves
    the manager as it is in three cases: an unknown id throws
    MODEL_NOT_FOUND, a model that is on disk and valid returns its path, and
    a model that is being downloaded throws DOWNLOAD_IN_PROGRESS (the mark of
    the running download stays set). *)
Theorem downloadModel_guards localProviders modelsDir path_join downloadFile modelId m :
  let call :=
    ModelManager.downloadModel localProviders modelsDir path_join downloadFile modelId m in
  match ModelManager.findModelById localProviders modelId with
  | None => call = (ModelManager.Throws (ModelManager.ModelNotFoundError modelId), m)
  | Some (model, _) =>
      (ModelManager.isModelDownloaded localProviders modelsDir path_join modelId m = true ->
       call = (ModelManager.Returns (ModelManager.modelPathOf modelsDir path_join model), m)) /\
      (ModelManager.isModelDownloaded localProviders modelsDir path_join modelId m = false ->
       modelId ∈ ModelManager.activeDownloads m ->
       call = (ModelManager.Throws
                 (ModelManager.ModelError "Model is already being downloaded"
                    "DOWNLOAD_IN_PROGRESS"), m))
  end.
Proof.
  intros call. subst call. unfold ModelManager.downloadModel, ModelManager.isModelDownloaded.
  destruct (ModelManager.findModelById localProviders modelId) as [[model provider]|];
    [|reflexivity].
  split.
  - intros ->. reflexivity.
  - intros -> Hin. rewrite bool_decide_eq_true_2 by exact Hin. reflexivity.
Qed.

(** X15. A call of downloadModel that starts a transfer
    stays pending exactly when the transfer does; once it settles,
    whichever way, the model is marked neither active nor in progress, the
    temporary file is gone and no file other than the temporary and the
    model file was touched; when it returns, the model file holds what was
    downloaded, of at least MIN_FILE_SIZE bytes, and when it throws the
    model file is as the transfer left it. *)
Theorem downloadModel_cleans_up localProviders modelsDir path_join downloadFile
    modelId model provider m :
  ModelManager.findModelById localProviders modelId = Some (model, provider) ->
  ModelManager.isModelDownloaded localProviders modelsDir path_join modelId m = false ->
  modelId ∉ ModelManager.activeDownloads m ->
  let modelPath := ModelManager.modelPathOf modelsDir path_join model in
  let tempPath := modelPath +:+ ".tmp" in
  let t := downloadFile (ModelManager.getDownloadUrl provider model) tempPath modelId
             (ModelManager.set_activeDownloads
                ({[modelId]} ∪ ModelManager.activeDownloads m) m) in
  let r := ModelManager.downloadModel localProviders modelsDir path_join downloadFile
             modelId m in
  (fst r = ModelManager.NeverSettles <-> fst t = ModelManager.NeverSettles) /\
  (fst r <> ModelManager.NeverSettles ->
   (modelId ∉ ModelManager.activeDownloads (snd r)) /\
   ModelManager.downloadProgress (snd r) !! modelId = None /\
   ModelManager.files (snd r) !! tempPath = None /\
   (forall p, p <> tempPath -> p <> modelPath ->
      ModelManager.files (snd r) !! p = ModelManager.files (snd t) !! p) /\
   match fst r with
   | ModelManager.Returns p =>
       p = modelPath /\
       exists size,
         ModelManager.files (snd t) !! tempPath = Some size /\
         ModelManager.files (snd r) !! modelPath = Some size /\
         ModelManager.MIN_FILE_SIZE <= size
   | ModelManager.Throws _ =>
       ModelManager.files (snd r) !! modelPath = ModelManager.files (snd t) !! modelPath
   | ModelManager.NeverSettles => False
   end).
Proof.
  intros Hf Hd Ha modelPath tempPath t r.
  assert (Hv : ModelManager.checkModelValid (ModelManager.modelPathOf modelsDir path_join model) m
               = false).
  { unfold ModelManager.isModelDownloaded in Hd. rewrite Hf in Hd. exact Hd. }
  pose proof (downloadModel_transfer localProviders modelsDir path_join downloadFile
                modelId model provider m Hf Hv Ha) as Hr.
  cbv zeta in Hr. fold modelPath in Hr. fold tempPath in Hr. fold t in Hr. fold r in Hr.
  assert (Hne : modelPath <> tempPath).
  { intros E. symmetry in E. exact (temp_differs modelPath E). }
  assert (Hfail : forall e,
            r = (ModelManager.Throws e,
                 ModelManager.finally_ modelId (ModelManager.unlink tempPath (snd t))) ->
            (fst r = ModelManager.NeverSettles <-> False) /\
            ((modelId ∉ ModelManager.activeDownloads (snd r)) /\
             ModelManager.downloadProgress (snd r) !! modelId = None /\
             ModelManager.files (snd r) !! tempPath = None /\
             (forall p, p <> tempPath -> p <> modelPath ->
                ModelManager.files (snd r) !! p = ModelManager.files (snd t) !! p) /\
             ModelManager.files (snd r) !! modelPath
             = ModelManager.files (snd t) !! modelPath)).
  { intros e He. rewrite He. cbn [fst snd].
    destruct (finally_spec modelId (ModelManager.unlink tempPath (snd t)))
      as (H1 & H2 & H3 & _).
    split; [split; [discriminate|tauto]|].
    split; [exact H1|]. split; [exact H2|]. rewrite H3. cbn [ModelManager.unlink
      ModelManager.set_files ModelManager.files].
    split; [exact (lookup_delete_eq _ _)|].
    split; [intros p Hp _; apply lookup_delete_ne; congruence|].
    apply lookup_delete_ne. congruence. }
  destruct (fst t) as [d|e|] eqn:Ht.
  - destruct (ModelManager.files (snd t) !! tempPath) as [size|] eqn:Hsize.
    + destruct (size <? ModelManager.MIN_FILE_SIZE) eqn:Hlt.
      * destruct (Hfail _ Hr) as [Hn Hrest]. rewrite Hr in *. cbn [fst snd] in *.
        split; [split; discriminate|]. intros _.
        destruct Hrest as (H1 & H2 & H3 & H4 & H5). auto.
      * rewrite Hr. cbn [fst snd]. split; [split; discriminate|]. intros _.
        destruct (finally_spec modelId (ModelManager.rename tempPath modelPath size (snd t)))
          as (H1 & H2 & H3 & _).
        split; [exact H1|]. split; [exact H2|]. rewrite H3.
        cbn [ModelManager.rename ModelManager.set_files ModelManager.files].
        split; [rewrite lookup_insert_ne by exact Hne; exact (lookup_delete_eq _ _)|].
        split.
        { intros p Hp Hp'. rewrite lookup_insert_ne by congruence.
          apply lookup_delete_ne. congruence. }
        split; [reflexivity|]. exists size. split; [reflexivity|].
        split; [exact (lookup_insert_eq _ _ _)|]. apply N.ltb_ge. exact Hlt.
    + destruct (Hfail _ Hr) as [Hn Hrest]. rewrite Hr in *. cbn [fst snd] in *.
      split; [split; discriminate|]. intros _.
      destruct Hrest as (H1 & H2 & H3 & H4 & H5). auto.
  - destruct (Hfail _ Hr) as [Hn Hrest]. rewrite Hr in *. cbn [fst snd] in *.
    split; [split; discriminate|]. intros _.
    destruct Hrest as (H1 & H2 & H3 & H4 & H5). auto.
  - rewrite Hr. cbn [fst]. split; [tauto|]. intros H. elim H. reflexivity.
Qed.


(** X17. deleteModel throws MODEL_NOT_FOUND for an unknown id
    and leaves the manager as it is; for a known id it returns, the model
    file is gone and no other file, the model no longer counts as
    downloaded, the three maps are untouched, and deleting once more changes
    nothing. *)
Theorem deleteModel_removes localProviders modelsDir path_join modelId m :
  let r := ModelManager.deleteModel localProviders modelsDir path_join modelId m in
  match ModelManager.findModelById localProviders modelId with
  | None => r = (ModelManager.Throws (ModelManager.ModelNotFoundError modelId), m)
  | Some (model, _) =>
      let modelPath := ModelManager.modelPathOf modelsDir path_join model in
      fst r = ModelManager.Returns tt /\
      ModelManager.files (snd r) = delete modelPath (ModelManager.files m) /\
      ModelManager.isModelDownloaded localProviders modelsDir path_join modelId (snd r) = false /\
      ModelManager.activeDownloads (snd r) = ModelManager.activeDownloads m /\
      ModelManager.activeRequests (snd r) = ModelManager.activeRequests m /\
      ModelManager.downloadProgress (snd r) = ModelManager.downloadProgress m /\
      ModelManager.deleteModel localProviders modelsDir path_join modelId (snd r)
      = (ModelManager.Returns tt, snd r)
  end.
Proof.
  intros r. subst r. unfold ModelManager.deleteModel, ModelManager.isModelDownloaded.
  destruct (ModelManager.findModelById localProviders modelId) as [[model provider]|];
    [|reflexivity].
  cbv zeta. unfold ModelManager.checkFileExists, ModelManager.checkModelValid.
  destruct (ModelManager.files m !! ModelManager.modelPathOf modelsDir path_join model)
    as [size|] eqn:Hsize; cbn [fst snd ModelManager.unlink ModelManager.set_files
      ModelManager.files ModelManager.activeDownloads ModelManager.activeRequests
      ModelManager.downloadProgress].
  - rewrite lookup_delete_eq. repeat split.
  - rewrite Hsize. repeat split. symmetry. apply delete_id. exact Hsize.
Qed.

(** X18. getAllModels lists every model of every
    provider, in order, with the names of its provider; an entry is marked
    downloaded exactly when its file is valid and carries its path only
    then; and a model that isModelDownloaded reports is listed as
    downloaded, with its path. *)
Theorem getAllModels_lists_downloaded localProviders modelsDir path_join m :
  let listed := ModelManager.getAllModels localProviders modelsDir path_join m in
  map ModelManager.status_model listed = flat_map ModelManager.models localProviders /\
  (forall e, In e listed ->
     let modelPath := ModelManager.modelPathOf modelsDir path_join (ModelManager.status_model e) in
     ModelManager.isDownloaded e = ModelManager.checkModelValid modelPath m /\
     ModelManager.path e = (if ModelManager.isDownloaded e then Some modelPath else None) /\
     exists provider,
       In provider localProviders /\
       In (ModelManager.status_model e) (ModelManager.models provider) /\
       ModelManager.providerId e = ModelManager.provider_id provider /\
       ModelManager.providerName e = ModelManager.name provider) /\
  (forall modelId,
     ModelManager.isModelDownloaded localProviders modelsDir path_join modelId m = true ->
     exists e, In e listed /\
       ModelManager.id (ModelManager.status_model e) = modelId /\
       ModelManager.isDownloaded e = true /\
       exists model provider,
         ModelManager.findModelById localProviders modelId = Some (model, provider) /\
         ModelManager.status_model e = model /\
         ModelManager.path e = Some (ModelManager.modelPathOf modelsDir path_join model)).
Proof.
  intros listed. subst listed. unfold ModelManager.getAllModels. split; [|split].
  - induction localProviders as [|p l IH]; [reflexivity|].
    cbn [flat_map]. rewrite map_app, IH, map_map. cbn [ModelManager.status_model].
    rewrite map_id. reflexivity.
  - intros e He. apply in_flat_map in He as (provider & Hp & He).
    apply in_map_iff in He as (model & <- & Hm).
    cbn [ModelManager.status_model ModelManager.isDownloaded ModelManager.path
         ModelManager.providerId ModelManager.providerName].
    split; [reflexivity|]. split; [reflexivity|].
    exists provider. auto.
  - intros modelId Hd. unfold ModelManager.isModelDownloaded in Hd.
    pose proof (findModelById_spec localProviders modelId) as Hspec.
    destruct (ModelManager.findModelById localProviders modelId) as [[model provider]|];
      [|discriminate].
    destruct Hspec as (Hid & before & after & earlier & later & Hl & Hm & _).
    eexists. split.
    + apply in_flat_map. exists provider. split; [rewrite Hl; apply in_elt|].
      apply in_map_iff. exists model. split; [reflexivity|]. rewrite Hm. apply in_elt.
    + cbn [ModelManager.status_model ModelManager.isDownloaded ModelManager.path].
      split; [exact Hid|]. split; [exact Hd|].
      exists model, provider. rewrite Hd. auto.
Qed.

Lemma getAllModels_lists_downloaded_witness :
  let m := snd (ModelManager.downloadModel Catalog.localProviders Catalog.modelsDir
                  Catalog.path_join (Catalog.transfer 400000000) "qwen2.5-0.5b" Catalog.idle) in
  exists e,
    In e (ModelManager.getAllModels Catalog.localProviders Catalog.modelsDir Catalog.path_join m) /\
    ModelManager.path e
    = Some "/home/user/.cache/openwhispr/models/qwen2.5-0.5b-instruct-q4_k_m.gguf".
Proof.
  intros m.
  destruct (getAllModels_lists_downloaded Catalog.localProviders Catalog.modelsDir
              Catalog.path_join m) as (_ & _ & H).
  destruct (H "qwen2.5-0.5b") as (e & He & _ & _ & model & provider & Hf & _ & Hp).
  { vm_compute. reflexivity. }
  exists e. split; [exact He|]. rewrite Hp.
  vm_compute in Hf. injection Hf as <- _. reflexivity.
Defined.

Lemma formatPrompt_fills_template_witness :
  ModelManager.formatPrompt Catalog.provider "Fix the grammar: their going home"
    "You clean up dictated text."
  = "<|system|>You clean up dictated text.<|user|>Fix the grammar: their going home<|assistant|>".
Proof.
  destruct (formatPrompt_fills_template Catalog.provider "<|system|>" "<|user|>" "<|assistant|>"
              "Fix the grammar: their going home" "You clean up dictated text."
              eq_refl eq_refl eq_refl eq_refl eq_refl) as [H _].
  apply H. reflexivity.
Defined.

Lemma formatPrompt_placeholder_in_system_prompt_witness :
  ModelManager.formatPrompt Catalog.provider "their going home"
    "Rewrite {user} in plain words."
  = "<|system|>Rewrite their going home in plain words.<|user|>{user}<|assistant|>".
Proof.
  apply (formatPrompt_placeholder_in_system_prompt Catalog.provider "<|system|>"
           "<|user|>{user}<|assistant|>" "Rewrite " " in plain words." "their going home");
    reflexivity.
Defined.

Lemma downloadModel_guards_witness :
  let m := ModelManager.set_activeDownloads {["qwen2.5-0.5b"]} Catalog.idle in
  ModelManager.downloadModel Catalog.localProviders Catalog.modelsDir Catalog.path_join
    (Catalog.transfer 400000000) "qwen2.5-0.5b" m
  = (ModelManager.Throws
       (ModelManager.ModelError "Model is already being downloaded" "DOWNLOAD_IN_PROGRESS"), m).
Proof.
  intros m.
  pose proof (downloadModel_guards Catalog.localProviders Catalog.modelsDir Catalog.path_join
                (Catalog.transfer 400000000) "qwen2.5-0.5b" m) as H.
  cbv zeta in H.
  change (ModelManager.findModelById Catalog.localProviders "qwen2.5-0.5b")
    with (Some (Catalog.qwen, Catalog.provider)) in H.
  destruct H as [_ H]. apply H; [reflexivity|].
  vm_compute. reflexivity.
Defined.

Lemma downloadModel_cleans_up_witness :
  let r := ModelManager.downloadModel Catalog.localProviders Catalog.modelsDir
             Catalog.path_join (Catalog.transfer 999999) "qwen2.5-0.5b" Catalog.idle in
  ModelManager.files (snd r)
    !! "/home/user/.cache/openwhispr/models/qwen2.5-0.5b-instruct-q4_k_m.gguf.tmp" = None /\
  ModelManager.downloadProgress (snd r) !! "qwen2.5-0.5b" = None.
Proof.
  intros r.
  destruct (downloadModel_cleans_up Catalog.localProviders Catalog.modelsDir Catalog.path_join
              (Catalog.transfer 999999) "qwen2.5-0.5b" Catalog.qwen Catalog.provider
              Catalog.idle eq_refl eq_refl) as [_ H].
  { intros Hin. apply elem_of_empty in Hin. exact Hin. }
  destruct H as (_ & H2 & H3 & _).
  { vm_compute. discriminate. }
  split; [exact H3|exact H2].
Defined.


(** ** Runs on the machines of [Scenario] *)

(** osascript cannot be started: the probe answers denied from the 'error'
    handler and the 'close' handler that follows opens the dialog. *)
Example spawn_failure_opens_dialog :
  let w := Scenario.mac (Errors 5 2 "spawn osascript ENOENT") Hangs in
  fst (checkAccessibilityPermissions w Scenario.fresh) = Some false /\
  trace (snd (checkAccessibilityPermissions w Scenario.fresh))
  = [EvSpawn "osascript" ["-e"; permission_script]; EvDialog false] /\
  accessibilityCache (snd (checkAccessibilityPermissions w Scenario.fresh))
  = {| value := Some false; permExpiresAt := 31005 |}.
Proof. vm_compute. repeat split. Qed.

(** Denied permission: [pasteText] rejects before any delivery child is
    started and the text stays on the clipboard. *)
Example denied_permission_keeps_text :
  let w := Scenario.mac (Closes 25 (Some 1%Z) "") Hangs in
  fst (pasteText w "dictated words" Scenario.fresh)
  = Rejected (error "Accessibility permissions required for automatic pasting. Text has been copied to clipboard - please paste manually with Cmd+V.")
  /\ clipboard (snd (pasteText w "dictated words" Scenario.fresh)) = "dictated words"
  /\ spawned (trace (snd (pasteText w "dictated words" Scenario.fresh)))
     = [("osascript", ["-e"; permission_script])].
Proof. vm_compute. repeat split. Qed.

(** nircmd.exe is on disk but cannot be started: the PowerShell mechanism
    is started by the 'error' handler and again by the 'close' handler. *)
Example nircmd_spawn_failure_starts_powershell_twice :
  let w := Scenario.windows true (Errors 2 13 "spawn EACCES") (Closes 120 (Some 0%Z) "") in
  fst (pasteText w "dictated words" Scenario.fresh) = Resolved /\
  spawned (trace (snd (pasteText w "dictated words" Scenario.fresh)))
  = [("C:/app/resources/bin/nircmd.exe", ["sendkeypress"; "ctrl+v"]);
     ("powershell.exe", powershell_args); ("powershell.exe", powershell_args)] /\
  clipboard (advance_to 1272 (snd (pasteText w "dictated words" Scenario.fresh))) = "user data".
Proof. vm_compute. repeat split. Qed.

(** The same with two PowerShell children that both close with exit code
    0, 50 ms apart: the call resolves with the first, and each of the two sets
    a restoration of the original content. *)
Example both_powershell_children_succeed :
  let w := Scenario.windowsUnstartable (Closes 100 (Some 0%Z) "") (Closes 150 (Some 0%Z) "") in
  let r := pasteText w "dictated words" Scenario.fresh in
  fst r = Resolved /\ now (snd r) = 1172 /\
  timers (snd r) = [{| due := 1252; restoreText := "user data" |};
                    {| due := 1302; restoreText := "user data" |}] /\
  clipboard (advance_to 1252 (snd r)) = "user data".
Proof. vm_compute. repeat split. Qed.

(** The second child is the first to end: it decides. *)
Example second_powershell_child_decides :
  let w := Scenario.windowsUnstartable (Closes 150 (Some 1%Z) "") (Closes 100 (Some 0%Z) "") in
  let r := pasteText w "dictated words" Scenario.fresh in
  fst r = Resolved /\ now (snd r) = 1172 /\
  timers (snd r) = [{| due := 1252; restoreText := "user data" |}].
Proof. vm_compute. repeat split. Qed.

(** X11, xdotool present, focused window of class gnome-terminal: the
    invocation carries the three-key chord. *)
Example gnome_terminal_chord :
  let w := Scenario.linuxX11 "Gnome-terminal" (Closes 15 (Some 0%Z) "") in
  fst (pasteText w "dictated words" Scenario.fresh) = Resolved /\
  spawned (trace (snd (pasteText w "dictated words" Scenario.fresh)))
  = [("xdotool", ["key"; "ctrl+shift+v"])].
Proof. vm_compute. repeat split. Qed.

(** The same desktop with a browser in front: the two-key chord. *)
Example browser_chord :
  let w := Scenario.linuxX11 "firefox" (Closes 15 (Some 0%Z) "") in
  spawned (trace (snd (pasteText w "dictated words" Scenario.fresh)))
  = [("xdotool", ["key"; "ctrl+v"])].
Proof. vm_compute. repeat split. Qed.

(** No tool on an X11 desktop: the X11 message, with its install hint. *)
Example x11_without_tools :
  let w := Scenario.linuxX11 "firefox" Hangs in
  let bare := {| platform := Linux; env := env w; possiblePaths := []; existsSync := existsSync w;
                 spawnSync := fun _ _ _ => SyncReturns 2 (Some 127%Z) "";
                 spawn := spawn w; spawnAgain := spawnAgain w; killLatency := 0 |} in
  fst (pasteText bare "dictated words" Scenario.fresh)
  = Rejected {| message := "Clipboard copied, but paste simulation failed on X11. Please install xdotool or paste manually with Ctrl+V.";
                code := Some "PASTE_SIMULATION_FAILED" |}.
Proof. vm_compute. repeat split. Qed.
